(** * Moist: the record codec and the calendar arithmetic of [src/classes.js]

    A shallow embedding of the classes [Fluid], [Entry], [DailyLog] and
    [Month], of the preferences and the amount check of the page's script,
    and of the parts of the JavaScript runtime they use.

    - A JavaScript Number is an IEEE 754 binary64 value: Rocq's primitive
      [float], with the same round-to-nearest-even arithmetic.
    - A Number that the code only ever produces by integer operations (a code
      unit, a length, an index, the operands of the bit operators once
      converted) is a [Z], with the 32-bit and 16-bit wrap-around written out.
    - A JavaScript string is the list of its UTF-16 code units.
    - [Fluid] instances are mutable objects that are shared by reference: they
      live in a heap, and [Fluid.saved], [Fluid.shown] and the entries hold
      locations.
    - An exception is a value of the error monad [Exc]. *)

From Stdlib Require Import ZArith List Bool Lia String Ascii Floats.
From Stdlib Require Uint63.
From stdpp Require Import base list.
Import ListNotations.

Set Warnings "-inexact-float".

Local Open Scope Z_scope.

(** ** Exceptions *)

Inductive JSError : Type :=
| TypeError      (* a property read on [undefined], a non-iterable in [for-of] *)
| OutOfFuel.     (* a loop of the model ran out of fuel; proved not to happen *)

Inductive Exc (A : Type) : Type :=
| Ok (a : A)
| Throw (e : JSError).
Arguments Ok {A} a.
Arguments Throw {A} e.

Definition bind {A B : Type} (m : Exc A) (k : A -> Exc B) : Exc B :=
  match m with
  | Ok a => k a
  | Throw e => Throw e
  end.

Notation "x <- m ;; k" := (bind m (fun x => k))
  (at level 100, m at next level, right associativity).

(** ** Strings *)

Module JSString.

(** A string is its sequence of UTF-16 code units, each in [0, 65535]. *)
Definition t := list Z.

(** An ASCII literal as a JavaScript string. *)
Fixpoint lit (s : string) : t :=
  match s with
  | EmptyString => []
  | String c s' => Z.of_nat (nat_of_ascii c) :: lit s'
  end.

(** [s.charCodeAt(i)]: the code unit, or [None] for NaN. *)
Definition charCodeAt (s : t) (i : nat) : option Z := s !! i.

(** [s.substring(from, to)] for [0 <= from <= to]. *)
Definition substring (s : t) (from to : nat) : t := take (to - from) (drop from s).

(** [s.substring(from)]. *)
Definition substring_from (s : t) (from : nat) : t := drop from s.

(** [s.padStart(n, "0")]. *)
Definition padStart0 (n : nat) (s : t) : t := replicate (n - length s) 48 ++ s.

Definition eqb (a b : t) : bool := bool_decide (a = b).

(** [s.includes(".")]. *)
Definition includes_dot (s : t) : bool := existsb (Z.eqb 46) s.

(** The digit of a value below 36, as [Number.prototype.toString] writes it. *)
Definition digit_char (d : Z) : Z := if d <? 10 then 48 + d else 87 + d.

(** The digits of [n >= 0] in the given radix, most significant first. *)
Fixpoint digits_fuel (fuel : nat) (radix n : Z) (acc : t) : t :=
  match fuel with
  | O => acc
  | S fuel' =>
      let acc' := digit_char (n mod radix) :: acc in
      if n <? radix then acc' else digits_fuel fuel' radix (n / radix) acc'
  end.

Definition digits (radix n : Z) : t :=
  digits_fuel (S (Z.to_nat (Z.log2 n))) radix n [].

Definition decimal (n : Z) : t := digits 10 n.

(** [n.toString(16)] for an integer [n >= 0]. *)
Definition hex (n : Z) : t := digits 16 n.

(** The value of a hexadecimal digit. *)
Definition hex_value (c : Z) : option Z :=
  if (48 <=? c) && (c <=? 57) then Some (c - 48)
  else if (97 <=? c) && (c <=? 102) then Some (c - 87)
  else if (65 <=? c) && (c <=? 70) then Some (c - 55)
  else None.

(** [parseInt(s, 16)] for a string that does not start with white space, a
    sign or [0x]: the value of the longest prefix of hexadecimal digits, or
    [None] (NaN) when that prefix is empty. *)
Fixpoint parseHex_from (acc : option Z) (s : t) : option Z :=
  match s with
  | [] => acc
  | c :: s' =>
      match hex_value c with
      | Some d => parseHex_from (Some (16 * default 0 acc + d)) s'
      | None => acc
      end
  end.

Definition parseInt16 (s : t) : option Z := parseHex_from None s.

(** [c] as [String.prototype.toLowerCase] maps it, for the code units that
    matter to the one caller: the Latin capitals.  No other code unit is
    mapped to [#], to a digit or to a letter from [a] to [f], so the test
    of the colour pattern on the result is the one JavaScript makes. *)
Definition lower_unit (c : Z) : Z :=
  if (65 <=? c) && (c <=? 90) then c + 32 else c.

Definition toLowerCase (s : t) : t := map lower_unit s.

(** [String(n)] and [n.toString()] for an integer [n] of magnitude below
    2^53: every such integer is a Number, and Number::toString writes it as
    its decimal numeral.  (From 2^53 on the shortest digits that identify a
    Number can end in zeros that its numeral does not have; the function is
    used below 2^53 only.) *)
Definition of_integer (n : Z) : t :=
  if n <? 0 then 45 :: decimal (- n) else decimal n.

End JSString.

Abbreviation jsstring := JSString.t.

(** ** Numbers *)

Module JSNumber.

Local Open Scope float_scope.

(** The Number of an integer (exact below 2^53). *)
Definition of_Z (z : Z) : float :=
  if (z <? 0)%Z then - of_uint63 (Uint63.of_Z (- z)) else of_uint63 (Uint63.of_Z z).

(** The Number of a code unit read by [charCodeAt]: NaN when there is none. *)
Definition of_unit (c : option Z) : float :=
  match c with
  | Some z => of_Z z
  | None => nan
  end.

(** The integer part of a finite Number, rounded toward zero; 0 for NaN and
    the infinities (as ToInt32 and ToUint16 take them). *)
Definition truncate (x : float) : Z :=
  match Prim2SF x with
  | S754_finite s m e =>
      let a := if (0 <=? e)%Z then Z.shiftl (Zpos m) e else Z.shiftr (Zpos m) (- e) in
      if s then (- a)%Z else a
  | _ => 0%Z
  end.

(** A mathematical integer as a 32-bit two's complement one. *)
Definition int32 (z : Z) : Z :=
  let m := (z mod 2 ^ 32)%Z in
  if (m <? 2 ^ 31)%Z then m else (m - 2 ^ 32)%Z.

Definition ToInt32 (x : float) : Z := int32 (truncate x).

(** ToUint16, on an integer and on a Number. *)
Definition uint16 (z : Z) : Z := (z mod 2 ^ 16)%Z.
Definition ToUint16 (x : float) : Z := uint16 (truncate x).

(** The bit operators, on operands already converted by ToInt32. *)
Definition shl (a n : Z) : Z := int32 (Z.shiftl a (Z.land n 31)).
Definition sar (a n : Z) : Z := Z.shiftr (int32 a) (Z.land n 31).
Definition bitor (a b : Z) : Z := int32 (Z.lor a b).
Definition bitand (a b : Z) : Z := int32 (Z.land a b).

(** The operand of a bit operator that was read by [charCodeAt]: NaN is 0. *)
Definition unit_int32 (c : option Z) : Z := int32 (default 0%Z c).

(** [x || 0]: NaN, +0 and -0 are falsy. *)
Definition or0 (x : float) : float :=
  if is_nan x || is_zero x then 0 else x.

(** [Math.round]: the closest integral Number, a tie going toward +infinity;
    the sign of the argument is kept when the result is zero.  A finite [x]
    is [v * 2^e]; when [e < 0] the result is the floor of [x + 1/2], which is
    [2 * v + 2^(-e)] shifted right by [1 - e] bits. *)
Definition Math_round (x : float) : float :=
  match Prim2SF x with
  | S754_finite s m e =>
      if (0 <=? e)%Z then x
      else
        let v := if s then Zneg m else Zpos m in
        let r := Z.shiftr (2 * v + 2 ^ (- e)) (1 - e) in
        if (r =? 0)%Z then (if s then neg_zero else zero) else of_Z r
  | _ => x
  end.

(** [Math.floor]: the largest integral Number that is not above [x]. *)
Definition Math_floor (x : float) : float :=
  match Prim2SF x with
  | S754_finite s m e =>
      if (0 <=? e)%Z then x
      else
        let v := if s then Zneg m else Zpos m in
        let r := Z.shiftr v (- e) in
        if (r =? 0)%Z then zero else of_Z r
  | _ => x
  end.

(** [n % d]: the remainder of the division truncated toward zero, with the
    sign of [n].  Both Numbers are multiples of [2^e] for the smaller of
    their exponents [e], and so is the remainder, which is below both in
    magnitude: it is a Number, and no rounding takes place. *)
Definition remainder (n d : float) : float :=
  match Prim2SF n, Prim2SF d with
  | S754_nan, _ | _, S754_nan => nan
  | S754_infinity _, _ => nan
  | _, S754_infinity _ => n
  | _, S754_zero _ => nan
  | S754_zero _, _ => n
  | S754_finite s1 m1 e1, S754_finite _ m2 e2 =>
      let e := Z.min e1 e2 in
      let r := Z.rem (Z.shiftl (Zpos m1) (e1 - e)) (Z.shiftl (Zpos m2) (e2 - e)) in
      if (r =? 0)%Z then (if s1 then neg_zero else zero)
      else Z.ldexp (of_Z (if s1 then (- r)%Z else r)) e
  end.

(** [Math.min] and [Math.max] of two Numbers: NaN when either is NaN, and
    -0 is below +0. *)
Definition Math_min (a b : float) : float :=
  if is_nan a || is_nan b then nan
  else if b <? a then b
  else if a <? b then a
  else if is_zero a && is_zero b then
    (if get_sign a || get_sign b then neg_zero else zero)
  else a.

Definition Math_max (a b : float) : float :=
  if is_nan a || is_nan b then nan
  else if a <? b then b
  else if b <? a then a
  else if is_zero a && is_zero b then
    (if get_sign a && get_sign b then neg_zero else zero)
  else a.

(** *** Number::toString (radix 10)

    ECMAScript writes a finite non-zero Number [x] with the digits of the
    integer [s] of [k] digits, [k] as small as possible, such that
    [s * 10^(n-k)] rounds to [x]; among several such [s] the one closest to
    [x].  The Number is [m * 2^e]; the reals that round to it are those
    between the midpoints to its two neighbours, the midpoints included
    when [m] is even. *)

Local Open Scope Z_scope.

(** [x = vn/den], and the interval that rounds to [x] is [ln/den, hn/den]. *)
Record interval := { ln : Z; vn : Z; hn : Z; den : Z; closed : bool }.

Definition rounding_interval (m : positive) (e : Z) : interval :=
  let m := Zpos m in
  let low := if (m =? 2 ^ 52) && (-1074 <? e) then 4 * m - 1 else 4 * m - 2 in
  let scale := if 0 <=? e - 2 then 2 ^ (e - 2) else 1 in
  {| ln := low * scale; vn := 4 * m * scale; hn := (4 * m + 2) * scale;
     den := if 0 <=? e - 2 then 1 else 2 ^ (2 - e);
     closed := Z.even m |}.

(** [10^p] as the fraction [a/b]. *)
Definition pow10_frac (p : Z) : Z * Z :=
  if 0 <=? p then (10 ^ p, 1) else (1, 10 ^ (- p)).

(** Is [10^p] in the interval? *)
Definition holds_pow10 (i : interval) (p : Z) : bool :=
  let '(a, b) := pow10_frac p in
  (* a/b <= hn/den and ln/den <= a/b *)
  if closed i then (a * den i <=? hn i * b) && (ln i * b <=? a * den i)
  else (a * den i <? hn i * b) && (ln i * b <? a * den i).

(** The position [n] of the decimal point of [x]: [10^(n-1) <= x < 10^n]. *)
Fixpoint point_below (fuel : nat) (i : interval) (j : Z) : Z :=
  match fuel with
  | O => 1 - j
  | S fuel' =>
      if den i <=? vn i * 10 ^ j then 1 - j else point_below fuel' i (j + 1)
  end.

Definition point (i : interval) : Z :=
  if den i <=? vn i then Z.of_nat (length (JSString.decimal (vn i / den i)))
  else point_below 400 i 1.

(** The [s] of [k] digits closest to [x / 10^(n-k)] whose [s * 10^(n-k)] is
    in the interval, if there is one. *)
Definition candidate (i : interval) (n k : Z) : option Z :=
  let '(a, b) := pow10_frac (n - k) in
  (* s * a / b in [ln/den, hn/den], that is s * A in [ln * b, hn * b] *)
  let A := a * den i in
  let lo := ln i * b in
  let hi := hn i * b in
  let smin := (lo + A - 1) / A in
  let smin := if negb (closed i) && (smin * A =? lo) then smin + 1 else smin in
  let smax := hi / A in
  let smax := if negb (closed i) && (smax * A =? hi) then smax - 1 else smax in
  let smin := Z.max smin (10 ^ (k - 1)) in
  let smax := Z.min smax (10 ^ k - 1) in
  if smax <? smin then None
  else
    let q := (vn i * b) / A in
    let r := (vn i * b) mod A in
    let near := if 2 * r <? A then q
                else if A <? 2 * r then q + 1
                else if Z.even q then q else q + 1 in
    Some (Z.max smin (Z.min smax near)).

(** The shortest digits: the least [k] from [k0] on that has a candidate. *)
Fixpoint shortest (fuel : nat) (i : interval) (n k : Z) : Z * Z :=
  match fuel with
  | O => (k, vn i * snd (pow10_frac (n - k)) / (fst (pow10_frac (n - k)) * den i))
  | S fuel' =>
      match candidate i n k with
      | Some s => (k, s)
      | None => shortest fuel' i n (k + 1)
      end
  end.

(** [n], [k] and [s] of a finite non-zero Number [m * 2^e]. *)
Definition shortest_decimal (m : positive) (e : Z) : Z * Z * Z :=
  let i := rounding_interval m e in
  let n := point i in
  if holds_pow10 i n then (n + 1, 1, 1)
  else let '(k, s) := shortest 17 i n 1 in (n, k, s).

Definition zeros (n : Z) : jsstring := replicate (Z.to_nat n) 48.

(** The text of a positive finite Number with [n], [k], [s] as above. *)
Definition write_decimal (n k s : Z) : jsstring :=
  let ds := JSString.decimal s in
  if (k <=? n) && (n <=? 21) then ds ++ zeros (n - k)
  else if (0 <? n) && (n <=? 21) then
    take (Z.to_nat n) ds ++ [46] ++ drop (Z.to_nat n) ds
  else if (-6 <? n) && (n <=? 0) then
    [48; 46] ++ zeros (- n) ++ ds
  else
    let ex := [101] ++ (if 0 <=? n - 1 then [43] else [45])
                    ++ JSString.decimal (Z.abs (n - 1)) in
    if k =? 1 then ds ++ ex
    else take 1 ds ++ [46] ++ drop 1 ds ++ ex.

(** [String(x)], and the conversion of [x + "text"]. *)
Definition toString (x : float) : jsstring :=
  match Prim2SF x with
  | S754_nan => JSString.lit "NaN"
  | S754_zero _ => JSString.lit "0"
  | S754_infinity s => (if s then [45] else []) ++ JSString.lit "Infinity"
  | S754_finite s m e =>
      let '(n, k, d) := shortest_decimal m e in
      (if s then [45] else []) ++ write_decimal n k d
  end.

(** The result of [a + b] and [a - b] on integer Numbers, as an integer: the
    Number nearest to the exact sum [z].  That is [z] itself when it has at
    most 53 significant bits, as every integer up to 2^53 in magnitude has;
    a longer [z] is rounded to 53 bits, a tie going to the even neighbour.
    (Adding or subtracting 0 or 1, as the code does, never leaves the range
    of the finite Numbers.) *)
Definition nearest_integer (z : Z) : Z :=
  let a := Z.abs z in
  let e := Z.log2 a - 52 in
  if e <=? 0 then z
  else
    let q := Z.shiftr a e in
    let r := Z.land a (Z.ones e) in
    let half := Z.shiftl 1 (e - 1) in
    let q := if (r <? half) || ((r =? half) && Z.even q) then q else q + 1 in
    Z.sgn z * Z.shiftl q e.

End JSNumber.

(** ** class Fluid *)

Module Fluid.

Import JSString JSNumber.
Local Open Scope float_scope.

(** The fields of an instance.  [data] is the encoded record and [index]
    the saved index, -1 while the fluid is not saved. *)
Record t := mk {
  name : jsstring;
  color : jsstring;
  hydration : float;
  alwaysShown : bool;
  data : jsstring;
  index : Z
}.

(** The values the field initialisers give, before the constructor runs. *)
Definition fields : t :=
  {| name := lit "???"; color := lit "#999"; hydration := 0;
     alwaysShown := false; data := []; index := (-1)%Z |}.

Definition set_index (i : Z) (f : t) : t :=
  {| name := name f; color := color f; hydration := hydration f;
     alwaysShown := alwaysShown f; data := data f; index := i |}.

(** [static convertAmount(amount, fromOZ, toOZ)] *)
Definition convertAmount (amount : float) (fromOZ toOZ : bool) : float :=
  if Bool.eqb fromOZ toOZ then amount
  else if fromOZ && negb toOZ then amount * 29.5735295625
  else amount / 29.5735295625.

(** [static representAmount(amount, fromOZ, toOZ)] *)
Definition representAmount (amount : float) (fromOZ toOZ : bool) : jsstring :=
  let converted := convertAmount amount fromOZ toOZ in
  if toOZ then
    let number := toString (Math_round (converted * 10) / 10) in
    let number := if negb (includes_dot number) then number ++ lit ".0" else number in
    number ++ lit "oz"
  else
    toString (Math_round converted) ++ lit "mL".

(** The pattern [/^#[0-9a-f]{3}$/]. *)
Definition lower_hex (c : Z) : bool :=
  ((48 <=? c) && (c <=? 57) || (97 <=? c) && (c <=? 102))%Z.

Definition is_color (s : jsstring) : bool :=
  match s with
  | [h; a; b; c] => (h =? 35)%Z && lower_hex a && lower_hex b && lower_hex c
  | _ => false
  end.

(** [String.fromCharCode(a, b)] of two integers. *)
Definition fromCharCode (codes : list Z) : jsstring := map uint16 codes.

(** [constructor(name, color, hydration, alwaysShown)]: the new instance. *)
Definition new (name color : jsstring) (hydration : float) (alwaysShown : bool) : t :=
  let name := substring name 0 31 in
  let color := toLowerCase color in
  let color := if negb (is_color color) then lit "#999" else color in
  let hydration := Math_max 0 (Math_min 100 (Math_round (or0 hydration))) in
  {| data :=
       fromCharCode
         [ bitor (bitor (shl (Z.b2z alwaysShown) 15) (shl (ToInt32 hydration) 8))
                 (int32 (Z.of_nat (length name)));
           default 0%Z (parseInt16 (substring color 1 4)) ]
       ++ name;
     name := name;
     color := color;
     hydration := hydration / 100;
     alwaysShown := alwaysShown;
     index := (-1)%Z |}.

(** [static decode(data)] *)
Definition decode (data : jsstring) : t :=
  let color :=
    lit "#" ++ padStart0 3 (hex (bitand (unit_int32 (charCodeAt data 1)) 0x0FFF)) in
  let complicated := unit_int32 (charCodeAt data 0) in
  let alwaysShown := sar complicated 15 in
  let hydration := Math_min 100 (of_Z (bitand (sar complicated 8) 127)) in
  let nameLength := bitand complicated 31 in
  let name := substring data 2 (2 + Z.to_nat nameLength) in
  new name color hydration (negb (alwaysShown =? 0)%Z).

(** [static decodeCollection(data)]: the loop, from position [pos] with the
    next index [index]; every round moves [pos] forward by the length of a
    record, which is at least 2. *)
Fixpoint decode_from (fuel : nat) (data : jsstring) (pos : nat) (index : Z)
  : Exc (list t) :=
  if (pos <? length data)%nat then
    match fuel with
    | O => Throw OutOfFuel
    | S fuel' =>
        let item := decode (substring_from data pos) in
        rest <- decode_from fuel' data (pos + length (Fluid.data item)) (index + 1) ;;
        Ok (set_index index item :: rest)
    end
  else Ok [].

Definition decodeCollection (data : option jsstring) : Exc (list t) :=
  match data with
  | None => Ok []
  | Some data => decode_from (length data) data 0 0
  end.

(** *** The registry

    The instances live in [heap]; [saved] is [Fluid.saved], [shown] is
    [Fluid.shown] and [stored] is the item [moist:fluids] of the local
    storage.  [next] is the first location not yet given to an instance;
    the cells from there on hold [fields]. *)

Definition loc := nat.

Record registry := mkRegistry {
  heap : loc -> t;
  next : loc;
  saved : list loc;
  shown : list loc;
  stored : option jsstring
}.

Definition update (h : loc -> t) (l : loc) (f : t) : loc -> t :=
  fun l' => if (l' =? l)%nat then f else h l'.

Definition write_index (st : registry) (l : loc) (i : Z) : registry :=
  {| heap := update (heap st) l (set_index i (heap st l)); next := next st;
     saved := saved st; shown := shown st; stored := stored st |}.

Definition push_saved (st : registry) (l : loc) : registry :=
  {| heap := heap st; next := next st; saved := saved st ++ [l];
     shown := shown st; stored := stored st |}.

Definition push_shown (st : registry) (l : loc) : registry :=
  {| heap := heap st; next := next st; saved := saved st;
     shown := shown st ++ [l]; stored := stored st |}.

Definition setItem (st : registry) (text : jsstring) : registry :=
  {| heap := heap st; next := next st; saved := saved st;
     shown := shown st; stored := Some text |}.

(** [new Fluid(...)] as an effect: the instance gets a fresh location. *)
Definition alloc (st : registry) (f : t) : registry * loc :=
  ({| heap := update (heap st) (next st) f; next := S (next st);
      saved := saved st; shown := shown st; stored := stored st |}, next st).

(** [items.find(item => item.data === d)] *)
Definition find_twin (h : loc -> t) (items : list loc) (d : jsstring) : option loc :=
  List.find (fun item => JSString.eqb (data (h item)) d) items.

(** What a caller passes to [save]: an array of fluids, or one instance. *)
Inductive argument : Type :=
| Array (fluids : list loc)
| Instance (fluid : loc).

(** One round of the loop of [save]; [len] is [fluids.length]. *)
Definition save_one (len : Z) (st : registry) (fluid : loc) : registry :=
  match find_twin (heap st) (saved st) (data (heap st fluid)) with
  | None => push_saved (write_index st fluid len) fluid
  | Some twin => write_index st fluid (index (heap st twin))
  end.

(** The second loop of [save] and the write to the local storage. *)
Definition write_back (st : registry) : registry :=
  setItem st (concat (map (fun l => data (heap st l)) (saved st))).

(** [static save(fluids)].  [for (const fluid of fluids)] asks [fluids] for
    its iterator: an array has one, an instance of [Fluid] has none and the
    statement throws a TypeError.  (When [fluids] is [Fluid.saved] itself
    every fluid has a twin and nothing is pushed, so the loop sees the
    array as it was.) *)
Definition save (fluids : argument) (st : registry) : Exc registry :=
  match fluids with
  | Array fluids =>
      Ok (write_back (fold_left (save_one (Z.of_nat (length fluids))) fluids st))
  | Instance _ => Throw TypeError
  end.

(** One round of the loop of [show], with [toSave]. *)
Definition show_one (acc : registry * list loc) (fluid : loc) : registry * list loc :=
  let '(st, toSave) := acc in
  match find_twin (heap st) (shown st) (data (heap st fluid)) with
  | None =>
      (push_shown st fluid,
       if alwaysShown (heap st fluid) then toSave ++ [fluid] else toSave)
  | Some twin => (write_index st fluid (index (heap st twin)), toSave)
  end.

(** [static show(fluids)], called on an array. *)
Definition show (fluids : list loc) (st : registry) : Exc registry :=
  let '(st', toSave) := fold_left show_one fluids (st, []) in
  save (Array toSave) st'.

(** The built-in fluid of line 186. *)
Definition water : t := new (lit "Water") (lit "#6CF") 100 true.

(** What evaluating the class and line 186 does, [item] being the item
    [moist:fluids] of the local storage: the static initialisers of
    [saved] and [shown], then [Fluid.show([new Fluid("Water", ...)])]. *)
Definition initialise (item : option jsstring) : Exc registry :=
  items <- decodeCollection item ;;
  let h := fun l => nth l items fields in
  let saved0 := seq 0 (length items) in
  let st := {| heap := h; next := length items; saved := saved0;
               shown := List.filter (fun l => alwaysShown (h l)) saved0;
               stored := item |} in
  let '(st, w) := alloc st water in
  show [w] st.

End Fluid.

(** ** class Entry *)

Module Entry.

Import JSString JSNumber.
Local Open Scope float_scope.

(** The fields of an instance; [fluid] is [None] when it is [undefined]. *)
Record t := mk {
  fluid : option Fluid.loc;
  isOZ : bool;
  amount : float;
  hour : float;
  minute : float
}.

(** [constructor(fluid, isOZ, amount, hour, minute)].  The argument [fluid]
    is [Some] location when it is an instance of [Fluid]. *)
Definition new (st : Fluid.registry) (fluid : option Fluid.loc) (isOZ : bool)
    (amount hour minute : float) : t :=
  let fluid :=
    match fluid with
    | Some f => Some f
    | None => Fluid.shown st !! 0%nat
    end in
  {| fluid := fluid;
     isOZ := isOZ;
     amount := Math_max 0 (Math_min 6553.5 (Math_round (or0 amount * 10) / 10));
     hour := Math_max 0 (Math_min 23 (Math_round (or0 hour)));
     minute := Math_max 0 (Math_min 59 (Math_round (or0 minute))) |}.

(** [Fluid.saved[c]] for what [charCodeAt] returned: [undefined] for NaN. *)
Definition saved_at (st : Fluid.registry) (c : option Z) : option Fluid.loc :=
  match c with
  | Some i => Fluid.saved st !! Z.to_nat i
  | None => None
  end.

(** [static decode(data)] *)
Definition decode (st : Fluid.registry) (data : jsstring) : t :=
  let complicated := int32 (default 0%Z (charCodeAt data 0)) in
  let isOZ := sar complicated 15 in
  let hour := bitand (sar complicated 6) 31 in
  let minute := bitand complicated 63 in
  let amount := of_unit (charCodeAt data 1) / 10 in
  let fluid :=
    match saved_at st (charCodeAt data 2) with
    | Some f => Some f
    | None => Fluid.saved st !! 0%nat
    end in
  new st fluid (negb (isOZ =? 0)%Z) amount (of_Z hour) (of_Z minute).

(** [static representTime(useMeridiem, hour, minute)] *)
Definition representTime (useMeridiem : bool) (hour minute : float) : jsstring :=
  let visualHour :=
    if useMeridiem then
      (let r := remainder hour 12 in if is_nan r || is_zero r then 12 else r)
    else hour in
  let text := toString visualHour ++ lit ":" ++ padStart0 2 (toString minute) in
  if useMeridiem then text ++ (if hour <? 12 then lit "am" else lit "pm")
  else text.

(** [String.fromCharCode(a, b, c)]: ToUint16 of each argument. *)
Definition fromCharCode (a : Z) (b : float) (c : Z) : jsstring :=
  [uint16 a; ToUint16 b; uint16 c].

(** [encode()]: the text, and the registry as [Fluid.save] left it. *)
Definition encode (st : Fluid.registry) (this : t) : Exc (jsstring * Fluid.registry) :=
  match fluid this with
  | None => Throw TypeError
  | Some f =>
      st' <- (if (Fluid.index (Fluid.heap st f) =? -1)%Z
              then Fluid.save (Fluid.Instance f) st
              else Ok st) ;;
      Ok (fromCharCode
            (bitor (bitor (shl (Z.b2z (isOZ this)) 15)
                          (shl (bitand (ToInt32 (hour this)) 31) 6))
                   (bitand (ToInt32 (minute this)) 63))
            (amount this * 10)
            (Fluid.index (Fluid.heap st' f)),
          st')
  end.

End Entry.

(** ** class DailyLog *)

Module DailyLog.

Import JSString JSNumber.
Local Open Scope float_scope.

Record t := mk {
  goal : float;
  total : float;
  isOZ : bool;
  entries : list Entry.t
}.

(** [constructor(isOZ, goal)]; [total] and [entries] keep the values of
    their initialisers. *)
Definition new (isOZ : bool) (goal : float) : t :=
  {| isOZ := isOZ;
     goal := Math_max 0 (Math_min 6553.5 (Math_round (or0 goal * 10) / 10));
     total := 0;
     entries := [] |}.

(** The two statements that [decode] and [register] share: add the entry's
    share to [total] and push the entry.  Reading [entry.fluid.hydration]
    throws when the entry has no fluid. *)
Definition add (st : Fluid.registry) (log : t) (entry : Entry.t) : Exc t :=
  match Entry.fluid entry with
  | None => Throw TypeError
  | Some f =>
      Ok {| goal := goal log;
            total := total log
                     + Fluid.convertAmount (Entry.amount entry) (Entry.isOZ entry) (isOZ log)
                       * Fluid.hydration (Fluid.heap st f);
            isOZ := isOZ log;
            entries := entries log ++ [entry] |}
  end.

(** The loop of [decode]: [for (let i = 2; i < data.length; i += 3)]. *)
Fixpoint decode_from (fuel : nat) (st : Fluid.registry) (data : jsstring)
    (i : nat) (log : t) : Exc t :=
  if (i <? length data)%nat then
    match fuel with
    | O => Throw OutOfFuel
    | S fuel' =>
        let entry := Entry.decode st (substring data i (i + 3)) in
        log' <- add st log entry ;;
        decode_from fuel' st data (i + 3) log'
    end
  else Ok log.

(** [static decode(data)] *)
Definition decode (st : Fluid.registry) (data : jsstring) : Exc t :=
  let isOZ := sar (unit_int32 (charCodeAt data 0)) 15 in
  let log := new (negb (isOZ =? 0)%Z) (of_unit (charCodeAt data 1) / 10) in
  decode_from (length data) st data 2 log.

(** The loop of [encode], threading the registry through [Entry.encode]. *)
Fixpoint encode_entries (st : Fluid.registry) (es : list Entry.t) (data : jsstring)
  : Exc (jsstring * Fluid.registry) :=
  match es with
  | [] => Ok (data, st)
  | e :: es' =>
      r <- Entry.encode st e ;;
      encode_entries (snd r) es' (data ++ fst r)
  end.

(** [encode()] *)
Definition encode (st : Fluid.registry) (this : t) : Exc (jsstring * Fluid.registry) :=
  let data := [uint16 (shl (Z.b2z (isOZ this)) 15); ToUint16 (goal this * 10)] in
  encode_entries st (entries this) data.

(** The logs are objects as well: [register] changes the one it is called
    on and returns it.  A store gives every log location its fields. *)
Definition store := nat -> t.

Definition update (logs : store) (l : nat) (log : t) : store :=
  fun l' => if (l' =? l)%nat then log else logs l'.

(** [register(fluid, isOZ, amount)] on the log at [this]; [hours] and
    [minutes] are what [now.getHours()] and [now.getMinutes()] return. *)
Definition register (st : Fluid.registry) (hours minutes : Z) (logs : store)
    (this : nat) (fluid : option Fluid.loc) (isOZ : bool) (amount : float)
  : Exc (store * nat) :=
  let entry := Entry.new st fluid isOZ amount (of_Z hours) (of_Z minutes) in
  log' <- add st (logs this) entry ;;
  Ok (update logs this log', this).

End DailyLog.

(** ** Date

    The part of ECMAScript's Date that [Month] uses, on integers: day numbers
    count from 1 January 1970, and the host's time zone is taken to be UTC.
    (In another zone the constructor and [getDate] shift a local midnight by
    the same offset both ways, so the day of the month is the same.) *)

Module JSDate.

Definition DaysInYear (y : Z) : Z :=
  if negb (y mod 4 =? 0) then 365
  else if negb (y mod 100 =? 0) then 366
  else if negb (y mod 400 =? 0) then 365
  else 366.

Definition DayFromYear (y : Z) : Z :=
  365 * (y - 1970) + (y - 1969) / 4 - (y - 1901) / 100 + (y - 1601) / 400.

Definition InLeapYear (y : Z) : Z := if DaysInYear y =? 366 then 1 else 0.

(** The first day of month [mn] (0 for January) within a year. *)
Definition month_start (leap mn : Z) : Z :=
  match mn with
  | 0 => 0
  | 1 => 31
  | 2 => 59 + leap
  | 3 => 90 + leap
  | 4 => 120 + leap
  | 5 => 151 + leap
  | 6 => 181 + leap
  | 7 => 212 + leap
  | 8 => 243 + leap
  | 9 => 273 + leap
  | 10 => 304 + leap
  | 11 => 334 + leap
  | _ => 365 + leap
  end.

(** YearFromTime: the largest [y] with [DayFromYear y <= day], searched
    downward from a year that is not below it. *)
Fixpoint year_down (fuel : nat) (day y : Z) : Z :=
  match fuel with
  | O => y
  | S fuel' => if DayFromYear y <=? day then y else year_down fuel' day (y - 1)
  end.

Definition YearFromDay (day : Z) : Z :=
  year_down (Z.to_nat (Z.abs day / 365) + 2) day (1970 + Z.max 0 (day / 365)).

Definition DayWithinYear (day : Z) : Z := day - DayFromYear (YearFromDay day).

(** MonthFromTime: the last month that starts on or before the day. *)
Fixpoint month_of (fuel : nat) (leap within mn : Z) : Z :=
  match fuel with
  | O => mn
  | S fuel' =>
      if within <? month_start leap (mn + 1) then mn
      else month_of fuel' leap within (mn + 1)
  end.

Definition MonthFromDay (day : Z) : Z :=
  month_of 11 (InLeapYear (YearFromDay day)) (DayWithinYear day) 0.

Definition DateFromDay (day : Z) : Z :=
  DayWithinYear day
  - month_start (InLeapYear (YearFromDay day)) (MonthFromDay day) + 1.

(** MakeDay(year, month, date) *)
Definition MakeDay (year month date : Z) : Z :=
  let ym := year + month / 12 in
  let mn := month mod 12 in
  DayFromYear ym + month_start (InLeapYear ym) mn + date - 1.

(** [new Date(year, month, date)]: the day number of the time value, [None]
    for an invalid date.  A year from 0 to 99 means 1900 + year; TimeClip
    accepts 100,000,000 days on each side of 1 January 1970. *)
Definition new (year month date : Z) : option Z :=
  let yr := if (0 <=? year) && (year <=? 99) then 1900 + year else year in
  let day := MakeDay yr month date in
  if Z.abs day <=? 100000000 then Some day else None.

(** [getDate()]: [None] is NaN. *)
Definition getDate (this : option Z) : option Z :=
  match this with
  | Some day => Some (DateFromDay day)
  | None => None
  end.

(** WeekDay: 0 is Sunday, and 1 January 1970 was a Thursday. *)
Definition WeekDay (day : Z) : Z := (day + 4) mod 7.

(** [getDay()]: [None] is NaN. *)
Definition getDay (this : option Z) : option Z :=
  match this with
  | Some day => Some (WeekDay day)
  | None => None
  end.

End JSDate.

(** ** class Month *)

Module Month.

(** The year and the month are integer Numbers. *)
Record t := mk { year : Z; month : Z }.

(** [next()]; the sums are sums of Numbers. *)
Definition next (this : t) : t :=
  {| year := JSNumber.nearest_integer (year this + Z.b2z (11 <? month this));
     month := if 11 <? month this then 1
              else JSNumber.nearest_integer (month this + 1) |}.

(** [previous()] *)
Definition previous (this : t) : t :=
  {| year := JSNumber.nearest_integer (year this - Z.b2z (month this <? 2));
     month := if month this <? 2 then 12
              else JSNumber.nearest_integer (month this - 1) |}.

(** [getNumberOfDays()] *)
Definition getNumberOfDays (this : t) : option Z :=
  JSDate.getDate (JSDate.new (year this) (month this) 0).

(** [getStorageKeyForDay(day)] *)
Definition getStorageKeyForDay (this : t) (day : Z) : jsstring :=
  JSString.lit "moist:"
  ++ JSString.of_integer (year this)
  ++ JSString.padStart0 2 (JSString.of_integer (month this))
  ++ JSString.padStart0 2 (JSString.of_integer day).

(** The elements that [generateCalendarPage] creates.  A button carries its
    class name and the properties the method sets on it; a cell (TD) holds
    one button or nothing; a row (TR) is the list of its cells and the body
    (TBODY) the list of its rows. *)
Record button := mkButton {
  className : jsstring;
  moistKey : jsstring;
  moistData : option jsstring;
  innerText : Z
}.

Definition cell := option button.
Definition row := list cell.

(** The cell of day [i]: the body of the second loop up to
    [row.appendChild(td)].  [getItem] is [localStorage.getItem] and [date]
    is [NOW.getDate()]. *)
Definition day_cell (getItem : jsstring -> option jsstring) (SAME_MONTH : bool)
    (date : Z) (this : t) (i : Z) : cell :=
  let KEY := getStorageKeyForDay this i in
  let DATA := getItem KEY in
  if SAME_MONTH && (date =? i) then Some (mkButton (JSString.lit "today") KEY DATA i)
  else
    match DATA with
    | Some _ => Some (mkButton [] KEY DATA i)
    | None => None
    end.

(** [row.appendChild(td)] and the statement after it: a row of seven cells
    goes to the body and a new row is started. *)
Definition append_cell (acc : list row * row) (td : cell) : list row * row :=
  let '(body, r) := acc in
  let r := r ++ [td] in
  if (length r =? 7)%nat then (body ++ [r], []) else (body, r).

(** [for (let i = ...; i <= DAYS; ++i)] with [n] rounds left. *)
Fixpoint days_loop (n : nat) (i : Z) (td : Z -> cell) (acc : list row * row)
  : list row * row :=
  match n with
  | O => acc
  | S n' => days_loop n' (i + 1) td (append_cell acc (td i))
  end.

(** [generateCalendarPage(opener)]: the rows of the body.  [fullYear],
    [monthIndex] and [date] are what [NOW.getFullYear()], [NOW.getMonth()]
    and [NOW.getDate()] return.  A NaN for [weekdays] or [DAYS] ends the
    loop at once, as no number is below or equal to it. *)
Definition generateCalendarPage (getItem : jsstring -> option jsstring)
    (fullYear monthIndex date : Z) (this : t) : list row :=
  let SAME_MONTH := (fullYear =? year this) && (monthIndex + 1 =? month this) in
  let DAYS := getNumberOfDays this in
  let weekdays := JSDate.getDay (JSDate.new (year this) (month this - 1) 1) in
  let r := replicate (Z.to_nat (default 0 weekdays)) (None : cell) in
  let '(body, r) :=
    days_loop (Z.to_nat (default 0 DAYS)) 1 (day_cell getItem SAME_MONTH date this)
      ([], r) in
  if (0 <? length r)%nat then body ++ [r] else body.

End Month.

(** ** The preferences

    The object [prefs] of the page's script
    ([src/unnamed/part_000], [src/unnamed/part_001]). *)

Module prefs.

Import JSString JSNumber.

Record t := mk { useOZ : bool; useMeridiem : bool }.

(** [decode(data)]; [None] is [null].  The object is changed in place and
    returned: the result is the object after the call. *)
Definition decode (this : t) (data : option jsstring) : t :=
  match data with
  | None => this
  | Some data =>
      {| useMeridiem := negb (bitand (unit_int32 (charCodeAt data 0)) 2 =? 0);
         useOZ := negb (bitand (unit_int32 (charCodeAt data 0)) 1 =? 0) |}
  end.

(** [encode()] *)
Definition encode (this : t) : jsstring :=
  [uint16 (bitor (shl (bitand (Z.b2z (useMeridiem this)) 1) 2)
                 (bitand (Z.b2z (useOZ this)) 1))].

End prefs.

(** ** The form of a new entry *)

(** [checkEntryAmount()] for the Number [amount] read from the input: the
    value it returns, which is also whether it enables the button. *)
Definition checkEntryAmount (amount : float) : bool :=
  ((0 <? amount) && (amount <? 6000.1)
   && (JSNumber.Math_floor (amount * 10) / 10 =? amount))%float.

(** * Objects to evaluate the code on *)

Import JSString JSNumber.

Definition empty_registry : Fluid.registry :=
  {| Fluid.heap := fun _ => Fluid.fields; Fluid.next := 0%nat;
     Fluid.saved := []; Fluid.shown := []; Fluid.stored := None |}.

Definition registry_of (r : Exc Fluid.registry) : Fluid.registry :=
  match r with
  | Ok st => st
  | Throw _ => empty_registry
  end.

(** The registry after the first start (nothing stored yet), and after a
    later start that reads back what the first one stored. *)
Definition first_run : Fluid.registry := registry_of (Fluid.initialise None).
Definition later_run : Fluid.registry :=
  registry_of (Fluid.initialise (Fluid.stored first_run)).

(** A fluid the user defines and selects, not marked as always shown. *)
Definition tea : Fluid.t := Fluid.new (lit "Tea") (lit "#963") 90 false.

(** A log in ounces with a goal of 64.0, two whole entries and the first
    word of a third. *)
Definition ragged_buffer : jsstring :=
  [32768; 640; 543; 80; 0; 33368; 85; 0; 77].

(** [p] holds of the [n] integers from [k] on. *)
Fixpoint all_from (n : nat) (k : Z) (p : Z -> bool) : bool :=
  match n with
  | O => true
  | S n' => p k && all_from n' (k + 1) p
  end.

(** ** The calendar of the specification *)

(** The leap years in the specification's words: a year is leap iff it is
    divisible by 4 and (not divisible by 100 or divisible by 400). *)
Definition leap_year (y : Z) : bool :=
  (y mod 4 =? 0) && (negb (y mod 100 =? 0) || (y mod 400 =? 0)).

(** The days of month [m] (1 for January) of year [y] in that calendar. *)
Definition days_in_month (y m : Z) : Z :=
  match m with
  | 2 => if leap_year y then 29 else 28
  | 4 | 6 | 9 | 11 => 30
  | _ => 31
  end.

(** ** Valid entries and logs *)

(** An amount with one decimal: [k / 10] for a 16-bit [k]. *)
Definition tenths (k : Z) : float := (of_Z k / 10)%float.

(** The values the constructor of [Entry] leaves in the fields: an amount
    from 0 to 6553.5 with one decimal, an hour from 0 to 23 and a minute from
    0 to 59. *)
Definition valid_entry (e : Entry.t) : Prop :=
  (exists k, 0 <= k <= 65535 /\ Entry.amount e = tenths k)
  /\ (exists h, 0 <= h <= 23 /\ Entry.hour e = of_Z h)
  /\ (exists m, 0 <= m <= 59 /\ Entry.minute e = of_Z m).

(** The fluid of the entry is saved at a valid index: an index that fits the
    16-bit word of the record and is the fluid's position in [Fluid.saved]. *)
Definition saved_fluid (st : Fluid.registry) (e : Entry.t) : Prop :=
  exists f,
    Entry.fluid e = Some f
    /\ 0 <= Fluid.index (Fluid.heap st f) < 65536
    /\ Fluid.saved st !! Z.to_nat (Fluid.index (Fluid.heap st f)) = Some f.

(** What an entry adds to the total of a log in the unit [toOZ]: its amount
    in that unit, times the hydration factor of its fluid.  (An entry of a
    valid log has a fluid.) *)
Definition share (st : Fluid.registry) (toOZ : bool) (e : Entry.t) : float :=
  match Entry.fluid e with
  | Some f =>
      (Fluid.convertAmount (Entry.amount e) (Entry.isOZ e) toOZ
       * Fluid.hydration (Fluid.heap st f))%float
  | None => nan
  end.

(** The total of the entries, summed from 0 in their order. *)
Definition total_of (st : Fluid.registry) (toOZ : bool) (es : list Entry.t) : float :=
  fold_left (fun t e => (t + share st toOZ e)%float) es 0%float.

(** A log as the constructor, [register] and [decode] leave it: a goal from
    0 to 6553.5 with one decimal, valid entries whose fluids are saved, and
    the total of these entries. *)
Definition valid_log (st : Fluid.registry) (log : DailyLog.t) : Prop :=
  (exists g, 0 <= g <= 65535 /\ DailyLog.goal log = tenths g)
  /\ Forall (fun e => valid_entry e /\ saved_fluid st e) (DailyLog.entries log)
  /\ DailyLog.total log = total_of st (DailyLog.isOZ log) (DailyLog.entries log).

Definition set_total (t : float) (log : DailyLog.t) : DailyLog.t :=
  {| DailyLog.goal := DailyLog.goal log; DailyLog.total := t;
     DailyLog.isOZ := DailyLog.isOZ log; DailyLog.entries := DailyLog.entries log |}.

(** The words [Entry.encode] gives for an entry. *)
Definition record (st : Fluid.registry) (e : Entry.t) : jsstring :=
  match Entry.encode st e with
  | Ok (text, _) => text
  | Throw _ => []
  end.

(** A log after [DailyLog.add] of an entry that has a fluid. *)
Definition push (st : Fluid.registry) (log : DailyLog.t) (e : Entry.t) : DailyLog.t :=
  {| DailyLog.goal := DailyLog.goal log;
     DailyLog.total := (DailyLog.total log + share st (DailyLog.isOZ log) e)%float;
     DailyLog.isOZ := DailyLog.isOZ log;
     DailyLog.entries := DailyLog.entries log ++ [e] |}.

(** An entry of eight ounces of the first saved fluid at 9:30, and a log of
    three such entries with a goal of 64 ounces. *)
Definition morning_glass : Entry.t :=
  {| Entry.fluid := Some 0%nat; Entry.isOZ := true; Entry.amount := tenths 80;
     Entry.hour := of_Z 9; Entry.minute := of_Z 30 |}.

Definition three_glasses : DailyLog.t :=
  {| DailyLog.goal := tenths 640;
     DailyLog.total :=
       total_of later_run true [morning_glass; morning_glass; morning_glass];
     DailyLog.isOZ := true;
     DailyLog.entries := [morning_glass; morning_glass; morning_glass] |}.

(** ** Fluids of the constructor *)

(** A fluid as the constructor makes it from a whole percentage. *)
Definition constructed (f : Fluid.t) : Prop :=
  exists name color pct alwaysShown,
    0 <= pct <= 100 /\ f = Fluid.new name color (of_Z pct) alwaysShown.

(** The fluids with the indices [i], [i + 1], ... in their order. *)
Fixpoint numbered (i : Z) (fluids : list Fluid.t) : list Fluid.t :=
  match fluids with
  | [] => []
  | f :: fluids' => Fluid.set_index i f :: numbered (i + 1) fluids'
  end.

(** ** Registries *)

(** The records of the fluids at the locations [items]. *)
Definition records (st : Fluid.registry) (items : list Fluid.loc) : list jsstring :=
  map (fun l => Fluid.data (Fluid.heap st l)) items.

(** Two objects that differ in their index at most. *)
Definition alike (f g : Fluid.t) : Prop := Fluid.set_index (-1) f = Fluid.set_index (-1) g.

(** What a call leaves of a registry: the lists keep their elements and get
    [more_saved] and [more_shown] at their ends, and the objects keep all
    their fields but the index. *)
Definition grows (st st' : Fluid.registry) (more_saved more_shown : list Fluid.loc) : Prop :=
  Fluid.saved st' = Fluid.saved st ++ more_saved
  /\ Fluid.shown st' = Fluid.shown st ++ more_shown
  /\ forall x, alike (Fluid.heap st' x) (Fluid.heap st x).

(** The fluid at [x] has a twin among [items]: a fluid with the same record. *)
Definition has_twin (st : Fluid.registry) (items : list Fluid.loc) (x : Fluid.loc) : Prop :=
  exists t, In t items /\ Fluid.data (Fluid.heap st t) = Fluid.data (Fluid.heap st x).

(** Every saved fluid carries its position in [Fluid.saved] as its index,
    and the position fits the word of a record. *)
Definition well_numbered (st : Fluid.registry) : Prop :=
  forall (i : nat) f,
    Fluid.saved st !! i = Some f ->
    Fluid.index (Fluid.heap st f) = Z.of_nat i /\ Z.of_nat i < 65536.

(** The entry has a fluid that carries a saved index. *)
Definition indexed (st : Fluid.registry) (e : Entry.t) : Prop :=
  exists f, Entry.fluid e = Some f /\ Fluid.index (Fluid.heap st f) <> -1.

(** What the loop of [save] keeps true of the fluids [more] that it has
    pushed: each carries the index [n], and none has a twin among the
    fluids that were saved before the call. *)
Definition pushed (n : Z) (saved0 : list Fluid.loc) (st : Fluid.registry)
    (more : list Fluid.loc) : Prop :=
  Fluid.saved st = saved0 ++ more
  /\ forall x, In x more ->
       Fluid.index (Fluid.heap st x) = n
       /\ Fluid.find_twin (Fluid.heap st) saved0 (Fluid.data (Fluid.heap st x)) = None.

(** A string as JavaScript has it: every code unit is a 16-bit one. *)
Definition code_units (s : jsstring) : Prop := Forall (fun c => 0 <= c < 65536) s.

(** ** Decimal numerals *)

(** The number that a string of decimal digits writes. *)
Definition number_of (s : jsstring) : Z := fold_left (fun v c => 10 * v + (c - 48)) s 0.

Definition digit (c : Z) : Prop := 48 <= c <= 57.

(** ** The cells of a page *)

(** The days [i], [i + 1], ... that [n] rounds of the loop go through. *)
Fixpoint days_from (n : nat) (i : Z) : list Z :=
  match n with
  | O => []
  | S n' => i :: days_from n' (i + 1)
  end.

(** The rows of a body under construction: full rows in the body, and a
    current row that is not full. *)
Definition in_progress (acc : list Month.row * Month.row) : Prop :=
  Forall (fun r => length r = 7%nat) (fst acc) /\ (length (snd acc) < 7)%nat.

(** * Properties *)

(** ** Finite checks *)


Lemma all_from_spec (p : Z -> bool) (n : nat) :
  forall k, all_from n k p = true ->
  forall j, k <= j < k + Z.of_nat n -> p j = true.
Proof.
  induction n as [|n IH]; intros k Hall j Hj; [lia|].
  cbn [all_from] in Hall. apply andb_true_iff in Hall as [Hk Hrest].
  destruct (Z.eq_dec j k) as [->|Hne]; [exact Hk|].
  apply (IH (k + 1)); [exact Hrest | lia].
Qed.

Lemma float_eqb_eq (x y : float) : PrimFloat.Leibniz.eqb x y = true -> x = y.
Proof. apply FloatAxioms.Leibniz.eqb_spec. Qed.

(** A checked conjunction of boolean tests, as the equations it stands for. *)
Ltac checked H :=
  cbv beta zeta in H;
  repeat (let H' := fresh H in apply andb_true_iff in H as [H H']);
  repeat match goal with
         | E : (_ =? _) = true |- _ => apply Z.eqb_eq in E
         | E : PrimFloat.Leibniz.eqb _ _ = true |- _ => apply float_eqb_eq in E
         end.

(** ** Calendar *)

Lemma DaysInYear_leap (y : Z) :
  JSDate.DaysInYear y = if leap_year y then 366 else 365.
Proof.
  unfold JSDate.DaysInYear, leap_year.
  destruct (y mod 4 =? 0), (y mod 100 =? 0), (y mod 400 =? 0); reflexivity.
Qed.

Lemma DayFromYear_succ (y : Z) :
  JSDate.DayFromYear (y + 1) = JSDate.DayFromYear y + JSDate.DaysInYear y.
Proof.
  unfold JSDate.DayFromYear, JSDate.DaysInYear.
  destruct (Z.eqb_spec (y mod 4) 0); destruct (Z.eqb_spec (y mod 100) 0);
    destruct (Z.eqb_spec (y mod 400) 0); cbn [negb];
    Z.div_mod_to_equations; lia.
Qed.

Lemma DaysInYear_bounds (y : Z) : 365 <= JSDate.DaysInYear y <= 366.
Proof. rewrite DaysInYear_leap. destruct (leap_year y); lia. Qed.

Lemma DayFromYear_add (y : Z) (n : Z) :
  0 <= n ->
  JSDate.DayFromYear y + 365 * n <= JSDate.DayFromYear (y + n)
  <= JSDate.DayFromYear y + 366 * n.
Proof.
  intros Hn. pattern n. apply natlike_ind; [| |exact Hn]; cbv beta.
  - replace (y + 0) with y by lia. lia.
  - intros k Hk IH. replace (y + Z.succ k) with (y + k + 1) by lia.
    rewrite DayFromYear_succ. pose proof (DaysInYear_bounds (y + k)). lia.
Qed.

Lemma DayFromYear_1970 : JSDate.DayFromYear 1970 = 0.
Proof. reflexivity. Qed.

(** [year_down] from a year not below [y], with fuel for the distance, stops
    at the year [y] that contains the day. *)
Lemma year_down_spec (day y : Z) :
  JSDate.DayFromYear y <= day < JSDate.DayFromYear (y + 1) ->
  forall fuel start,
    y <= start -> start - y < Z.of_nat fuel ->
    JSDate.year_down fuel day start = y.
Proof.
  intros Hday. induction fuel as [|fuel IH]; intros start Hle Hfuel; [lia|].
  cbn [JSDate.year_down].
  destruct (Z.leb_spec (JSDate.DayFromYear start) day) as [Hin|Hout].
  - destruct (Z.eq_dec start y) as [|Hne]; [assumption|].
    pose proof (DayFromYear_add (y + 1) (start - (y + 1)) ltac:(lia)) as Hup.
    replace (y + 1 + (start - (y + 1))) with start in Hup by lia. lia.
  - apply IH; [|lia].
    destruct (Z.eq_dec start y) as [->|Hne]; lia.
Qed.

Lemma YearFromDay_spec (day y : Z) :
  JSDate.DayFromYear y <= day < JSDate.DayFromYear (y + 1) ->
  JSDate.YearFromDay day = y.
Proof.
  intros Hday. unfold JSDate.YearFromDay. apply year_down_spec; [exact Hday| |].
  - destruct (Z.le_gt_cases 1970 y) as [Hy|Hy]; [|lia].
    pose proof (DayFromYear_add 1970 (y - 1970) ltac:(lia)) as Hlow.
    replace (1970 + (y - 1970)) with y in Hlow by lia. rewrite DayFromYear_1970 in Hlow.
    assert (y - 1970 <= day / 365) by (apply Z.div_le_lower_bound; lia). lia.
  - destruct (Z.le_gt_cases 1970 y) as [Hy|Hy].
    + pose proof (DayFromYear_add 1970 (y - 1970) ltac:(lia)) as Hlow.
      replace (1970 + (y - 1970)) with y in Hlow by lia. rewrite DayFromYear_1970 in Hlow.
      assert (0 <= day / 365) by (apply Z.div_pos; lia).
      rewrite Z.abs_eq by lia. lia.
    + pose proof (DayFromYear_add (y + 1) (1970 - (y + 1)) ltac:(lia)) as Hup.
      replace (y + 1 + (1970 - (y + 1))) with 1970 in Hup by lia.
      rewrite DayFromYear_1970 in Hup.
      assert (day / 365 < 0) by (apply Z.div_lt_upper_bound; lia).
      assert (1969 - y <= Z.abs day / 365)
        by (apply Z.div_le_lower_bound; lia).
      lia.
Qed.


Lemma InLeapYear_leap (y : Z) : JSDate.InLeapYear y = if leap_year y then 1 else 0.
Proof.
  unfold JSDate.InLeapYear. rewrite DaysInYear_leap. destruct (leap_year y); reflexivity.
Qed.

(** The day of the month of the day [w] of year [y]. *)
Lemma DateFromDay_within (y w : Z) :
  0 <= w < JSDate.DaysInYear y ->
  JSDate.DateFromDay (JSDate.DayFromYear y + w)
  = w - JSDate.month_start (JSDate.InLeapYear y)
          (JSDate.month_of 11 (JSDate.InLeapYear y) w 0) + 1.
Proof.
  intros Hw.
  assert (Hyear : JSDate.YearFromDay (JSDate.DayFromYear y + w) = y).
  { apply YearFromDay_spec. rewrite DayFromYear_succ. lia. }
  unfold JSDate.DateFromDay, JSDate.MonthFromDay, JSDate.DayWithinYear.
  rewrite Hyear.
  replace (JSDate.DayFromYear y + w - JSDate.DayFromYear y) with w by lia.
  reflexivity.
Qed.

Lemma MakeDay_last (y m : Z) :
  1 <= m <= 12 ->
  JSDate.MakeDay y m 0
  = JSDate.DayFromYear y
    + (if m =? 12 then JSDate.DaysInYear y
       else JSDate.month_start (JSDate.InLeapYear y) m) - 1.
Proof.
  intros Hm. unfold JSDate.MakeDay.
  destruct (Z.eqb_spec m 12) as [->|Hne].
  - change (12 / 12) with 1. change (12 mod 12) with 0.
    rewrite DayFromYear_succ. cbn [JSDate.month_start]. lia.
  - rewrite Z.div_small, Z.mod_small by lia. replace (y + 0) with y by lia. lia.
Qed.

Lemma last_day_of_month (y m : Z) :
  1 <= m <= 12 ->
  JSDate.DateFromDay (JSDate.MakeDay y m 0) = days_in_month y m.
Proof.
  intros Hm. rewrite MakeDay_last by exact Hm.
  assert (Hcases : m = 1 \/ m = 2 \/ m = 3 \/ m = 4 \/ m = 5 \/ m = 6 \/ m = 7
                   \/ m = 8 \/ m = 9 \/ m = 10 \/ m = 11 \/ m = 12) by lia.
  pose proof (DaysInYear_leap y) as Hdays. pose proof (InLeapYear_leap y) as Hleap.
  unfold days_in_month.
  repeat (destruct Hcases as [->|Hcases]); try subst m;
    cbn [Z.eqb Pos.eqb JSDate.month_start];
    rewrite ?Hleap, ?Hdays;
    destruct (leap_year y);
    match goal with
    | |- JSDate.DateFromDay (?d + ?w - 1) = _ =>
        replace (d + w - 1) with (d + (w - 1)) by lia
    end;
    (rewrite DateFromDay_within; [rewrite ?Hleap; reflexivity | rewrite Hdays; lia]).
Qed.

(** [getNumberOfDays] is the length of the month in the calendar of the
    specification, for the years that [Date] takes as they are. *)
Lemma getNumberOfDays_spec (y m : Z) :
  100 <= y <= 275000 -> 1 <= m <= 12 ->
  Month.getNumberOfDays (Month.mk y m) = Some (days_in_month y m).
Proof.
  intros Hy Hm. unfold Month.getNumberOfDays, JSDate.new.
  cbn [Month.year Month.month].
  destruct (Z.leb_spec 0 y); [|lia]. destruct (Z.leb_spec y 99); [lia|]. cbn [andb].
  assert (Hrange : Z.abs (JSDate.MakeDay y m 0) <= 100000000).
  { rewrite MakeDay_last by exact Hm.
    assert (0 <= (if m =? 12 then JSDate.DaysInYear y
                  else JSDate.month_start (JSDate.InLeapYear y) m) <= 366).
    { pose proof (DaysInYear_bounds y). rewrite InLeapYear_leap.
      destruct (Z.eqb_spec m 12); [lia|].
      assert (Hcases : m = 1 \/ m = 2 \/ m = 3 \/ m = 4 \/ m = 5 \/ m = 6 \/ m = 7
                       \/ m = 8 \/ m = 9 \/ m = 10 \/ m = 11) by lia.
      repeat (destruct Hcases as [->|Hcases]); try subst m;
        cbn [JSDate.month_start]; destruct (leap_year y); lia. }
    destruct (Z.le_gt_cases 1970 y).
    - pose proof (DayFromYear_add 1970 (y - 1970) ltac:(lia)) as Hb.
      replace (1970 + (y - 1970)) with y in Hb by lia.
      rewrite DayFromYear_1970 in Hb. lia.
    - pose proof (DayFromYear_add y (1970 - y) ltac:(lia)) as Hb.
      replace (y + (1970 - y)) with 1970 in Hb by lia.
      rewrite DayFromYear_1970 in Hb. lia. }
  destruct (Z.leb_spec (Z.abs (JSDate.MakeDay y m 0)) 100000000); [|lia].
  cbn [JSDate.getDate]. rewrite last_day_of_month by exact Hm. reflexivity.
Qed.

(** *** The years that are Numbers *)

(** Up to 2^53 in magnitude every integer is a Number. *)
Lemma nearest_integer_safe (z : Z) :
  Z.abs z <= 2 ^ 53 -> JSNumber.nearest_integer z = z.
Proof.
  intros Hz. unfold JSNumber.nearest_integer.
  destruct (Z.eq_dec (Z.abs z) (2 ^ 53)) as [Habs|Hne].
  - destruct (Z.abs_eq_or_opp z) as [E|E]; rewrite Habs in E.
    + subst z. vm_compute. reflexivity.
    + replace z with (- 2 ^ 53) by lia. vm_compute. reflexivity.
  - destruct (Z.leb_spec (Z.log2 (Z.abs z) - 52) 0) as [_|Hbig]; [reflexivity|].
    destruct (Z.eq_dec (Z.abs z) 0) as [H0|H0]; [rewrite H0 in Hbig; cbn in Hbig; lia|].
    assert (Z.log2 (Z.abs z) < 53) by (apply Z.log2_lt_pow2; lia). lia.
Qed.

(** [nearest_integer] is the sum of Numbers: around 2^53, 2^54 and 2^62, on
    both sides of zero, the binary64 sum and difference of the Number of
    [z] and 1 are the integers it gives. *)
Lemma nearest_integer_sum :
  all_from 4 53 (fun p => all_from 2 0 (fun sign => all_from 256 (2 ^ p - 128) (fun z =>
    let x := if sign =? 0 then of_Z z else of_Z (- z) in
    (truncate (x + 1)%float =? nearest_integer (truncate x + 1))
    && (truncate (x - 1)%float =? nearest_integer (truncate x - 1))))) = true.
Proof. vm_compute. reflexivity. Qed.

(** [next] and [previous] in the calendar. *)
Lemma next_within (y m : Z) :
  Z.abs y <= 2 ^ 53 -> 1 <= m <= 11 -> Month.next (Month.mk y m) = Month.mk y (m + 1).
Proof.
  intros Hy Hm. unfold Month.next. cbn [Month.year Month.month].
  destruct (Z.ltb_spec 11 m); [lia|]. cbn [Z.b2z].
  rewrite !nearest_integer_safe by lia. f_equal. lia.
Qed.

Lemma next_wraps (y : Z) :
  - 2 ^ 53 <= y < 2 ^ 53 -> Month.next (Month.mk y 12) = Month.mk (y + 1) 1.
Proof.
  intros Hy. unfold Month.next. cbn [Month.year Month.month].
  cbn [Z.ltb Z.compare Pos.compare Pos.compare_cont Z.b2z].
  rewrite nearest_integer_safe by lia. reflexivity.
Qed.

Lemma previous_within (y m : Z) :
  Z.abs y <= 2 ^ 53 -> 2 <= m <= 12 ->
  Month.previous (Month.mk y m) = Month.mk y (m - 1).
Proof.
  intros Hy Hm. unfold Month.previous. cbn [Month.year Month.month].
  destruct (Z.ltb_spec m 2); [lia|]. cbn [Z.b2z].
  rewrite !nearest_integer_safe by lia. f_equal. lia.
Qed.

Lemma previous_wraps (y : Z) :
  - 2 ^ 53 < y <= 2 ^ 53 -> Month.previous (Month.mk y 1) = Month.mk (y - 1) 12.
Proof.
  intros Hy. unfold Month.previous. cbn [Month.year Month.month].
  cbn [Z.ltb Z.compare Pos.compare Pos.compare_cont Z.b2z].
  rewrite nearest_integer_safe by lia. reflexivity.
Qed.

Lemma next_calendar (y m : Z) :
  Z.abs y < 2 ^ 53 -> 1 <= m <= 12 ->
  Month.next (Month.mk y m)
  = if m =? 12 then Month.mk (y + 1) 1 else Month.mk y (m + 1).
Proof.
  intros Hy Hm. destruct (Z.eqb_spec m 12) as [->|Hne].
  - apply next_wraps. lia.
  - apply next_within; lia.
Qed.

Lemma previous_calendar (y m : Z) :
  Z.abs y < 2 ^ 53 -> 1 <= m <= 12 ->
  Month.previous (Month.mk y m)
  = if m =? 1 then Month.mk (y - 1) 12 else Month.mk y (m - 1).
Proof.
  intros Hy Hm. destruct (Z.eqb_spec m 1) as [->|Hne].
  - apply previous_wraps. lia.
  - apply previous_within; lia.
Qed.

(** C9: February 2024 has 29 days and February 2023 has 28, and in every
    year from 100 to 275000 every month has the days of the calendar with
    leap years (divisible by 4 and not by 100, or divisible by 400); the
    month after December 2023 is January 2024 and the month before January
    2024 is December 2023; in every year whose following year is a Number,
    those from -2^53 to 2^53 - 1, [next] takes month 12 to month 1 of the
    following year, and in every year whose preceding year is a Number,
    those from -2^53 + 1 to 2^53, [previous] takes month 1 to month 12 of
    the year before.  (From 2^53 on no Number is the following year of a
    year: the sum is rounded, and the month after December of the year 2^53
    is January of the same year.) *)
Theorem C9_month_days_and_wrap :
  Month.getNumberOfDays (Month.mk 2024 2) = Some 29
  /\ Month.getNumberOfDays (Month.mk 2023 2) = Some 28
  /\ (forall y m, 100 <= y <= 275000 -> 1 <= m <= 12 ->
        Month.getNumberOfDays (Month.mk y m) = Some (days_in_month y m))
  /\ Month.next (Month.mk 2023 12) = Month.mk 2024 1
  /\ Month.previous (Month.mk 2024 1) = Month.mk 2023 12
  /\ (forall y, - 2 ^ 53 <= y < 2 ^ 53 ->
        Month.next (Month.mk y 12) = Month.mk (y + 1) 1)
  /\ (forall y, - 2 ^ 53 < y <= 2 ^ 53 ->
        Month.previous (Month.mk y 1) = Month.mk (y - 1) 12)
  /\ Month.next (Month.mk (2 ^ 53) 12) = Month.mk (2 ^ 53) 1.
Proof.
  split; [vm_compute; reflexivity|]. split; [vm_compute; reflexivity|].
  split; [exact getNumberOfDays_spec|].
  split; [vm_compute; reflexivity|]. split; [vm_compute; reflexivity|].
  split; [exact next_wraps|]. split; [exact previous_wraps|].
  vm_compute. reflexivity.
Qed.

(** ** Amounts with one decimal *)

(** Every amount [a] with one decimal: ten times [a] is the integer that was
    divided by ten, rounding at one decimal or clamping does not change [a],
    and [Math.round(a)] is the nearest integer, a half going up. *)
Lemma amount_all :
  all_from (Z.to_nat 65536) 0 (fun k =>
    let a := (of_Z k / 10)%float in
    PrimFloat.Leibniz.eqb (or0 a * 10) (a * 10)
    && PrimFloat.Leibniz.eqb (Math_round (a * 10) / 10) a
    && PrimFloat.Leibniz.eqb (Math_max 0 (Math_min 6553.5 a)) a
    && (ToUint16 (a * 10) =? k)
    && PrimFloat.Leibniz.eqb (Math_round a) (of_Z ((k + 5) / 10))) = true.
Proof. vm_cast_no_check (eq_refl true). Qed.

Lemma amount_facts (k : Z) :
  0 <= k <= 65535 ->
  (or0 (tenths k) * 10 = tenths k * 10
   /\ Math_round (tenths k * 10) / 10 = tenths k
   /\ Math_max 0 (Math_min 6553.5 (tenths k)) = tenths k
   /\ ToUint16 (tenths k * 10) = k
   /\ Math_round (tenths k) = of_Z ((k + 5) / 10))%float.
Proof.
  intros Hk. unfold tenths.
  pose proof (all_from_spec _ _ _ amount_all k ltac:(lia)) as H.
  checked H. repeat split; assumption.
Qed.

Lemma amount_roundtrip (k : Z) :
  0 <= k <= 65535 ->
  (Math_max 0 (Math_min 6553.5 (Math_round (or0 (tenths k) * 10) / 10)) = tenths k
   /\ ToUint16 (tenths k * 10) = k)%float.
Proof.
  intros Hk. destruct (amount_facts k Hk) as (H1 & H2 & H3 & H4 & _).
  rewrite H1, H2, H3. auto.
Qed.

(** ** Amounts as text *)

Lemma includes_dot_app_r (a b : jsstring) :
  includes_dot b = true -> includes_dot (a ++ b) = true.
Proof.
  unfold includes_dot. intros H. rewrite existsb_app, H. apply orb_true_r.
Qed.

(** C8, as the claim states it, fails: eight ounces are written [8.0oz],
    with no space before the unit. *)
Lemma C8_counterexample :
  Fluid.representAmount 8 true true = lit "8.0oz"
  /\ Fluid.representAmount 8 true true <> lit "8.0 oz"
  /\ Fluid.representAmount 8 true false = lit "237mL"
  /\ Fluid.representAmount 8 true false <> lit "237 mL".
Proof. vm_compute. repeat split; discriminate. Qed.

(** C8, amended: for every amount and pair of unit flags the text is that
    of the converted amount, rounded at this point only: toward ounces the
    Number [Math.round(converted * 10) / 10] with [.0] appended when its text
    has no decimal point, so that the point is always there, directly
    followed by [oz]; toward millilitres the text of [Math.round(converted)]
    directly followed by [mL].  An amount with one decimal, from 0 to 6553.5,
    is shown as it is in its own unit of ounces, and as the nearest whole
    number, a half going up, in its own unit of millilitres.  Eight ounces
    give [8.0oz] and [237mL], 8.25 ounces [8.3oz], 250 millilitres [8.5oz]. *)
Theorem C8_representAmount (amount : float) (fromOZ : bool) :
  let converted := Fluid.convertAmount amount fromOZ in
  (exists number,
      Fluid.representAmount amount fromOZ true = number ++ lit "oz"
      /\ includes_dot number = true
      /\ let rounded := toString (Math_round (converted true * 10) / 10) in
         number = if includes_dot rounded then rounded else rounded ++ lit ".0")
  /\ Fluid.representAmount amount fromOZ false
     = toString (Math_round (converted false)) ++ lit "mL"
  /\ (forall k, 0 <= k <= 65535 ->
        Fluid.representAmount (tenths k) true true
        = (if includes_dot (toString (tenths k)) then toString (tenths k)
           else toString (tenths k) ++ lit ".0") ++ lit "oz")
  /\ (forall k, 0 <= k <= 65535 ->
        Fluid.representAmount (tenths k) false false
        = toString (of_Z ((k + 5) / 10)) ++ lit "mL")
  /\ Fluid.representAmount 8 true true = lit "8.0oz"
  /\ Fluid.representAmount 8 true false = lit "237mL"
  /\ Fluid.representAmount 8.25 true true = lit "8.3oz"
  /\ Fluid.representAmount 250 false true = lit "8.5oz"
  /\ Fluid.representAmount 250 false false = lit "250mL".
Proof.
  cbv zeta. split; [|split; [reflexivity|]].
  - unfold Fluid.representAmount.
    destruct (includes_dot (toString (Math_round (Fluid.convertAmount amount fromOZ true * 10) / 10)))
      eqn:Hdot; cbn [negb]; eexists; (split; [reflexivity|]); split; try reflexivity.
    + exact Hdot.
    + apply includes_dot_app_r. reflexivity.
  - split; [|split; [|vm_compute; repeat split; reflexivity]].
    + intros k Hk. destruct (amount_facts k Hk) as (_ & Hround & _).
      unfold Fluid.representAmount, Fluid.convertAmount. cbn [Bool.eqb].
      rewrite Hround. destruct (includes_dot (toString (tenths k))); reflexivity.
    + intros k Hk. destruct (amount_facts k Hk) as (_ & _ & _ & _ & Hround).
      unfold Fluid.representAmount, Fluid.convertAmount. cbn [Bool.eqb].
      rewrite Hround. reflexivity.
Qed.

(** ** The registry of fluids *)

(** [save] called on one instance, as [Entry.encode] calls it, throws. *)
Lemma save_instance_throws (st : Fluid.registry) (f : Fluid.loc) :
  Fluid.save (Fluid.Instance f) st = Throw TypeError.
Proof. reflexivity. Qed.

Lemma encode_unsaved_throws (st : Fluid.registry) (e : Entry.t) (f : Fluid.loc) :
  Entry.fluid e = Some f ->
  Fluid.index (Fluid.heap st f) = -1 ->
  Entry.encode st e = Throw TypeError.
Proof.
  intros Hf Hi. unfold Entry.encode. rewrite Hf, Hi. reflexivity.
Qed.

(** C2 (the code fails the claim): the user's fluid [tea] is selectable and
    not saved, its index is -1; encoding an entry of it neither saves the
    fluid nor returns a record: [Fluid.save(this.fluid)] hands [save] an
    instance where it iterates over an array, and the call throws. *)
Theorem C2_encode_unsaved_fluid_throws :
  let (st, l) := Fluid.alloc later_run tea in
  let e := Entry.new st (Some l) true 8 9 30 in
  Entry.fluid e = Some l
  /\ Fluid.index (Fluid.heap st l) = -1
  /\ Entry.encode st e = Throw TypeError
  /\ (forall st' (e' : Entry.t) (f : Fluid.loc),
        Entry.fluid e' = Some f -> Fluid.index (Fluid.heap st' f) = -1 ->
        Entry.encode st' e' = Throw TypeError).
Proof.
  cbn [Fluid.alloc]. cbv zeta.
  split; [reflexivity|]. split; [vm_compute; reflexivity|].
  split; [vm_compute; reflexivity|]. exact encode_unsaved_throws.
Qed.

(** C3 (the code fails the claim): [save] gives an appended fluid the index
    [fluids.length], the length of its argument, not the length of the
    registry.  On the first start the registry is empty and [show] saves the
    built-in water: it is appended at position 0 with index 1, and decoding
    what was stored gives it index 0. *)
Theorem C3_saved_index_is_not_position :
  (exists st,
      Fluid.initialise None = Ok st
      /\ Fluid.saved st = [0%nat]
      /\ Fluid.index (Fluid.heap st 0%nat) = 1
      /\ Fluid.decodeCollection (Fluid.stored st)
         = Ok [Fluid.set_index 0 Fluid.water])
  /\ (let (st0, w) := Fluid.alloc empty_registry Fluid.water in
      exists st,
        Fluid.save (Fluid.Array [w]) st0 = Ok st
        /\ Fluid.saved st = [w]
        /\ Fluid.saved st !! 0%nat = Some w
        /\ Fluid.index (Fluid.heap st w) = 1).
Proof.
  split.
  - eexists. split; [vm_compute; reflexivity|].
    repeat split; vm_compute; reflexivity.
  - cbn [Fluid.alloc empty_registry Fluid.next]. eexists.
    split; [reflexivity|]. repeat split; vm_compute; reflexivity.
Qed.

(** Writing an index changes no encoded record, and so no search for a twin. *)
Lemma heap_write_index (st : Fluid.registry) (l : Fluid.loc) (i : Z) (x : Fluid.loc) :
  Fluid.heap (Fluid.write_index st l i) x
  = if (x =? l)%nat then Fluid.set_index i (Fluid.heap st l) else Fluid.heap st x.
Proof. reflexivity. Qed.

Lemma data_write_index (st : Fluid.registry) (l : Fluid.loc) (i : Z) (x : Fluid.loc) :
  Fluid.data (Fluid.heap (Fluid.write_index st l i) x) = Fluid.data (Fluid.heap st x).
Proof.
  rewrite heap_write_index. destruct (Nat.eqb_spec x l) as [->|]; reflexivity.
Qed.

Lemma index_write_index (st : Fluid.registry) (l : Fluid.loc) (i : Z) (x : Fluid.loc) :
  Fluid.index (Fluid.heap (Fluid.write_index st l i) x)
  = if (x =? l)%nat then i else Fluid.index (Fluid.heap st x).
Proof.
  rewrite heap_write_index. destruct (Nat.eqb_spec x l); reflexivity.
Qed.

Lemma find_twin_ext (h h' : Fluid.loc -> Fluid.t) (items : list Fluid.loc) (d : jsstring) :
  (forall x, Fluid.data (h x) = Fluid.data (h' x)) ->
  Fluid.find_twin h items d = Fluid.find_twin h' items d.
Proof.
  intros Hd. unfold Fluid.find_twin.
  induction items as [|a items IH]; [reflexivity|].
  cbn [find]. rewrite Hd, IH. reflexivity.
Qed.

Lemma find_twin_app (h : Fluid.loc -> Fluid.t) (items : list Fluid.loc)
    (f : Fluid.loc) (d : jsstring) :
  Fluid.find_twin h (items ++ [f]) d
  = match Fluid.find_twin h items d with
    | Some t => Some t
    | None => if JSString.eqb (Fluid.data (h f)) d then Some f else None
    end.
Proof.
  unfold Fluid.find_twin.
  induction items as [|a items IH]; [reflexivity|].
  cbn [app find]. destruct (JSString.eqb (Fluid.data (h a)) d); [reflexivity | exact IH].
Qed.

Lemma eqb_refl (d : jsstring) : JSString.eqb d d = true.
Proof. unfold JSString.eqb. apply bool_decide_eq_true. reflexivity. Qed.

Lemma eqb_eq (a b : jsstring) : JSString.eqb a b = true -> a = b.
Proof. unfold JSString.eqb. apply bool_decide_eq_true. Qed.

(** C7: in every registry, saving a fluid [f] and then a fluid [g] with the
    same encoded record ([g] may be [f] itself, saved a second time, or
    another instance) succeeds both times; the second save leaves the
    registry as long as it was and gives [g] the index the first save gave
    [f], which [f] keeps. *)
Theorem C7_save_twice (st : Fluid.registry) (f g : Fluid.loc) :
  Fluid.data (Fluid.heap st g) = Fluid.data (Fluid.heap st f) ->
  exists st1 st2,
    Fluid.save (Fluid.Array [f]) st = Ok st1
    /\ Fluid.save (Fluid.Array [g]) st1 = Ok st2
    /\ Fluid.saved st2 = Fluid.saved st1
    /\ Fluid.index (Fluid.heap st2 g) = Fluid.index (Fluid.heap st1 f)
    /\ Fluid.index (Fluid.heap st2 f) = Fluid.index (Fluid.heap st1 f).
Proof.
  intros Hdata.
  set (st1 := Fluid.write_back (Fluid.save_one 1 st f)).
  exists st1, (Fluid.write_back (Fluid.save_one 1 st1 g)).
  split; [reflexivity|]. split; [reflexivity|].
  assert (Hd1 : forall x, Fluid.data (Fluid.heap st1 x) = Fluid.data (Fluid.heap st x)).
  { intros x. subst st1. unfold Fluid.write_back, Fluid.save_one. cbn [Fluid.setItem Fluid.heap].
    destruct (Fluid.find_twin _ _ _); [apply data_write_index|].
    cbn [Fluid.push_saved Fluid.heap]. apply data_write_index. }
  assert (Htwin : exists t,
             Fluid.find_twin (Fluid.heap st1) (Fluid.saved st1) (Fluid.data (Fluid.heap st1 g))
             = Some t
             /\ Fluid.index (Fluid.heap st1 t) = Fluid.index (Fluid.heap st1 f)).
  { rewrite Hd1, Hdata. rewrite (find_twin_ext _ _ _ _ Hd1).
    subst st1. unfold Fluid.write_back, Fluid.save_one. cbn [Fluid.setItem Fluid.heap Fluid.saved].
    destruct (Fluid.find_twin (Fluid.heap st) (Fluid.saved st) (Fluid.data (Fluid.heap st f)))
      as [t|] eqn:E.
    - exists t. split; [exact E|].
      rewrite !index_write_index, Nat.eqb_refl.
      destruct (t =? f)%nat; reflexivity.
    - exists f. cbn [Fluid.push_saved Fluid.saved Fluid.heap Fluid.write_index].
      rewrite find_twin_app, E, eqb_refl. split; reflexivity. }
  clearbody st1. destruct Htwin as (t & Ht & Hidx).
  unfold Fluid.write_back, Fluid.save_one. rewrite Ht.
  cbn [Fluid.setItem Fluid.saved Fluid.heap].
  rewrite !index_write_index, Nat.eqb_refl.
  split; [reflexivity|]. split; [exact Hidx|].
  destruct (f =? g)%nat; [exact Hidx | reflexivity].
Qed.

(** C7 at the two instances of water of a later start: the decoded one and
    the new one that [show] compares with it. *)
Lemma C7_save_twice_witness :
  exists st1 st2,
    Fluid.save (Fluid.Array [0%nat]) later_run = Ok st1
    /\ Fluid.save (Fluid.Array [1%nat]) st1 = Ok st2
    /\ Fluid.saved st2 = Fluid.saved st1
    /\ Fluid.index (Fluid.heap st2 1%nat) = Fluid.index (Fluid.heap st1 0%nat)
    /\ Fluid.index (Fluid.heap st2 0%nat) = Fluid.index (Fluid.heap st1 0%nat).
Proof. apply (C7_save_twice later_run 0%nat 1%nat). vm_compute. reflexivity. Defined.

(** ** The registry after the class is evaluated *)

Lemma length_data_new (name color : jsstring) (h : float) (a : bool) :
  length (Fluid.data (Fluid.new name color h a))
  = (2 + length (Fluid.name (Fluid.new name color h a)))%nat.
Proof. reflexivity. Qed.

(** The loop of [decodeCollection] ends: every record is at least 2 long. *)
Lemma decode_from_total (data : jsstring) (fuel : nat) :
  forall pos index, (length data - pos <= fuel)%nat ->
  exists items, Fluid.decode_from fuel data pos index = Ok items.
Proof.
  induction fuel as [|fuel IH]; intros pos index Hfuel.
  - exists []. cbn [Fluid.decode_from].
    destruct (Nat.ltb_spec pos (length data)); [lia | reflexivity].
  - cbn [Fluid.decode_from].
    destruct (Nat.ltb_spec pos (length data)) as [Hlt|]; [|exists []; reflexivity].
    unfold Fluid.decode at 1. rewrite length_data_new.
    match goal with
    | |- context [Fluid.decode_from fuel data ?p ?i] =>
        destruct (IH p i) as [rest ->]; [lia|]
    end.
    eexists. reflexivity.
Qed.

Lemma decodeCollection_total (item : option jsstring) :
  exists items, Fluid.decodeCollection item = Ok items.
Proof.
  destruct item as [data|]; [|exists []; reflexivity].
  apply decode_from_total. lia.
Qed.

Lemma shown_save_one (n : Z) (st : Fluid.registry) (f : Fluid.loc) :
  Fluid.shown (Fluid.save_one n st f) = Fluid.shown st.
Proof. unfold Fluid.save_one. destruct (Fluid.find_twin _ _ _); reflexivity. Qed.

Lemma shown_save_loop (n : Z) (fluids : list Fluid.loc) :
  forall st, Fluid.shown (fold_left (Fluid.save_one n) fluids st) = Fluid.shown st.
Proof.
  induction fluids as [|f fluids IH]; intros st; [reflexivity|].
  cbn [fold_left]. rewrite IH. apply shown_save_one.
Qed.

Lemma find_twin_nonempty (h : Fluid.loc -> Fluid.t) (items : list Fluid.loc)
    (d : jsstring) (t : Fluid.loc) :
  Fluid.find_twin h items d = Some t -> items <> [].
Proof. destruct items; [discriminate | discriminate]. Qed.

(** Whatever the local storage holds, evaluating the class succeeds and
    leaves at least one selectable fluid. *)
Lemma initialise_shown (item : option jsstring) :
  exists st, Fluid.initialise item = Ok st /\ Fluid.shown st <> [].
Proof.
  unfold Fluid.initialise.
  destruct (decodeCollection_total item) as [items ->]. cbn [bind Fluid.alloc].
  unfold Fluid.show. cbn [fold_left Fluid.show_one].
  match goal with
  | |- context [Fluid.find_twin ?h ?l ?d] => destruct (Fluid.find_twin h l d) eqn:E
  end.
  - eexists. split; [reflexivity|].
    cbn [Fluid.write_back Fluid.setItem Fluid.shown fold_left Fluid.write_index].
    eapply find_twin_nonempty. exact E.
  - eexists. split; [reflexivity|].
    unfold Fluid.write_back. cbn [Fluid.setItem Fluid.shown].
    rewrite shown_save_loop. cbn [Fluid.push_shown Fluid.shown].
    intros Habs. apply app_eq_nil in Habs as [_ Habs]. discriminate.
Qed.

(** ** Entries and logs *)

(** A new entry has a fluid when it is given one or one is selectable. *)
Lemma new_has_fluid (st : Fluid.registry) (fluid : option Fluid.loc) (isOZ : bool)
    (amount hour minute : float) :
  (fluid = None -> Fluid.shown st <> []) ->
  exists f, Entry.fluid (Entry.new st fluid isOZ amount hour minute) = Some f.
Proof.
  intros H. destruct fluid as [f|]; [exists f; reflexivity|].
  cbn [Entry.new Entry.fluid].
  destruct (Fluid.shown st) as [|f shown]; [destruct (H eq_refl eq_refl)|].
  exists f. reflexivity.
Qed.

(** C10: [register] on the log at [this], with a fluid given or one
    selectable, returns [this]; the log has one more entry, the new one, at
    the end and the earlier ones before it as they were; its total grew by
    the entry's amount converted to the log's unit and weighted by the
    fluid's hydration; goal and unit flag are unchanged, and so is every
    other log. *)
Theorem C10_register_appends (st : Fluid.registry) (hours minutes : Z)
    (logs : DailyLog.store) (this : nat) (fluid : option Fluid.loc)
    (isOZ : bool) (amount : float) :
  (fluid = None -> Fluid.shown st <> []) ->
  let entry := Entry.new st fluid isOZ amount (of_Z hours) (of_Z minutes) in
  exists f logs',
    Entry.fluid entry = Some f
    /\ DailyLog.register st hours minutes logs this fluid isOZ amount = Ok (logs', this)
    /\ DailyLog.entries (logs' this) = DailyLog.entries (logs this) ++ [entry]
    /\ DailyLog.total (logs' this)
       = (DailyLog.total (logs this)
          + Fluid.convertAmount (Entry.amount entry) (Entry.isOZ entry)
              (DailyLog.isOZ (logs this))
            * Fluid.hydration (Fluid.heap st f))%float
    /\ DailyLog.goal (logs' this) = DailyLog.goal (logs this)
    /\ DailyLog.isOZ (logs' this) = DailyLog.isOZ (logs this)
    /\ (forall l, l <> this -> logs' l = logs l).
Proof.
  intros Hfluid entry.
  destruct (new_has_fluid st fluid isOZ amount (of_Z hours) (of_Z minutes) Hfluid)
    as [f Hf].
  fold entry in Hf. exists f. eexists. split; [exact Hf|].
  unfold DailyLog.register. fold entry. unfold DailyLog.add. rewrite Hf.
  cbn [bind]. split; [reflexivity|].
  unfold DailyLog.update. rewrite Nat.eqb_refl.
  cbn [DailyLog.entries DailyLog.total DailyLog.goal DailyLog.isOZ].
  repeat split.
  intros l Hl. destruct (Nat.eqb_spec l this); [contradiction | reflexivity].
Qed.

(** C10 on a later start: eight ounces of water at 9:30, no fluid chosen,
    registered on a fresh log with a goal of 64 ounces. *)
Lemma C10_register_appends_witness :
  let logs : DailyLog.store := fun _ => DailyLog.new true 64 in
  let entry := Entry.new later_run None true 8 (of_Z 9) (of_Z 30) in
  exists f logs',
    Entry.fluid entry = Some f
    /\ DailyLog.register later_run 9 30 logs 0%nat None true 8 = Ok (logs', 0%nat)
    /\ DailyLog.entries (logs' 0%nat) = DailyLog.entries (logs 0%nat) ++ [entry]
    /\ DailyLog.total (logs' 0%nat)
       = (DailyLog.total (logs 0%nat)
          + Fluid.convertAmount (Entry.amount entry) (Entry.isOZ entry)
              (DailyLog.isOZ (logs 0%nat))
            * Fluid.hydration (Fluid.heap later_run f))%float
    /\ DailyLog.goal (logs' 0%nat) = DailyLog.goal (logs 0%nat)
    /\ DailyLog.isOZ (logs' 0%nat) = DailyLog.isOZ (logs 0%nat)
    /\ (forall l, l <> 0%nat -> logs' l = logs l).
Proof.
  intros logs.
  apply (C10_register_appends later_run 9 30 logs 0%nat None true 8).
  intros _. vm_compute. discriminate.
Defined.

(** *** Decoding a log never fails *)

Lemma decode_has_fluid (st : Fluid.registry) (data : jsstring) :
  Fluid.shown st <> [] -> exists f, Entry.fluid (Entry.decode st data) = Some f.
Proof. intros H. unfold Entry.decode. apply new_has_fluid. intros _. exact H. Qed.

(** The loop of [DailyLog.decode] from [i] on makes one round, and one entry,
    for every started group of three code units. *)
Lemma decode_from_count (st : Fluid.registry) (data : jsstring) :
  Fluid.shown st <> [] ->
  forall fuel i log,
    ((length data - i + 2) / 3 <= fuel)%nat ->
    exists log',
      DailyLog.decode_from fuel st data i log = Ok log'
      /\ length (DailyLog.entries log')
         = (length (DailyLog.entries log) + (length data - i + 2) / 3)%nat.
Proof.
  intros Hshown. induction fuel as [|fuel IH]; intros i log Hfuel.
  - exists log. cbn [DailyLog.decode_from].
    destruct (Nat.ltb_spec i (length data)) as [Hlt|Hge].
    + assert (1 <= (length data - i + 2) / 3)%nat
        by (apply Nat.div_le_lower_bound; lia).
      lia.
    + split; [reflexivity|].
      replace (length data - i + 2)%nat with 2%nat by lia. cbn. lia.
  - cbn [DailyLog.decode_from].
    destruct (Nat.ltb_spec i (length data)) as [Hlt|Hge].
    + destruct (decode_has_fluid st (substring data i (i + 3)) Hshown) as [f Hf].
      unfold DailyLog.add at 1. rewrite Hf. cbn [bind].
      assert (Hstep : ((length data - i + 2) / 3
                       = S ((length data - (i + 3) + 2) / 3))%nat).
      { destruct (Nat.le_gt_cases (i + 3) (length data)).
        - replace (length data - i + 2)%nat
            with (1 * 3 + (length data - (i + 3) + 2))%nat by lia.
          rewrite Nat.div_add_l by lia. lia.
        - replace (length data - (i + 3) + 2)%nat with 2%nat by lia.
          assert (Hcases : (length data - i + 2 = 3 \/ length data - i + 2 = 4)%nat) by lia.
          destruct Hcases as [-> | ->]; reflexivity. }
      match goal with
      | |- context [DailyLog.decode_from fuel st data (i + 3) ?l] =>
          destruct (IH (i + 3)%nat l) as (log' & Hdec & Hlen); [lia|]
      end.
      exists log'. split; [exact Hdec|].
      rewrite Hlen. cbn [DailyLog.entries]. rewrite length_app. cbn [length]. lia.
    + exists log. split; [reflexivity|].
      replace (length data - i + 2)%nat with 2%nat by lia. cbn. lia.
Qed.

(** The loop of [DailyLog.decode] from [i] on builds one entry from every
    started group of three code units, the last one from the code units
    that are left, and pushes them in their order. *)
Lemma decode_from_groups (st : Fluid.registry) (data : jsstring) :
  Fluid.shown st <> [] ->
  forall fuel i log,
    ((length data - i + 2) / 3 <= fuel)%nat ->
    exists log',
      DailyLog.decode_from fuel st data i log = Ok log'
      /\ DailyLog.entries log'
         = DailyLog.entries log
           ++ map (fun k => Entry.decode st (substring data (i + 3 * k) (i + 3 * k + 3)))
                (seq 0 ((length data - i + 2) / 3)).
Proof.
  intros Hshown. induction fuel as [|fuel IH]; intros i log Hfuel.
  - exists log. cbn [DailyLog.decode_from].
    destruct (Nat.ltb_spec i (length data)) as [Hlt|Hge].
    + assert (1 <= (length data - i + 2) / 3)%nat
        by (apply Nat.div_le_lower_bound; lia).
      lia.
    + split; [reflexivity|].
      replace (length data - i + 2)%nat with 2%nat by lia.
      cbn [Nat.div Nat.divmod fst seq map]. rewrite app_nil_r. reflexivity.
  - cbn [DailyLog.decode_from].
    destruct (Nat.ltb_spec i (length data)) as [Hlt|Hge].
    + destruct (decode_has_fluid st (substring data i (i + 3)) Hshown) as [f Hf].
      unfold DailyLog.add at 1. rewrite Hf. cbn [bind].
      assert (Hstep : ((length data - i + 2) / 3
                       = S ((length data - (i + 3) + 2) / 3))%nat).
      { destruct (Nat.le_gt_cases (i + 3) (length data)).
        - replace (length data - i + 2)%nat
            with (1 * 3 + (length data - (i + 3) + 2))%nat by lia.
          rewrite Nat.div_add_l by lia. lia.
        - replace (length data - (i + 3) + 2)%nat with 2%nat by lia.
          assert (Hcases : (length data - i + 2 = 3 \/ length data - i + 2 = 4)%nat) by lia.
          destruct Hcases as [-> | ->]; reflexivity. }
      match goal with
      | |- context [DailyLog.decode_from fuel st data (i + 3) ?l] =>
          destruct (IH (i + 3)%nat l) as (log' & Hdec & Hentries); [lia|]
      end.
      exists log'. split; [exact Hdec|].
      rewrite Hentries, Hstep. cbn [DailyLog.entries seq map].
      rewrite <- app_assoc. cbn [app]. f_equal.
      replace (i + 3 * 0)%nat with i by lia. f_equal.
      rewrite <- seq_shift, map_map. apply map_ext. intros k.
      replace (i + 3 + 3 * k)%nat with (i + 3 * S k)%nat by lia. reflexivity.
    + exists log. split; [reflexivity|].
      replace (length data - i + 2)%nat with 2%nat by lia.
      cbn [Nat.div Nat.divmod fst seq map]. rewrite app_nil_r. reflexivity.
Qed.

(** C1, as the claim states it, fails: a buffer of length 2 + 3*2 + 1 is
    decoded, into a log with three entries.  The first two are those of
    the two whole records (8.0 at 8:31 and 8.5 ounces at 9:24); the third is
    built from the one code unit that is left, 77: 1:13 is the time in its
    bits, the amount is 0 and the fluid is the first saved one, as for every
    word that is missing. *)
Lemma C1_counterexample :
  length ragged_buffer = (2 + 3 * 2 + 1)%nat
  /\ (length ragged_buffer mod 3 <> 2)%nat
  /\ exists log,
       DailyLog.decode later_run ragged_buffer = Ok log
       /\ length (DailyLog.entries log) = 3%nat
       /\ DailyLog.entries log
          = [ {| Entry.fluid := Some 0%nat; Entry.isOZ := false;
                 Entry.amount := tenths 80; Entry.hour := of_Z 8;
                 Entry.minute := of_Z 31 |};
              {| Entry.fluid := Some 0%nat; Entry.isOZ := true;
                 Entry.amount := tenths 85; Entry.hour := of_Z 9;
                 Entry.minute := of_Z 24 |};
              {| Entry.fluid := Some 0%nat; Entry.isOZ := false;
                 Entry.amount := 0%float; Entry.hour := of_Z 1;
                 Entry.minute := of_Z 13 |} ]
       /\ last (DailyLog.entries log) = Some (Entry.decode later_run [77]).
Proof.
  split; [reflexivity|]. split; [cbn; lia|].
  eexists. split; [vm_compute; reflexivity|].
  split; [reflexivity|]. split; [reflexivity|]. vm_compute. reflexivity.
Qed.

(** C1, amended: [DailyLog.decode] checks no length and reports no failure.
    Whenever a fluid is selectable, as it is from the start of the program
    on, every buffer is decoded, to a log with one entry for each started
    group of three code units after the header, [length / 3], rounded down,
    in all: entry [k] is what [Entry.decode] makes of the code units from
    [2 + 3 * k] up to [2 + 3 * k + 3], or up to the end of the buffer when it
    ends before; the last entry of a buffer with one or two code units left
    over is built from these. *)
Theorem C1_decode_accepts_any_length (st : Fluid.registry) (data : jsstring) :
  Fluid.shown st <> [] ->
  exists log,
    DailyLog.decode st data = Ok log
    /\ length (DailyLog.entries log) = (length data / 3)%nat
    /\ DailyLog.entries log
       = map (fun k => Entry.decode st (substring data (2 + 3 * k) (2 + 3 * k + 3)))
           (seq 0 (length data / 3)).
Proof.
  intros Hshown. unfold DailyLog.decode.
  assert (Hcount : ((length data - 2 + 2) / 3 = length data / 3)%nat).
  { destruct (Nat.le_gt_cases 2 (length data)).
    - replace (length data - 2 + 2)%nat with (length data) by lia. reflexivity.
    - assert (Hcases : (length data = 0 \/ length data = 1)%nat) by lia.
      destruct Hcases as [-> | ->]; reflexivity. }
  match goal with
  | |- context [DailyLog.decode_from _ st data 2 ?l] =>
      destruct (decode_from_groups st data Hshown (length data) 2 l)
        as (log & Hdec & Hentries)
  end.
  - rewrite Hcount. apply Nat.Div0.div_le_upper_bound. lia.
  - exists log. split; [exact Hdec|].
    rewrite Hcount in Hentries. cbn [DailyLog.new DailyLog.entries app] in Hentries.
    split; [|exact Hentries].
    rewrite Hentries, length_map, length_seq. reflexivity.
Qed.

(** C1 amended, on the buffer of the counterexample. *)
Lemma C1_decode_accepts_any_length_witness :
  exists log,
    DailyLog.decode later_run ragged_buffer = Ok log
    /\ length (DailyLog.entries log) = (length ragged_buffer / 3)%nat
    /\ DailyLog.entries log
       = map (fun k => Entry.decode later_run
                         (substring ragged_buffer (2 + 3 * k) (2 + 3 * k + 3)))
           (seq 0 (length ragged_buffer / 3)).
Proof.
  apply (C1_decode_accepts_any_length later_run). vm_compute. discriminate.
Defined.

(** ** The record of a fluid *)

Lemma all_from3_spec (p : Z -> Z -> Z -> bool) (n1 n2 n3 : nat) (k1 k2 k3 : Z) :
  all_from n1 k1 (fun a => all_from n2 k2 (fun b => all_from n3 k3 (p a b))) = true ->
  forall a b c,
    k1 <= a < k1 + Z.of_nat n1 -> k2 <= b < k2 + Z.of_nat n2 ->
    k3 <= c < k3 + Z.of_nat n3 -> p a b c = true.
Proof.
  intros H a b c Ha Hb Hc.
  pose proof (all_from_spec _ _ _ H a Ha) as H1. cbv beta in H1.
  pose proof (all_from_spec _ _ _ H1 b Hb) as H2. cbv beta in H2.
  exact (all_from_spec _ _ _ H2 c Hc).
Qed.

(** The first word: the flag, a percentage and a length come back. *)
Lemma word0_all :
  all_from 2 0 (fun b => all_from 101 0 (fun p => all_from 32 0 (fun n =>
    let w := int32 (uint16 (bitor (bitor (shl b 15) (shl p 8)) (int32 n))) in
    (sar w 15 =? b) && (bitand (sar w 8) 127 =? p) && (bitand w 31 =? n)))) = true.
Proof. vm_compute. reflexivity. Qed.

Lemma word0_roundtrip (b p n : Z) :
  0 <= b <= 1 -> 0 <= p <= 100 -> 0 <= n <= 31 ->
  let w := int32 (uint16 (bitor (bitor (shl b 15) (shl p 8)) (int32 n))) in
  sar w 15 = b /\ bitand (sar w 8) 127 = p /\ bitand w 31 = n.
Proof.
  intros Hb Hp Hn.
  pose proof (all_from3_spec _ _ _ _ _ _ _ word0_all b p n
                ltac:(lia) ltac:(lia) ltac:(lia)) as H.
  checked H. cbv zeta. auto.
Qed.

(** The percentage, through the constructor and through [decode]. *)
Lemma percent_all :
  all_from 101 0 (fun p =>
    PrimFloat.Leibniz.eqb (Math_max 0 (Math_min 100 (Math_round (or0 (of_Z p))))) (of_Z p)
    && (ToInt32 (of_Z p) =? p)
    && PrimFloat.Leibniz.eqb (Math_min 100 (of_Z p)) (of_Z p)) = true.
Proof. vm_compute. reflexivity. Qed.

Lemma percent_roundtrip (p : Z) :
  0 <= p <= 100 ->
  Math_max 0 (Math_min 100 (Math_round (or0 (of_Z p)))) = of_Z p
  /\ ToInt32 (of_Z p) = p
  /\ Math_min 100 (of_Z p) = of_Z p.
Proof.
  intros Hp.
  pose proof (all_from_spec _ _ _ percent_all p ltac:(lia)) as H.
  checked H. auto.
Qed.

(** The colour: three lower-case digits are parsed and written back. *)
Lemma color_all :
  all_from 16 0 (fun a => all_from 16 0 (fun b => all_from 16 0 (fun c =>
    JSString.eqb
      (lit "#" ++ padStart0 3 (hex (bitand
         (unit_int32 (Some (uint16 (default 0 (parseInt16
            (substring [35; digit_char a; digit_char b; digit_char c] 1 4))))))
         0x0FFF)))
      [35; digit_char a; digit_char b; digit_char c]
    && JSString.eqb (toLowerCase [35; digit_char a; digit_char b; digit_char c])
         [35; digit_char a; digit_char b; digit_char c]))) = true.
Proof. vm_compute. reflexivity. Qed.

Lemma lower_hex_digit (c : Z) :
  Fluid.lower_hex c = true -> exists d, 0 <= d <= 15 /\ c = digit_char d.
Proof.
  unfold Fluid.lower_hex, digit_char. intros H.
  apply orb_true_iff in H as [H|H]; apply andb_true_iff in H as [H1 H2];
    apply Z.leb_le in H1, H2.
  - exists (c - 48). split; [lia|].
    destruct (Z.ltb_spec (c - 48) 10); lia.
  - exists (c - 87). split; [lia|].
    destruct (Z.ltb_spec (c - 87) 10); lia.
Qed.

Lemma color_roundtrip (color : jsstring) :
  Fluid.is_color color = true ->
  lit "#" ++ padStart0 3 (hex (bitand
    (unit_int32 (Some (uint16 (default 0 (parseInt16 (substring color 1 4))))))
    0x0FFF)) = color
  /\ toLowerCase color = color.
Proof.
  intros H. unfold Fluid.is_color in H.
  destruct color as [|h [|a [|b [|c [|]]]]]; try discriminate.
  apply andb_true_iff in H as [H Hc]. apply andb_true_iff in H as [H Hb].
  apply andb_true_iff in H as [Hh Ha]. apply Z.eqb_eq in Hh. subst h.
  apply lower_hex_digit in Ha as (da & Hda & ->).
  apply lower_hex_digit in Hb as (db & Hdb & ->).
  apply lower_hex_digit in Hc as (dc & Hdc & ->).
  pose proof (all_from3_spec _ _ _ _ _ _ _ color_all da db dc
                ltac:(lia) ltac:(lia) ltac:(lia)) as H.
  cbv beta in H. apply andb_true_iff in H as [E1 E2].
  apply eqb_eq in E1, E2. split; assumption.
Qed.

(** The colour the constructor keeps matches the pattern. *)
Lemma is_color_normal (color : jsstring) :
  Fluid.is_color
    (if negb (Fluid.is_color (toLowerCase color)) then lit "#999"
     else toLowerCase color) = true.
Proof.
  destruct (Fluid.is_color (toLowerCase color)) eqn:E; [exact E | reflexivity].
Qed.

Lemma decode_record (w0 w1 : Z) (rest : jsstring) :
  Fluid.decode (w0 :: w1 :: rest)
  = Fluid.new (take (Z.to_nat (bitand (int32 w0) 31)) rest)
      (lit "#" ++ padStart0 3 (hex (bitand (unit_int32 (Some w1)) 0x0FFF)))
      (Math_min 100 (of_Z (bitand (sar (int32 w0) 8) 127)))
      (negb (sar (int32 w0) 15 =? 0)).
Proof.
  unfold Fluid.decode, charCodeAt, substring, unit_int32.
  cbn [lookup list_lookup default from_option id drop].
  replace (2 + Z.to_nat (bitand (int32 w0) 31) - 2)%nat
    with (Z.to_nat (bitand (int32 w0) 31)) by lia.
  reflexivity.
Qed.

Lemma data_new (name color : jsstring) (h : float) (a : bool) :
  Fluid.data (Fluid.new name color h a)
  = uint16 (bitor (bitor (shl (Z.b2z a) 15)
                         (shl (ToInt32 (Math_max 0 (Math_min 100 (Math_round (or0 h))))) 8))
                  (int32 (Z.of_nat (length (substring name 0 31)))))
    :: uint16 (default 0 (parseInt16 (substring
         (if negb (Fluid.is_color (toLowerCase color)) then lit "#999"
          else toLowerCase color) 1 4)))
    :: substring name 0 31.
Proof. reflexivity. Qed.

(** The constructor looks at its arguments through the cut name, the
    normal colour and the clamped percentage only. *)
Lemma new_congr (n1 n2 c1 c2 : jsstring) (h1 h2 : float) (a : bool) :
  substring n1 0 31 = substring n2 0 31 ->
  (if negb (Fluid.is_color (toLowerCase c1)) then lit "#999" else toLowerCase c1)
  = (if negb (Fluid.is_color (toLowerCase c2)) then lit "#999" else toLowerCase c2) ->
  Math_max 0 (Math_min 100 (Math_round (or0 h1)))
  = Math_max 0 (Math_min 100 (Math_round (or0 h2))) ->
  Fluid.new n1 c1 h1 a = Fluid.new n2 c2 h2 a.
Proof.
  intros E1 E2 E3. unfold Fluid.new. cbv zeta. rewrite E1, E2, E3. reflexivity.
Qed.

(** The record of a fluid made by the constructor from a whole percentage,
    followed by anything, is decoded to that fluid. *)
Lemma decode_data_app (name color : jsstring) (pct : Z) (alwaysShown : bool)
    (rest : jsstring) :
  0 <= pct <= 100 ->
  Fluid.decode (Fluid.data (Fluid.new name color (of_Z pct) alwaysShown) ++ rest)
  = Fluid.new name color (of_Z pct) alwaysShown.
Proof.
  intros Hp.
  destruct (percent_roundtrip pct Hp) as (Hclamp & Hint & Hmin).
  assert (Hlen : (length (substring name 0 31) <= 31)%nat).
  { unfold substring. rewrite length_take. lia. }
  rewrite data_new. cbn [app]. rewrite decode_record.
  rewrite Hclamp, Hint.
  destruct (word0_roundtrip (Z.b2z alwaysShown) pct
              (Z.of_nat (length (substring name 0 31))))
    as (Hflag & Hpct & Hn); [destruct alwaysShown; cbn; lia | lia | lia |].
  cbv zeta in Hflag, Hpct, Hn. rewrite Hflag, Hpct, Hn.
  destruct (color_roundtrip _ (is_color_normal color)) as [Hcolor Hlower].
  rewrite Hcolor. rewrite Nat2Z.id, take_app_length.
  replace (negb (Z.b2z alwaysShown =? 0)) with alwaysShown by (destruct alwaysShown; reflexivity).
  apply new_congr.
  - unfold substring. rewrite !drop_0, take_take. reflexivity.
  - rewrite Hlower, is_color_normal. reflexivity.
  - rewrite Hmin. reflexivity.
Qed.

(** C4: a fluid made by the constructor from any name and colour text, a
    whole percentage from 0 to 100 and a visibility flag has a name of at
    most 31 code units, a colour of three lower-case hexadecimal digits and
    the percentage over 100 as its hydration factor; decoding its record
    gives a fluid with the same name, colour, hydration factor and flag (and
    the same record; like every new fluid it is not saved). *)
Theorem C4_fluid_roundtrip (name color : jsstring) (pct : Z) (alwaysShown : bool) :
  0 <= pct <= 100 ->
  let f := Fluid.new name color (of_Z pct) alwaysShown in
  (length (Fluid.name f) <= 31)%nat
  /\ Fluid.is_color (Fluid.color f) = true
  /\ Fluid.hydration f = (of_Z pct / 100)%float
  /\ Fluid.alwaysShown f = alwaysShown
  /\ Fluid.decode (Fluid.data f) = f.
Proof.
  intros Hp f.
  destruct (percent_roundtrip pct Hp) as (Hclamp & _ & _).
  split. { unfold f, Fluid.new, Fluid.name, substring. rewrite length_take. lia. }
  split; [apply is_color_normal|].
  split. { unfold f, Fluid.new. cbn [Fluid.hydration]. rewrite Hclamp. reflexivity. }
  split; [reflexivity|].
  unfold f. rewrite <- (app_nil_r (Fluid.data _)). apply decode_data_app. exact Hp.
Qed.

(** C4 for tea, 90 percent, not always shown. *)
Lemma C4_fluid_roundtrip_witness :
  let f := Fluid.new (lit "Tea") (lit "#963") (of_Z 90) false in
  (length (Fluid.name f) <= 31)%nat
  /\ Fluid.is_color (Fluid.color f) = true
  /\ Fluid.hydration f = (of_Z 90 / 100)%float
  /\ Fluid.alwaysShown f = false
  /\ Fluid.decode (Fluid.data f) = f.
Proof. apply (C4_fluid_roundtrip (lit "Tea") (lit "#963") 90 false). lia. Defined.

(** ** The record of an entry *)

(** The hour and the minute: kept by the constructor, and read back by the
    bit operators. *)
Lemma clock_all :
  all_from 60 0 (fun m =>
    PrimFloat.Leibniz.eqb (Math_max 0 (Math_min 59 (Math_round (or0 (of_Z m))))) (of_Z m)
    && (ToInt32 (of_Z m) =? m)
    && ((23 <? m)
        || PrimFloat.Leibniz.eqb
             (Math_max 0 (Math_min 23 (Math_round (or0 (of_Z m))))) (of_Z m))) = true.
Proof. vm_compute. reflexivity. Qed.

Lemma minute_roundtrip (m : Z) :
  0 <= m <= 59 ->
  Math_max 0 (Math_min 59 (Math_round (or0 (of_Z m)))) = of_Z m /\ ToInt32 (of_Z m) = m.
Proof.
  intros Hm.
  pose proof (all_from_spec _ _ _ clock_all m ltac:(lia)) as H.
  checked H. auto.
Qed.

Lemma hour_roundtrip (h : Z) :
  0 <= h <= 23 ->
  Math_max 0 (Math_min 23 (Math_round (or0 (of_Z h)))) = of_Z h /\ ToInt32 (of_Z h) = h.
Proof.
  intros Hh.
  pose proof (all_from_spec _ _ _ clock_all h ltac:(lia)) as H. cbv beta in H.
  apply andb_true_iff in H as [H H3]. apply andb_true_iff in H as [_ H2].
  apply Z.eqb_eq in H2. apply orb_true_iff in H3 as [H3|H3].
  - apply Z.ltb_lt in H3. lia.
  - apply float_eqb_eq in H3. auto.
Qed.

Lemma word_all :
  all_from 2 0 (fun b => all_from 24 0 (fun h => all_from 60 0 (fun m =>
    let w := int32 (default 0 (Some (uint16
               (bitor (bitor (shl b 15) (shl (bitand h 31) 6)) (bitand m 63))))) in
    (sar w 15 =? b) && (bitand (sar w 6) 31 =? h) && (bitand w 63 =? m)))) = true.
Proof. vm_compute. reflexivity. Qed.

Lemma word_roundtrip (b h m : Z) :
  0 <= b <= 1 -> 0 <= h <= 23 -> 0 <= m <= 59 ->
  let w := int32 (default 0 (Some (uint16
             (bitor (bitor (shl b 15) (shl (bitand h 31) 6)) (bitand m 63))))) in
  sar w 15 = b /\ bitand (sar w 6) 31 = h /\ bitand w 63 = m.
Proof.
  intros Hb Hh Hm.
  pose proof (all_from3_spec _ _ _ _ _ _ _ word_all b h m
                ltac:(lia) ltac:(lia) ltac:(lia)) as H.
  checked H. cbv zeta. auto.
Qed.

Lemma decode_words (st : Fluid.registry) (w a i : Z) :
  Entry.decode st [w; a; i]
  = Entry.new st
      (match Fluid.saved st !! Z.to_nat i with
       | Some f => Some f
       | None => Fluid.saved st !! 0%nat
       end)
      (negb (sar (int32 (default 0 (Some w))) 15 =? 0))
      (of_Z a / 10)
      (of_Z (bitand (sar (int32 (default 0 (Some w))) 6) 31))
      (of_Z (bitand (int32 (default 0 (Some w))) 63)).
Proof. reflexivity. Qed.

(** A valid entry with a saved fluid is encoded without touching the
    registry, to three words from which [decode] builds the same entry. *)
Lemma entry_roundtrip (st : Fluid.registry) (e : Entry.t) :
  valid_entry e -> saved_fluid st e ->
  exists text,
    Entry.encode st e = Ok (text, st)
    /\ length text = 3%nat
    /\ Entry.decode st text = e.
Proof.
  intros ((k & Hk & Ha) & (h & Hh & Hhour) & (m & Hm & Hmin)) (f & Hf & Hi & Hsaved).
  destruct e as [fl b a hr mi]. cbn [Entry.amount Entry.hour Entry.minute Entry.fluid] in *.
  subst fl a hr mi.
  unfold Entry.encode. cbn [Entry.fluid Entry.isOZ Entry.amount Entry.hour Entry.minute].
  destruct (Z.eqb_spec (Fluid.index (Fluid.heap st f)) (-1)) as [Hbad|_]; [lia|].
  cbn [bind]. eexists. split; [reflexivity|]. split; [reflexivity|].
  unfold Entry.fromCharCode. rewrite decode_words.
  destruct (amount_roundtrip k Hk) as [Hamount Hten].
  destruct (hour_roundtrip h Hh) as [Hhclamp Hhint].
  destruct (minute_roundtrip m Hm) as [Hmclamp Hmint].
  rewrite Hten, Hhint, Hmint.
  destruct (word_roundtrip (Z.b2z b) h m) as (Hw1 & Hw2 & Hw3);
    [destruct b; cbn; lia | lia | lia |].
  cbv zeta in Hw1, Hw2, Hw3. rewrite Hw1, Hw2, Hw3.
  replace (uint16 (Fluid.index (Fluid.heap st f))) with (Fluid.index (Fluid.heap st f))
    by (unfold uint16; rewrite Z.mod_small; lia).
  rewrite Hsaved.
  replace (negb (Z.b2z b =? 0)) with b by (destruct b; reflexivity).
  unfold Entry.new. fold (tenths k). rewrite Hamount, Hhclamp, Hmclamp. reflexivity.
Qed.

(** C5: a valid entry whose fluid is saved at a valid index is encoded, the
    registry staying as it is, to a record of three words, and decoding the
    record in that registry gives the entry back: the same fluid, unit flag,
    amount, hour and minute. *)
Theorem C5_entry_roundtrip (st : Fluid.registry) (e : Entry.t) :
  valid_entry e -> saved_fluid st e ->
  exists text,
    Entry.encode st e = Ok (text, st)
    /\ length text = 3%nat
    /\ Entry.decode st text = e.
Proof. exact (entry_roundtrip st e). Qed.

Lemma morning_glass_valid : valid_entry morning_glass /\ saved_fluid later_run morning_glass.
Proof.
  split.
  - repeat split; eexists; (split; [|reflexivity]); lia.
  - exists 0%nat. split; [reflexivity|].
    split; [split; vm_compute; [discriminate | reflexivity]|].
    vm_compute. reflexivity.
Qed.

(** C5 for eight ounces of water at 9:30 on a later start. *)
Lemma C5_entry_roundtrip_witness :
  exists text,
    Entry.encode later_run morning_glass = Ok (text, later_run)
    /\ length text = 3%nat
    /\ Entry.decode later_run text = morning_glass.
Proof.
  apply (C5_entry_roundtrip later_run morning_glass);
    [exact (proj1 morning_glass_valid) | exact (proj2 morning_glass_valid)].
Defined.

(** ** The record of a log *)

Lemma record_spec (st : Fluid.registry) (e : Entry.t) :
  valid_entry e -> saved_fluid st e ->
  Entry.encode st e = Ok (record st e, st)
  /\ length (record st e) = 3%nat
  /\ Entry.decode st (record st e) = e.
Proof.
  intros Hv Hs. destruct (entry_roundtrip st e Hv Hs) as (text & He & Hl & Hd).
  unfold record. rewrite He. auto.
Qed.

Lemma encode_entries_valid (st : Fluid.registry) (es : list Entry.t) :
  Forall (fun e => valid_entry e /\ saved_fluid st e) es ->
  forall pre,
    DailyLog.encode_entries st es pre = Ok (pre ++ flat_map (record st) es, st).
Proof.
  induction 1 as [|e es [Hv Hs] _ IH]; intros pre; cbn [DailyLog.encode_entries flat_map].
  - rewrite app_nil_r. reflexivity.
  - destruct (record_spec st e Hv Hs) as (He & _ & _).
    rewrite He. cbn [bind fst snd]. rewrite IH, <- app_assoc. reflexivity.
Qed.

Lemma length_records (st : Fluid.registry) (es : list Entry.t) :
  Forall (fun e => valid_entry e /\ saved_fluid st e) es ->
  length (flat_map (record st) es) = (3 * length es)%nat.
Proof.
  induction 1 as [|e es [Hv Hs] _ IH]; [reflexivity|].
  destruct (record_spec st e Hv Hs) as (_ & Hl & _).
  cbn [flat_map length]. rewrite length_app, Hl, IH. lia.
Qed.

Lemma add_push (st : Fluid.registry) (log : DailyLog.t) (e : Entry.t) (f : Fluid.loc) :
  Entry.fluid e = Some f -> DailyLog.add st log e = Ok (push st log e).
Proof. intros Hf. unfold DailyLog.add, push, share. rewrite Hf. reflexivity. Qed.

(** The loop of [decode] over the records of valid entries pushes them. *)
Lemma decode_from_records (st : Fluid.registry) (es : list Entry.t) :
  Forall (fun e => valid_entry e /\ saved_fluid st e) es ->
  forall pre log fuel,
    (length es <= fuel)%nat ->
    DailyLog.decode_from fuel st (pre ++ flat_map (record st) es) (length pre) log
    = Ok (fold_left (push st) es log).
Proof.
  induction 1 as [|e es [Hv Hs] _ IH]; intros pre log fuel Hfuel.
  - cbn [flat_map fold_left]. rewrite app_nil_r.
    destruct fuel; cbn [DailyLog.decode_from]; rewrite Nat.ltb_irrefl; reflexivity.
  - destruct fuel as [|fuel]; [cbn in Hfuel; lia|].
    destruct (record_spec st e Hv Hs) as (_ & Hl & Hd).
    cbn [DailyLog.decode_from flat_map fold_left].
    destruct (Nat.ltb_spec (length pre)
                (length (pre ++ record st e ++ flat_map (record st) es))) as [_|Hge];
      [|rewrite !length_app, Hl in Hge; lia].
    assert (Hsub : substring (pre ++ record st e ++ flat_map (record st) es)
                     (length pre) (length pre + 3) = record st e).
    { unfold substring. rewrite drop_app_length.
      replace (length pre + 3 - length pre)%nat with (length (record st e)) by lia.
      apply take_app_length. }
    rewrite Hsub, Hd.
    destruct Hs as (f & Hf & _). rewrite (add_push st log e f Hf). cbn [bind].
    rewrite app_assoc.
    replace (length pre + 3)%nat with (length (pre ++ record st e))
      by (rewrite length_app; lia).
    apply IH. cbn [length] in Hfuel. lia.
Qed.

Lemma fold_push (st : Fluid.registry) (es : list Entry.t) :
  forall log,
    fold_left (push st) es log
    = {| DailyLog.goal := DailyLog.goal log;
         DailyLog.total :=
           fold_left (fun t e => (t + share st (DailyLog.isOZ log) e)%float) es
             (DailyLog.total log);
         DailyLog.isOZ := DailyLog.isOZ log;
         DailyLog.entries := DailyLog.entries log ++ es |}.
Proof.
  induction es as [|e es IH]; intros log; cbn [fold_left].
  - rewrite app_nil_r. destruct log; reflexivity.
  - rewrite IH. cbn [push DailyLog.goal DailyLog.total DailyLog.isOZ DailyLog.entries].
    rewrite <- app_assoc. reflexivity.
Qed.

Lemma flag_roundtrip (b : bool) :
  negb (sar (unit_int32 (Some (uint16 (shl (Z.b2z b) 15)))) 15 =? 0) = b.
Proof. destruct b; vm_compute; reflexivity. Qed.

(** A valid log and its text: encoded without touching the registry, and
    decoded to itself. *)
Lemma log_roundtrip (st : Fluid.registry) (log : DailyLog.t) :
  valid_log st log ->
  exists text log',
    DailyLog.encode st log = Ok (text, st)
    /\ length text = (2 + 3 * length (DailyLog.entries log))%nat
    /\ DailyLog.decode st text = Ok log'
    /\ DailyLog.total log' = DailyLog.total log
    /\ DailyLog.entries log' = DailyLog.entries log
    /\ log' = log
    /\ DailyLog.total log' = total_of st (DailyLog.isOZ log') (DailyLog.entries log')
    /\ (forall t, DailyLog.encode st (set_total t log) = Ok (text, st)).
Proof.
  intros ((g & Hg & Hgoal) & Hentries & Htotal).
  destruct log as [goal total b es].
  cbn [DailyLog.goal DailyLog.total DailyLog.isOZ DailyLog.entries] in *. subst goal.
  destruct (amount_roundtrip g Hg) as [Hclamp Hten].
  pose proof (encode_entries_valid st es Hentries
                [uint16 (shl (Z.b2z b) 15); ToUint16 (tenths g * 10)]) as Henc.
  assert (Hdec : DailyLog.decode st
                   ([uint16 (shl (Z.b2z b) 15); ToUint16 (tenths g * 10)]
                    ++ flat_map (record st) es)
                 = Ok {| DailyLog.goal := tenths g; DailyLog.total := total;
                         DailyLog.isOZ := b; DailyLog.entries := es |}).
  { unfold DailyLog.decode.
    change (charCodeAt ([uint16 (shl (Z.b2z b) 15); ToUint16 (tenths g * 10)]
                        ++ flat_map (record st) es) 0)
      with (Some (uint16 (shl (Z.b2z b) 15))).
    change (charCodeAt ([uint16 (shl (Z.b2z b) 15); ToUint16 (tenths g * 10)]
                        ++ flat_map (record st) es) 1)
      with (Some (ToUint16 (tenths g * 10))).
    rewrite flag_roundtrip, Hten.
    change (of_unit (Some g) / 10)%float with (tenths g).
    change 2%nat with (length [uint16 (shl (Z.b2z b) 15); g]).
    rewrite decode_from_records; [|exact Hentries|rewrite length_app; cbn [length];
      rewrite (length_records st es Hentries); lia].
    rewrite fold_push. unfold DailyLog.new.
    cbn [DailyLog.goal DailyLog.total DailyLog.isOZ DailyLog.entries app].
    rewrite Hclamp. fold (total_of st b es). rewrite <- Htotal. reflexivity. }
  do 2 eexists. split; [exact Henc|].
  split; [rewrite length_app, (length_records st es Hentries); reflexivity|].
  split; [exact Hdec|].
  cbn [DailyLog.total DailyLog.entries DailyLog.isOZ].
  repeat split; try assumption.
  intros t. exact Henc.
Qed.

(** C6: a valid log, of any number of entries, whose fluids are saved at
    their indices, is encoded, the registry staying as it is, to a header of
    two words and three words per entry; decoding that text gives a log with
    the same total and the same entries in the same order, in fact the same
    log.  The total is the sum over the decoded entries, and the text does
    not depend on the total of the encoded log: no total is stored. *)
Theorem C6_log_roundtrip (st : Fluid.registry) (log : DailyLog.t) :
  valid_log st log ->
  exists text log',
    DailyLog.encode st log = Ok (text, st)
    /\ length text = (2 + 3 * length (DailyLog.entries log))%nat
    /\ DailyLog.decode st text = Ok log'
    /\ DailyLog.total log' = DailyLog.total log
    /\ DailyLog.entries log' = DailyLog.entries log
    /\ log' = log
    /\ DailyLog.total log' = total_of st (DailyLog.isOZ log') (DailyLog.entries log')
    /\ (forall t, DailyLog.encode st (set_total t log) = Ok (text, st)).
Proof. exact (log_roundtrip st log). Qed.

Lemma three_glasses_valid : valid_log later_run three_glasses.
Proof.
  split; [exists 640; split; [lia | reflexivity]|].
  split; [|reflexivity].
  unfold three_glasses. cbn [DailyLog.entries].
  repeat (constructor; [exact morning_glass_valid|]). constructor.
Qed.

(** C6 for a log of three glasses of water with a goal of 64 ounces. *)
Lemma C6_log_roundtrip_witness :
  exists text log',
    DailyLog.encode later_run three_glasses = Ok (text, later_run)
    /\ length text = (2 + 3 * length (DailyLog.entries three_glasses))%nat
    /\ DailyLog.decode later_run text = Ok log'
    /\ DailyLog.total log' = DailyLog.total three_glasses
    /\ DailyLog.entries log' = DailyLog.entries three_glasses
    /\ log' = three_glasses
    /\ DailyLog.total log'
       = total_of later_run (DailyLog.isOZ log') (DailyLog.entries log')
    /\ (forall t, DailyLog.encode later_run (set_total t three_glasses)
                  = Ok (text, later_run)).
Proof. apply (C6_log_roundtrip later_run three_glasses). exact three_glasses_valid. Defined.

(** ** Saving an array twice *)

Lemma find_twin_data (h : Fluid.loc -> Fluid.t) (items : list Fluid.loc)
    (d : jsstring) (t : Fluid.loc) :
  Fluid.find_twin h items d = Some t -> Fluid.data (h t) = d.
Proof.
  unfold Fluid.find_twin. intros H. apply find_some in H as [_ H].
  apply eqb_eq. exact H.
Qed.

(** The fluid [x] has a twin in [Fluid.saved] and carries its index. *)
Definition settled (st : Fluid.registry) (x : Fluid.loc) : Prop :=
  exists t,
    Fluid.find_twin (Fluid.heap st) (Fluid.saved st) (Fluid.data (Fluid.heap st x)) = Some t
    /\ Fluid.index (Fluid.heap st x) = Fluid.index (Fluid.heap st t).

(** A round of the loop of [save] settles its fluid and keeps the others
    settled. *)
Lemma save_one_settles (n : Z) (st : Fluid.registry) (f : Fluid.loc) :
  settled (Fluid.save_one n st f) f
  /\ forall x, settled st x -> settled (Fluid.save_one n st f) x.
Proof.
  unfold Fluid.save_one.
  destruct (Fluid.find_twin (Fluid.heap st) (Fluid.saved st) (Fluid.data (Fluid.heap st f)))
    as [tf|] eqn:E.
  - assert (Hfind : forall d,
               Fluid.find_twin (Fluid.heap (Fluid.write_index st f (Fluid.index (Fluid.heap st tf))))
                 (Fluid.saved st) d
               = Fluid.find_twin (Fluid.heap st) (Fluid.saved st) d).
    { intros d. apply find_twin_ext. intros x. apply data_write_index. }
    split.
    + exists tf. cbn [Fluid.write_index Fluid.saved].
      change (Fluid.update (Fluid.heap st) f
                (Fluid.set_index (Fluid.index (Fluid.heap st tf)) (Fluid.heap st f)))
        with (Fluid.heap (Fluid.write_index st f (Fluid.index (Fluid.heap st tf)))).
      rewrite data_write_index, Hfind, !index_write_index, Nat.eqb_refl.
      split; [exact E|]. destruct (tf =? f)%nat; reflexivity.
    + intros x (t & Ht & Hi). exists t. cbn [Fluid.write_index Fluid.saved].
      change (Fluid.update (Fluid.heap st) f
                (Fluid.set_index (Fluid.index (Fluid.heap st tf)) (Fluid.heap st f)))
        with (Fluid.heap (Fluid.write_index st f (Fluid.index (Fluid.heap st tf)))).
      rewrite data_write_index, Hfind, !index_write_index.
      split; [exact Ht|].
      destruct (Nat.eqb_spec x f) as [->|Hx]; destruct (Nat.eqb_spec t f) as [->|Hteq];
        try reflexivity.
      * rewrite E in Ht. injection Ht as ->. reflexivity.
      * assert (Hd : Fluid.data (Fluid.heap st f) = Fluid.data (Fluid.heap st x))
          by (apply (find_twin_data _ _ _ _ Ht)).
        rewrite Hd, Ht in E. injection E as <-. exact Hi.
      * exact Hi.
  - assert (Hfind : forall d,
               Fluid.find_twin (Fluid.heap (Fluid.write_index st f n)) (Fluid.saved st) d
               = Fluid.find_twin (Fluid.heap st) (Fluid.saved st) d).
    { intros d. apply find_twin_ext. intros x. apply data_write_index. }
    split.
    + exists f. cbn [Fluid.push_saved Fluid.saved Fluid.heap].
      rewrite find_twin_app, data_write_index, Hfind, E, eqb_refl. split; reflexivity.
    + intros x (t & Ht & Hi). exists t. cbn [Fluid.push_saved Fluid.saved Fluid.heap].
      rewrite find_twin_app, data_write_index, Hfind, Ht, !index_write_index.
      split; [reflexivity|].
      pose proof (find_twin_data _ _ _ _ Ht) as Hd.
      destruct (Nat.eqb_spec x f) as [->|Hx].
      * rewrite E in Ht. discriminate.
      * destruct (Nat.eqb_spec t f) as [->|_]; [|exact Hi].
        rewrite Hd, Ht in E. discriminate.
Qed.

Lemma save_loop_settles (n : Z) (fluids : list Fluid.loc) :
  forall st,
    (forall x, In x fluids -> settled (fold_left (Fluid.save_one n) fluids st) x)
    /\ (forall x, settled st x -> settled (fold_left (Fluid.save_one n) fluids st) x).
Proof.
  induction fluids as [|f fluids IH]; intros st; cbn [fold_left].
  - split; [intros x []|auto].
  - destruct (save_one_settles n st f) as [Hf Hkeep].
    destruct (IH (Fluid.save_one n st f)) as [Hin Hold].
    split.
    + intros x [<-|Hx]; [apply Hold, Hf | apply Hin, Hx].
    + intros x Hx. apply Hold, Hkeep, Hx.
Qed.

(** Two registries with the same [saved] and, cell by cell, the same heap. *)
Definition same (st st' : Fluid.registry) : Prop :=
  Fluid.saved st = Fluid.saved st' /\ forall x, Fluid.heap st x = Fluid.heap st' x.

Lemma set_index_same (f : Fluid.t) : Fluid.set_index (Fluid.index f) f = f.
Proof. destruct f; reflexivity. Qed.

(** On settled fluids a round of the loop changes nothing. *)
Lemma save_one_same (n : Z) (st st1 : Fluid.registry) (f : Fluid.loc) :
  same st st1 -> settled st1 f -> same (Fluid.save_one n st f) st1.
Proof.
  intros [Hsaved Hheap] (t & Ht & Hi). unfold Fluid.save_one.
  rewrite Hsaved, Hheap.
  rewrite (find_twin_ext (Fluid.heap st) (Fluid.heap st1))
    by (intros x; rewrite Hheap; reflexivity).
  rewrite Ht. split; [exact Hsaved|].
  intros x. rewrite heap_write_index.
  destruct (Nat.eqb_spec x f) as [->|_]; [|apply Hheap].
  rewrite !Hheap, <- Hi. apply set_index_same.
Qed.

Lemma save_loop_same (n : Z) (st1 : Fluid.registry) (fluids : list Fluid.loc) :
  (forall x, In x fluids -> settled st1 x) ->
  forall st, same st st1 -> same (fold_left (Fluid.save_one n) fluids st) st1.
Proof.
  induction fluids as [|f fluids IH]; intros Hall st Hsame; cbn [fold_left]; [exact Hsame|].
  apply IH; [intros x Hx; apply Hall; right; exact Hx|].
  apply save_one_same; [exact Hsame | apply Hall; left; reflexivity].
Qed.

Lemma settled_write_back (st : Fluid.registry) (x : Fluid.loc) :
  settled st x -> settled (Fluid.write_back st) x.
Proof. intros H. exact H. Qed.

(** Saving any array of fluids a second time changes nothing: the registry
    is as long as it was, every fluid keeps the index it had, and the same
    text is stored. *)
Lemma save_array_twice (st : Fluid.registry) (fluids : list Fluid.loc) :
  exists st1 st2,
    Fluid.save (Fluid.Array fluids) st = Ok st1
    /\ Fluid.save (Fluid.Array fluids) st1 = Ok st2
    /\ Fluid.saved st2 = Fluid.saved st1
    /\ (forall x, Fluid.heap st2 x = Fluid.heap st1 x)
    /\ Fluid.stored st2 = Fluid.stored st1.
Proof.
  do 2 eexists. split; [reflexivity|]. split; [reflexivity|].
  set (n := Z.of_nat (length fluids)).
  set (st1 := Fluid.write_back (fold_left (Fluid.save_one n) fluids st)).
  assert (Hall : forall x, In x fluids -> settled st1 x).
  { intros x Hx. apply settled_write_back.
    apply (proj1 (save_loop_settles n fluids st)). exact Hx. }
  destruct (save_loop_same n st1 fluids Hall st1) as [Hsaved Hheap];
    [split; reflexivity|].
  unfold Fluid.write_back at 1 2 3. cbn [Fluid.setItem Fluid.saved Fluid.heap Fluid.stored].
  split; [exact Hsaved|]. split; [exact Hheap|].
  rewrite Hsaved.
  change (Fluid.stored st1)
    with (Some (concat (map (fun l => Fluid.data (Fluid.heap st1 l)) (Fluid.saved st1)))).
  f_equal. f_equal. apply map_ext. intros x. rewrite Hheap. reflexivity.
Qed.

(** ** The total of a decoded log *)

Lemma total_of_snoc (st : Fluid.registry) (toOZ : bool) (es : list Entry.t) (e : Entry.t) :
  total_of st toOZ (es ++ [e]) = (total_of st toOZ es + share st toOZ e)%float.
Proof. unfold total_of. rewrite fold_left_app. reflexivity. Qed.

(** [add] keeps the total equal to the sum over the entries. *)
Lemma add_keeps_total (st : Fluid.registry) (log log' : DailyLog.t) (e : Entry.t) :
  DailyLog.total log = total_of st (DailyLog.isOZ log) (DailyLog.entries log) ->
  DailyLog.add st log e = Ok log' ->
  DailyLog.total log' = total_of st (DailyLog.isOZ log') (DailyLog.entries log').
Proof.
  intros Htotal Hadd. unfold DailyLog.add in Hadd.
  destruct (Entry.fluid e) as [f|] eqn:Hf; [|discriminate].
  injection Hadd as <-.
  cbn [DailyLog.total DailyLog.isOZ DailyLog.entries].
  rewrite total_of_snoc, Htotal. unfold share. rewrite Hf. reflexivity.
Qed.

Lemma decode_from_keeps_total (st : Fluid.registry) (data : jsstring) (fuel : nat) :
  forall i log log',
    DailyLog.total log = total_of st (DailyLog.isOZ log) (DailyLog.entries log) ->
    DailyLog.decode_from fuel st data i log = Ok log' ->
    DailyLog.total log' = total_of st (DailyLog.isOZ log') (DailyLog.entries log').
Proof.
  induction fuel as [|fuel IH]; intros i log log' Htotal Hdec; cbn [DailyLog.decode_from] in Hdec.
  - destruct (i <? length data)%nat; [discriminate|]. injection Hdec as <-. exact Htotal.
  - destruct (i <? length data)%nat; [|injection Hdec as <-; exact Htotal].
    destruct (DailyLog.add st log (Entry.decode st (substring data i (i + 3))))
      as [log1|] eqn:Hadd; [|discriminate].
    cbn [bind] in Hdec.
    apply (IH _ _ _ (add_keeps_total st log log1 _ Htotal Hadd) Hdec).
Qed.

(** Whatever the buffer, the total of the log that [decode] returns is the
    sum, from 0 and in order, of what its entries add: nothing of the total
    is read from the buffer. *)
Lemma decode_recomputes_total (st : Fluid.registry) (data : jsstring) :
  match DailyLog.decode st data with
  | Ok log =>
      DailyLog.total log = total_of st (DailyLog.isOZ log) (DailyLog.entries log)
  | Throw _ => True
  end.
Proof.
  destruct (DailyLog.decode st data) as [log|] eqn:Hdec; [|exact I].
  unfold DailyLog.decode in Hdec.
  eapply decode_from_keeps_total; [|exact Hdec]. reflexivity.
Qed.

(** [register] keeps the total of its log equal to the sum over the entries. *)
Lemma register_keeps_total (st : Fluid.registry) (hours minutes : Z)
    (logs : DailyLog.store) (this : nat) (fluid : option Fluid.loc)
    (isOZ : bool) (amount : float) :
  match DailyLog.register st hours minutes logs this fluid isOZ amount with
  | Ok (logs', _) =>
      DailyLog.total (logs this)
      = total_of st (DailyLog.isOZ (logs this)) (DailyLog.entries (logs this)) ->
      DailyLog.total (logs' this)
      = total_of st (DailyLog.isOZ (logs' this)) (DailyLog.entries (logs' this))
  | Throw _ => True
  end.
Proof.
  unfold DailyLog.register.
  destruct (DailyLog.add st (logs this) _) as [log'|] eqn:Hadd; cbn [bind]; [|exact I].
  intros Htotal. unfold DailyLog.update. rewrite Nat.eqb_refl.
  apply (add_keeps_total st (logs this) log' _ Htotal Hadd).
Qed.

(** ** The buffer of the registry *)

(** The loop of [decodeCollection] over the records of constructed fluids,
    one after the other, gives the fluids back, numbered in their order: a
    record is delimited by the length in its first word. *)
Lemma decode_from_concat (fluids : list Fluid.t) :
  Forall constructed fluids ->
  forall pre index fuel,
    (length (concat (map Fluid.data fluids)) <= fuel)%nat ->
    Fluid.decode_from fuel (pre ++ concat (map Fluid.data fluids)) (length pre) index
    = Ok (numbered index fluids).
Proof.
  induction 1 as [|f fluids (name & color & pct & a & Hp & ->) _ IH];
    intros pre index fuel Hfuel.
  - cbn [map concat numbered]. rewrite app_nil_r.
    destruct fuel; cbn [Fluid.decode_from]; rewrite Nat.ltb_irrefl; reflexivity.
  - cbn [map concat numbered] in *. rewrite length_app, length_data_new in Hfuel.
    destruct fuel as [|fuel]; [lia|]. cbn [Fluid.decode_from].
    destruct (Nat.ltb_spec (length pre)
                (length (pre ++ Fluid.data (Fluid.new name color (of_Z pct) a)
                             ++ concat (map Fluid.data fluids)))) as [_|Hge];
      [|rewrite !length_app, length_data_new in Hge; lia].
    unfold substring_from. rewrite drop_app_length.
    rewrite decode_data_app by exact Hp.
    rewrite app_assoc, <- length_app. rewrite IH by lia. reflexivity.
Qed.

(** [decodeCollection] of the concatenated records of constructed fluids
    gives them back with the indices 0, 1, 2, ... of their positions. *)
Lemma decodeCollection_concat (fluids : list Fluid.t) :
  Forall constructed fluids ->
  Fluid.decodeCollection (Some (concat (map Fluid.data fluids)))
  = Ok (numbered 0 fluids).
Proof.
  intros H. unfold Fluid.decodeCollection.
  apply (decode_from_concat fluids H [] 0). reflexivity.
Qed.

Lemma decodeCollection_concat_example :
  Fluid.decodeCollection (Some (concat (map Fluid.data [Fluid.water; tea])))
  = Ok (numbered 0 [Fluid.water; tea]).
Proof.
  apply (decodeCollection_concat [Fluid.water; tea]).
  repeat constructor.
  - exists (lit "Water"), (lit "#6CF"), 100, true. split; [lia | reflexivity].
  - exists (lit "Tea"), (lit "#963"), 90, false. split; [lia | reflexivity].
Defined.

(** ** Logs that the program builds *)

(** The constructor of [Entry] on values in range leaves them as they are. *)
Lemma new_valid (st : Fluid.registry) (fluid : option Fluid.loc) (isOZ : bool)
    (k h m : Z) :
  0 <= k <= 65535 -> 0 <= h <= 23 -> 0 <= m <= 59 ->
  Entry.new st fluid isOZ (tenths k) (of_Z h) (of_Z m)
  = {| Entry.fluid := match fluid with
                      | Some f => Some f
                      | None => Fluid.shown st !! 0%nat
                      end;
       Entry.isOZ := isOZ; Entry.amount := tenths k;
       Entry.hour := of_Z h; Entry.minute := of_Z m |}
  /\ valid_entry (Entry.new st fluid isOZ (tenths k) (of_Z h) (of_Z m)).
Proof.
  intros Hk Hh Hm.
  destruct (amount_roundtrip k Hk) as [Ha _].
  destruct (hour_roundtrip h Hh) as [Hhour _].
  destruct (minute_roundtrip m Hm) as [Hmin _].
  assert (Hnew : Entry.new st fluid isOZ (tenths k) (of_Z h) (of_Z m)
                 = {| Entry.fluid := match fluid with
                                     | Some f => Some f
                                     | None => Fluid.shown st !! 0%nat
                                     end;
                      Entry.isOZ := isOZ; Entry.amount := tenths k;
                      Entry.hour := of_Z h; Entry.minute := of_Z m |}).
  { unfold Entry.new. rewrite Ha, Hhour, Hmin. reflexivity. }
  split; [exact Hnew|]. rewrite Hnew.
  repeat split; eexists; (split; [|reflexivity]); assumption.
Qed.

(** A new log with a goal in range is valid. *)
Lemma new_log_valid (st : Fluid.registry) (isOZ : bool) (g : Z) :
  0 <= g <= 65535 -> valid_log st (DailyLog.new isOZ (tenths g)).
Proof.
  intros Hg. destruct (amount_roundtrip g Hg) as [Hgoal _].
  unfold DailyLog.new. rewrite Hgoal.
  split; [exists g; split; [exact Hg | reflexivity]|].
  split; [constructor | reflexivity].
Qed.

(** [register] with an amount in range, at a time of the day, of a fluid
    saved at a valid index keeps a valid log valid: what the program builds
    from such values is what the records give back. *)
Lemma register_keeps_valid (st : Fluid.registry) (hours minutes : Z)
    (logs : DailyLog.store) (this : nat) (f : Fluid.loc) (isOZ : bool) (k : Z) :
  valid_log st (logs this) ->
  0 <= k <= 65535 -> 0 <= hours <= 23 -> 0 <= minutes <= 59 ->
  0 <= Fluid.index (Fluid.heap st f) < 65536 ->
  Fluid.saved st !! Z.to_nat (Fluid.index (Fluid.heap st f)) = Some f ->
  exists logs',
    DailyLog.register st hours minutes logs this (Some f) isOZ (tenths k)
    = Ok (logs', this)
    /\ valid_log st (logs' this).
Proof.
  intros ((g & Hg & Hgoal) & Hentries & Htotal) Hk Hh Hm Hi Hsaved.
  destruct (new_valid st (Some f) isOZ k hours minutes Hk Hh Hm) as [Hnew Hvalid].
  unfold DailyLog.register. rewrite Hnew in *.
  unfold DailyLog.add. cbn [Entry.fluid bind].
  eexists. split; [reflexivity|].
  unfold DailyLog.update. rewrite Nat.eqb_refl.
  cbn [DailyLog.goal DailyLog.total DailyLog.isOZ DailyLog.entries].
  split; [exists g; split; assumption|]. split.
  - apply Forall_app. split; [exact Hentries|].
    constructor; [|constructor]. split; [exact Hvalid|].
    exists f. cbn [Entry.fluid]. auto.
  - cbn [DailyLog.total DailyLog.isOZ DailyLog.entries Entry.amount Entry.isOZ].
    rewrite total_of_snoc, <- Htotal. unfold share. cbn [Entry.fluid Entry.amount Entry.isOZ].
    reflexivity.
Qed.

Lemma register_keeps_valid_example :
  exists logs',
    DailyLog.register later_run 9 30 (fun _ => three_glasses) 0%nat (Some 0%nat) true
      (tenths 80)
    = Ok (logs', 0%nat)
    /\ valid_log later_run (logs' 0%nat).
Proof.
  apply (register_keeps_valid later_run 9 30 (fun _ => three_glasses) 0%nat 0%nat true 80);
    try lia.
  - exact three_glasses_valid.
  - split; vm_compute; [discriminate | reflexivity].
  - vm_compute. reflexivity.
Defined.

(** ** Scenarios of the specification *)

(** Three entries of eight ounces of water on a log with a goal of 64
    ounces: the total is 24 ounces, there are three entries, and the log
    comes back from its record with the same total. *)
Example three_glasses_scenario :
  let logs0 : DailyLog.store := fun _ => DailyLog.new true 64 in
  exists logs1 logs2 logs3,
    DailyLog.register later_run 9 30 logs0 0%nat (Some 0%nat) true 8 = Ok (logs1, 0%nat)
    /\ DailyLog.register later_run 9 30 logs1 0%nat (Some 0%nat) true 8 = Ok (logs2, 0%nat)
    /\ DailyLog.register later_run 9 30 logs2 0%nat (Some 0%nat) true 8 = Ok (logs3, 0%nat)
    /\ logs3 0%nat = three_glasses
    /\ DailyLog.total three_glasses = 24%float
    /\ length (DailyLog.entries three_glasses) = 3%nat
    /\ exists text,
         DailyLog.encode later_run three_glasses = Ok (text, later_run)
         /\ DailyLog.decode later_run text = Ok three_glasses.
Proof.
  cbv zeta. do 3 eexists.
  split; [reflexivity|]. split; [reflexivity|]. split; [reflexivity|].
  split; [vm_compute; reflexivity|]. split; [vm_compute; reflexivity|].
  split; [reflexivity|].
  destruct (log_roundtrip later_run three_glasses three_glasses_valid)
    as (text & log' & Henc & _ & Hdec & _ & _ & -> & _).
  exists text. split; assumption.
Qed.

(** An amount of 7000 becomes 6553.5, an amount of -5 becomes 0. *)
Example clamping_scenario :
  Entry.amount (Entry.new later_run None true 7000 9 30) = 6553.5%float
  /\ Entry.amount (Entry.new later_run None true (-5) 9 30) = 0%float.
Proof. split; vm_compute; reflexivity. Qed.

(** ** The preferences *)

(** What [prefs.encode] writes is read back by [prefs.decode] with the
    unit preference it had, and with the 12-hour preference off whatever it
    was: [encode] puts it at bit 2 and [decode] reads bit 1, a bit that is
    never set in a text of [encode].  [decode(null)] changes nothing. *)
Lemma prefs_roundtrip (p q : prefs.t) :
  prefs.useOZ (prefs.decode q (Some (prefs.encode p))) = prefs.useOZ p
  /\ prefs.useMeridiem (prefs.decode q (Some (prefs.encode p))) = false
  /\ prefs.decode q None = q
  /\ (exists c, prefs.encode p = [c] /\ Z.testbit c 1 = false
                /\ Z.testbit c 2 = prefs.useMeridiem p
                /\ Z.testbit c 0 = prefs.useOZ p).
Proof.
  destruct p as [[|] [|]]; repeat split; try (vm_compute; reflexivity);
    eexists; repeat split.
Qed.

(** ** What [encode] does to the registry *)

Lemma entry_encode_cases (st : Fluid.registry) (e : Entry.t) :
  (indexed st e
   /\ exists text, Entry.encode st e = Ok (text, st) /\ length text = 3%nat)
  \/ (~ indexed st e /\ Entry.encode st e = Throw TypeError).
Proof.
  unfold Entry.encode, indexed.
  destruct (Entry.fluid e) as [f|] eqn:Hf.
  - destruct (Z.eqb_spec (Fluid.index (Fluid.heap st f)) (-1)) as [Hi|Hi].
    + right. split; [|reflexivity]. intros (f' & [= <-] & H). contradiction.
    + left. split; [exists f; auto|]. eexists. split; reflexivity.
  - right. split; [|reflexivity]. intros (f' & [=] & _).
Qed.

Lemma encode_entries_cases (st : Fluid.registry) (es : list Entry.t) :
  forall pre,
    match DailyLog.encode_entries st es pre with
    | Ok (text, st') =>
        st' = st /\ length text = (length pre + 3 * length es)%nat
        /\ Forall (indexed st) es
    | Throw err => err = TypeError /\ Exists (fun e => ~ indexed st e) es
    end.
Proof.
  induction es as [|e es IH]; intros pre; cbn [DailyLog.encode_entries].
  - cbn [length]. repeat split; [lia | constructor].
  - destruct (entry_encode_cases st e) as [(Hi & text & -> & Hl)|(Hi & ->)]; cbn [bind fst snd].
    + specialize (IH (pre ++ text)).
      destruct (DailyLog.encode_entries st es (pre ++ text)) as [[text' st']|err].
      * destruct IH as (-> & Hlen & Hall). rewrite length_app, Hl in Hlen.
        cbn [length]. repeat split; [lia | constructor; assumption].
      * destruct IH as (-> & Hex). split; [reflexivity|]. right. exact Hex.
    + split; [reflexivity|]. left. exact Hi.
Qed.

(** [DailyLog.encode] saves nothing.  It returns a text exactly when every
    entry has a fluid whose index is not -1; the registry is then as it was
    and the text has two words and three more for each entry.  Otherwise
    (some entry without a fluid, or with a fluid that was never saved) it
    throws a TypeError. *)
Lemma encode_never_saves (st : Fluid.registry) (log : DailyLog.t) :
  match DailyLog.encode st log with
  | Ok (text, st') =>
      st' = st
      /\ length text = (2 + 3 * length (DailyLog.entries log))%nat
      /\ Forall (indexed st) (DailyLog.entries log)
  | Throw err =>
      err = TypeError /\ Exists (fun e => ~ indexed st e) (DailyLog.entries log)
  end.
Proof.
  unfold DailyLog.encode. apply encode_entries_cases.
Qed.

(** ** What [decode] makes of any buffer *)

Lemma min100_all :
  all_from 128 0
    (fun v => PrimFloat.Leibniz.eqb (Math_min 100 (of_Z v)) (of_Z (Z.min 100 v)))
  = true.
Proof. vm_compute. reflexivity. Qed.

Lemma min100 (v : Z) :
  0 <= v < 128 -> Math_min 100 (of_Z v) = of_Z (Z.min 100 v).
Proof.
  intros Hv. pose proof (all_from_spec _ 128 0 min100_all v ltac:(lia)) as H.
  cbv beta in H. apply float_eqb_eq. exact H.
Qed.

Lemma bitand_127 (a : Z) : 0 <= bitand a 127 < 128.
Proof.
  unfold bitand. change 127 with (Z.ones 7). rewrite Z.land_ones by lia.
  pose proof (Z.mod_pos_bound a (2 ^ 7) ltac:(lia)) as H.
  unfold int32. rewrite (Z.mod_small (a mod 2 ^ 7)) by lia.
  destruct (Z.ltb_spec (a mod 2 ^ 7) (2 ^ 31)); lia.
Qed.

(** Whatever the buffer, [decode] returns a fluid as the constructor makes
    it from a whole percentage. *)
Lemma decode_constructed (data : jsstring) : constructed (Fluid.decode data).
Proof.
  unfold Fluid.decode, constructed.
  set (v := bitand (sar (unit_int32 (charCodeAt data 0)) 8) 127).
  pose proof (bitand_127 (sar (unit_int32 (charCodeAt data 0)) 8)) as Hv. fold v in Hv.
  do 2 eexists. exists (Z.min 100 v). eexists.
  split; [lia|]. rewrite (min100 v Hv). reflexivity.
Qed.

(** Decoding is a normal form.  Whatever the buffer (too short, with a name
    length beyond its end, with a percentage above 100), [decode] returns a
    fluid as the constructor makes it from a whole percentage from 0 to 100,
    and the record of that fluid is decoded to the same fluid. *)
Lemma decode_data_decode (data : jsstring) :
  constructed (Fluid.decode data)
  /\ Fluid.decode (Fluid.data (Fluid.decode data)) = Fluid.decode data.
Proof.
  split; [apply decode_constructed|].
  destruct (decode_constructed data) as (name & color & pct & a & Hp & ->).
  rewrite <- (app_nil_r (Fluid.data _)). apply decode_data_app. exact Hp.
Qed.

Lemma data_set_index (i : Z) (f : Fluid.t) : Fluid.data (Fluid.set_index i f) = Fluid.data f.
Proof. reflexivity. Qed.

Lemma map_data_numbered (fluids : list Fluid.t) :
  forall i, map Fluid.data (numbered i fluids) = map Fluid.data fluids.
Proof.
  induction fluids as [|f fluids IH]; intros i; [reflexivity|].
  cbn [numbered map]. rewrite IH. reflexivity.
Qed.

Lemma decode_from_numbered (data : jsstring) (fuel : nat) :
  forall pos index items,
    Fluid.decode_from fuel data pos index = Ok items ->
    exists fluids, Forall constructed fluids /\ items = numbered index fluids.
Proof.
  induction fuel as [|fuel IH]; intros pos index items H; cbn [Fluid.decode_from] in H.
  - destruct (pos <? length data)%nat; [discriminate|]. injection H as <-.
    exists []. split; [constructor | reflexivity].
  - destruct (pos <? length data)%nat.
    + destruct (Fluid.decode_from fuel data _ (index + 1)) as [rest|] eqn:Hrest;
        [|discriminate].
      cbn [bind] in H. injection H as <-.
      destruct (IH _ _ _ Hrest) as (fluids & Hall & ->).
      exists (Fluid.decode (substring_from data pos) :: fluids).
      split; [constructor; [apply decode_constructed | exact Hall] | reflexivity].
    + injection H as <-. exists []. split; [constructor | reflexivity].
Qed.

(** Whatever the store holds, [decodeCollection] returns fluids as the
    constructor makes them, numbered 0, 1, 2, ... in their order; their
    records, one after the other, are decoded to the same list. *)
Lemma decodeCollection_stable (item : option jsstring) :
  exists items fluids,
    Fluid.decodeCollection item = Ok items
    /\ Forall constructed fluids
    /\ items = numbered 0 fluids
    /\ Fluid.decodeCollection (Some (concat (map Fluid.data items))) = Ok items.
Proof.
  destruct (decodeCollection_total item) as [items Hitems].
  assert (Hfluids : exists fluids, Forall constructed fluids /\ items = numbered 0 fluids).
  { destruct item as [data|].
    - apply (decode_from_numbered data _ _ _ _ Hitems).
    - injection Hitems as <-. exists []. split; [constructor | reflexivity]. }
  destruct Hfluids as (fluids & Hall & ->).
  exists (numbered 0 fluids), fluids. repeat split; [exact Hitems | exact Hall |].
  rewrite map_data_numbered. unfold Fluid.decodeCollection.
  apply (decode_from_concat fluids Hall [] 0). reflexivity.
Qed.

(** ** The registry only grows *)

Lemma alike_refl (f : Fluid.t) : alike f f.
Proof. reflexivity. Qed.

Lemma alike_trans (f g h : Fluid.t) : alike f g -> alike g h -> alike f h.
Proof. unfold alike. congruence. Qed.

Lemma alike_set_index (i : Z) (f : Fluid.t) : alike (Fluid.set_index i f) f.
Proof. reflexivity. Qed.

Lemma alike_data (f g : Fluid.t) : alike f g -> Fluid.data f = Fluid.data g.
Proof.
  unfold alike. intros H.
  change (Fluid.data (Fluid.set_index (-1) f) = Fluid.data (Fluid.set_index (-1) g)).
  rewrite H. reflexivity.
Qed.

Lemma alike_alwaysShown (f g : Fluid.t) :
  alike f g -> Fluid.alwaysShown f = Fluid.alwaysShown g.
Proof.
  unfold alike. intros H.
  change (Fluid.alwaysShown (Fluid.set_index (-1) f)
          = Fluid.alwaysShown (Fluid.set_index (-1) g)).
  rewrite H. reflexivity.
Qed.

Lemma grows_refl (st : Fluid.registry) : grows st st [] [].
Proof. unfold grows. rewrite !app_nil_r. auto using alike_refl. Qed.

Lemma grows_trans (st st1 st2 : Fluid.registry) (a1 a2 b1 b2 : list Fluid.loc) :
  grows st st1 a1 b1 -> grows st1 st2 a2 b2 -> grows st st2 (a1 ++ a2) (b1 ++ b2).
Proof.
  intros (Hs1 & Hh1 & Ha1) (Hs2 & Hh2 & Ha2). unfold grows.
  rewrite Hs2, Hs1, Hh2, Hh1, !app_assoc. repeat split.
  intros x. apply (alike_trans _ _ _ (Ha2 x) (Ha1 x)).
Qed.

Lemma records_grows (st st' : Fluid.registry) (a b items : list Fluid.loc) :
  grows st st' a b -> records st' items = records st items.
Proof.
  intros (_ & _ & Ha). unfold records. apply map_ext. intros x. apply alike_data, Ha.
Qed.

Lemma find_twin_none (h : Fluid.loc -> Fluid.t) (items : list Fluid.loc) (d : jsstring) :
  Fluid.find_twin h items d = None ->
  ~ In d (map (fun l => Fluid.data (h l)) items).
Proof.
  unfold Fluid.find_twin. intros H Hin. apply in_map_iff in Hin as (x & Hx & Hin).
  pose proof (find_none _ _ H x Hin) as Hne. cbv beta in Hne.
  rewrite Hx, eqb_refl in Hne. discriminate.
Qed.

Lemma alike_write_index (st : Fluid.registry) (f : Fluid.loc) (i : Z) (x : Fluid.loc) :
  alike (Fluid.heap (Fluid.write_index st f i) x) (Fluid.heap st x).
Proof.
  rewrite heap_write_index. destruct (x =? f)%nat eqn:E; [|apply alike_refl].
  apply Nat.eqb_eq in E as ->. apply alike_set_index.
Qed.

(** A round of the loop of [save]: the fluid is pushed if no saved fluid has
    its record, and no list gets a second fluid with the same record. *)
Lemma save_one_grows (n : Z) (st : Fluid.registry) (f : Fluid.loc) :
  exists more,
    grows st (Fluid.save_one n st f) more []
    /\ (forall x, In x more -> x = f)
    /\ (forall x, x <> f -> Fluid.heap (Fluid.save_one n st f) x = Fluid.heap st x)
    /\ (NoDup (records st (Fluid.saved st)) ->
        NoDup (records (Fluid.save_one n st f) (Fluid.saved (Fluid.save_one n st f)))).
Proof.
  unfold Fluid.save_one.
  destruct (Fluid.find_twin (Fluid.heap st) (Fluid.saved st) (Fluid.data (Fluid.heap st f)))
    as [twin|] eqn:E.
  - exists []. assert (G : grows st (Fluid.write_index st f (Fluid.index (Fluid.heap st twin))) [] []).
    { unfold grows. cbn [Fluid.write_index Fluid.saved Fluid.shown]. rewrite !app_nil_r.
      repeat split. intros x. apply (alike_write_index st f _ x). }
    split; [exact G|]. split; [intros x []|]. split.
    + intros x Hx. rewrite heap_write_index.
      destruct (Nat.eqb_spec x f); [contradiction | reflexivity].
    + intros Hnd. rewrite (records_grows _ _ _ _ _ G). exact Hnd.
  - exists [f].
    assert (G : grows st (Fluid.push_saved (Fluid.write_index st f n) f) [f] []).
    { unfold grows. cbn [Fluid.push_saved Fluid.write_index Fluid.saved Fluid.shown].
      rewrite app_nil_r. repeat split. intros x. apply (alike_write_index st f _ x). }
    split; [exact G|]. split; [intros x [<-|[]]; reflexivity|]. split.
    + intros x Hx. cbn [Fluid.push_saved Fluid.heap]. rewrite heap_write_index.
      destruct (Nat.eqb_spec x f); [contradiction | reflexivity].
    + intros Hnd. rewrite (records_grows _ _ _ _ _ G).
      cbn [Fluid.push_saved Fluid.saved Fluid.write_index].
      unfold records. rewrite map_app. cbn [map].
      apply NoDup_app. split; [exact Hnd|]. split.
      * intros d Hd Hin. apply list_elem_of_singleton in Hin as ->.
        apply list_elem_of_In in Hd. exact (find_twin_none _ _ _ E Hd).
      * apply NoDup_singleton.
Qed.

Lemma save_loop_grows (n : Z) (fluids : list Fluid.loc) :
  forall st,
  exists more,
    grows st (fold_left (Fluid.save_one n) fluids st) more []
    /\ (forall x, In x more -> In x fluids)
    /\ (forall x, ~ In x fluids ->
        Fluid.heap (fold_left (Fluid.save_one n) fluids st) x = Fluid.heap st x)
    /\ (NoDup (records st (Fluid.saved st)) ->
        NoDup (records (fold_left (Fluid.save_one n) fluids st)
                 (Fluid.saved (fold_left (Fluid.save_one n) fluids st)))).
Proof.
  induction fluids as [|f fluids IH]; intros st; cbn [fold_left].
  - exists []. split; [apply grows_refl|]. split; [intros x []|]. split; auto.
  - destruct (save_one_grows n st f) as (m1 & G1 & Hin1 & Hout1 & Hnd1).
    destruct (IH (Fluid.save_one n st f)) as (m2 & G2 & Hin2 & Hout2 & Hnd2).
    exists (m1 ++ m2). split; [apply (grows_trans _ _ _ _ _ _ _ G1 G2)|]. split; [|split].
    + intros x Hx. apply in_app_or in Hx as [Hx|Hx].
      * left. symmetry. apply Hin1, Hx.
      * right. apply Hin2, Hx.
    + intros x Hx. rewrite Hout2 by (intros H; apply Hx; right; exact H).
      apply Hout1. intros ->. apply Hx. left. reflexivity.
    + intros Hnd. apply Hnd2, Hnd1, Hnd.
Qed.

(** [save] only appends.  Called on an array, it returns; [Fluid.saved]
    keeps its elements in their places and gets fluids of the array at its
    end, [Fluid.shown] is as it was, every object keeps all its fields but
    the index, an object that is not in the array keeps its index as well,
    and when no two saved fluids had the same record before, none have
    after. *)
Lemma save_only_appends (st : Fluid.registry) (fluids : list Fluid.loc) :
  exists st' more,
    Fluid.save (Fluid.Array fluids) st = Ok st'
    /\ Fluid.saved st' = Fluid.saved st ++ more
    /\ (forall x, In x more -> In x fluids)
    /\ Fluid.shown st' = Fluid.shown st
    /\ (forall x, alike (Fluid.heap st' x) (Fluid.heap st x))
    /\ (forall x, ~ In x fluids -> Fluid.heap st' x = Fluid.heap st x)
    /\ (NoDup (records st (Fluid.saved st)) -> NoDup (records st' (Fluid.saved st'))).
Proof.
  destruct (save_loop_grows (Z.of_nat (length fluids)) fluids st)
    as (more & (Hsaved & Hshown & Halike) & Hin & Hout & Hnd).
  eexists. exists more. split; [reflexivity|].
  unfold Fluid.write_back. cbn [Fluid.setItem Fluid.saved Fluid.shown Fluid.heap].
  rewrite app_nil_r in Hshown. repeat split; assumption.
Qed.

Lemma settled_has_twin (st : Fluid.registry) (x : Fluid.loc) :
  settled st x ->
  exists t, In t (Fluid.saved st)
            /\ Fluid.data (Fluid.heap st t) = Fluid.data (Fluid.heap st x)
            /\ Fluid.index (Fluid.heap st x) = Fluid.index (Fluid.heap st t).
Proof.
  intros (t & Ht & Hi). exists t. split; [|split; [|exact Hi]].
  - unfold Fluid.find_twin in Ht. apply find_some in Ht as [Hin _]. exact Hin.
  - apply (find_twin_data _ _ _ _ Ht).
Qed.

(** After [save] every fluid of the array has a twin in [Fluid.saved], a
    saved fluid with the same record (itself, if it was pushed), and carries
    the index of that twin. *)
Lemma save_gives_twin (st : Fluid.registry) (fluids : list Fluid.loc) :
  exists st',
    Fluid.save (Fluid.Array fluids) st = Ok st'
    /\ forall x, In x fluids ->
       exists t, In t (Fluid.saved st')
                 /\ Fluid.data (Fluid.heap st' t) = Fluid.data (Fluid.heap st' x)
                 /\ Fluid.index (Fluid.heap st' x) = Fluid.index (Fluid.heap st' t).
Proof.
  eexists. split; [reflexivity|]. intros x Hx.
  apply settled_has_twin, settled_write_back.
  apply (proj1 (save_loop_settles _ fluids st)). exact Hx.
Qed.

(** ** The stored text and the registry *)

Lemma numbered_alike (fs gs : list Fluid.t) :
  Forall2 alike fs gs -> forall i, numbered i fs = numbered i gs.
Proof.
  induction 1 as [|f g fs gs Hfg _ IH]; intros i; [reflexivity|].
  cbn [numbered]. rewrite IH. f_equal.
  unfold alike, Fluid.set_index in *. destruct f, g.
  cbn [Fluid.name Fluid.color Fluid.hydration Fluid.alwaysShown Fluid.data] in *.
  injection Hfg as -> -> -> -> ->. reflexivity.
Qed.

Lemma Forall2_alike_map (h : Fluid.loc -> Fluid.t) (items : list Fluid.loc) :
  Forall2 alike (map (fun x => Fluid.set_index (-1) (h x)) items) (map h items).
Proof.
  induction items as [|x items IH]; cbn [map]; constructor; [reflexivity | exact IH].
Qed.

(** When the saved fluids and those of the array are as the constructor
    makes them (with whatever index), the text that [save] stores is decoded
    by [decodeCollection] to the fluids of [Fluid.saved], in their order,
    each with its position as its index: the next start of the program reads
    back the registry that this one leaves. *)
Lemma save_then_decodeCollection (st : Fluid.registry) (fluids : list Fluid.loc) :
  (forall x, In x (Fluid.saved st ++ fluids) ->
     constructed (Fluid.set_index (-1) (Fluid.heap st x))) ->
  exists st',
    Fluid.save (Fluid.Array fluids) st = Ok st'
    /\ Fluid.decodeCollection (Fluid.stored st')
       = Ok (numbered 0 (map (Fluid.heap st') (Fluid.saved st'))).
Proof.
  intros Hmade.
  destruct (save_loop_grows (Z.of_nat (length fluids)) fluids st)
    as (more & (Hsaved & _ & Halike) & Hin & _ & _).
  eexists. split; [reflexivity|].
  unfold Fluid.write_back. cbn [Fluid.setItem Fluid.saved Fluid.heap Fluid.stored].
  set (st1 := fold_left (Fluid.save_one (Z.of_nat (length fluids))) fluids st) in *.
  set (fs := map (fun x => Fluid.set_index (-1) (Fluid.heap st1 x)) (Fluid.saved st1)).
  assert (Hfs : Forall constructed fs).
  { apply List.Forall_forall. intros f Hf. apply in_map_iff in Hf as (x & <- & Hx).
    rewrite (Halike x : Fluid.set_index (-1) _ = _). apply Hmade.
    rewrite Hsaved in Hx. apply in_app_or in Hx as [Hx|Hx]; apply in_or_app; auto. }
  replace (concat (map (fun l => Fluid.data (Fluid.heap st1 l)) (Fluid.saved st1)))
    with (concat (map Fluid.data fs))
    by (unfold fs; rewrite map_map; reflexivity).
  unfold Fluid.decodeCollection.
  rewrite (decode_from_concat fs Hfs [] 0) by reflexivity.
  f_equal. apply numbered_alike, Forall2_alike_map.
Qed.

Lemma save_then_decodeCollection_example :
  let st := fst (Fluid.alloc first_run tea) in
  exists st',
    Fluid.save (Fluid.Array [1%nat]) st = Ok st'
    /\ Fluid.decodeCollection (Fluid.stored st')
       = Ok (numbered 0 (map (Fluid.heap st') (Fluid.saved st'))).
Proof.
  apply (save_then_decodeCollection (fst (Fluid.alloc first_run tea)) [1%nat]).
  intros x [<-|[<-|[]]].
  - exists (lit "Water"), (lit "#6CF"), 100, true. split; [lia | vm_compute; reflexivity].
  - exists (lit "Tea"), (lit "#963"), 90, false. split; [lia | vm_compute; reflexivity].
Defined.

(** ** What [show] does *)

Lemma has_twin_grows (st st' : Fluid.registry) (a b : list Fluid.loc) (x : Fluid.loc) :
  grows st st' a b -> has_twin st (Fluid.shown st) x -> has_twin st' (Fluid.shown st') x.
Proof.
  intros (_ & Hshown & Halike) (t & Hin & Hd). exists t. split.
  - rewrite Hshown. apply in_or_app. left. exact Hin.
  - rewrite (alike_data _ _ (Halike t)), (alike_data _ _ (Halike x)). exact Hd.
Qed.

(** A round of the loop of [show]. *)
Lemma show_one_grows (st : Fluid.registry) (toSave : list Fluid.loc) (f : Fluid.loc) :
  exists st1 more_shown more_toSave,
    Fluid.show_one (st, toSave) f = (st1, toSave ++ more_toSave)
    /\ grows st st1 [] more_shown
    /\ (forall x, In x more_shown -> x = f)
    /\ (forall x, In x more_toSave ->
          In x more_shown /\ Fluid.alwaysShown (Fluid.heap st x) = true)
    /\ has_twin st1 (Fluid.shown st1) f
    /\ (NoDup (records st (Fluid.shown st)) -> NoDup (records st1 (Fluid.shown st1))).
Proof.
  unfold Fluid.show_one.
  destruct (Fluid.find_twin (Fluid.heap st) (Fluid.shown st) (Fluid.data (Fluid.heap st f)))
    as [twin|] eqn:E.
  - exists (Fluid.write_index st f (Fluid.index (Fluid.heap st twin))), [], [].
    assert (G : grows st (Fluid.write_index st f (Fluid.index (Fluid.heap st twin))) [] []).
    { unfold grows. cbn [Fluid.write_index Fluid.saved Fluid.shown]. rewrite !app_nil_r.
      repeat split. intros x. apply (alike_write_index st f _ x). }
    rewrite app_nil_r. split; [reflexivity|]. split; [exact G|].
    split; [intros x []|]. split; [intros x []|]. split.
    + apply (has_twin_grows st _ [] [] f G). exists twin. split.
      * unfold Fluid.find_twin in E. apply find_some in E as [Hin _]. exact Hin.
      * apply (find_twin_data _ _ _ _ E).
    + intros Hnd. rewrite (records_grows _ _ _ _ _ G). exact Hnd.
  - exists (Fluid.push_shown st f), [f],
      (if Fluid.alwaysShown (Fluid.heap st f) then [f] else []).
    assert (G : grows st (Fluid.push_shown st f) [] [f]).
    { unfold grows. cbn [Fluid.push_shown Fluid.saved Fluid.shown Fluid.heap].
      rewrite app_nil_r. split; [reflexivity|]. split; [reflexivity|].
      intros x. apply alike_refl. }
    split; [destruct (Fluid.alwaysShown (Fluid.heap st f)); rewrite ?app_nil_r; reflexivity|].
    split; [exact G|]. split; [intros x [<-|[]]; reflexivity|]. split; [|split].
    + intros x Hx. destruct (Fluid.alwaysShown (Fluid.heap st f)) eqn:Ha; [|destruct Hx].
      destruct Hx as [<-|[]]. split; [left; reflexivity | exact Ha].
    + exists f. split; [|reflexivity]. cbn [Fluid.push_shown Fluid.shown].
      apply in_or_app. right. left. reflexivity.
    + intros Hnd. cbn [Fluid.push_shown Fluid.shown].
      unfold records. cbn [Fluid.push_shown Fluid.heap]. rewrite map_app. cbn [map].
      apply NoDup_app. split; [exact Hnd|]. split.
      * intros d Hd Hin. apply list_elem_of_singleton in Hin as ->.
        apply list_elem_of_In in Hd. exact (find_twin_none _ _ _ E Hd).
      * apply NoDup_singleton.
Qed.

Lemma show_loop_grows (fluids : list Fluid.loc) :
  forall st toSave,
  exists st1 more_shown more_toSave,
    fold_left Fluid.show_one fluids (st, toSave) = (st1, toSave ++ more_toSave)
    /\ grows st st1 [] more_shown
    /\ (forall x, In x more_shown -> In x fluids)
    /\ (forall x, In x more_toSave ->
          In x more_shown /\ Fluid.alwaysShown (Fluid.heap st x) = true)
    /\ (forall x, In x fluids -> has_twin st1 (Fluid.shown st1) x)
    /\ (NoDup (records st (Fluid.shown st)) -> NoDup (records st1 (Fluid.shown st1))).
Proof.
  induction fluids as [|f fluids IH]; intros st toSave; cbn [fold_left].
  - exists st, [], []. rewrite app_nil_r. split; [reflexivity|].
    split; [apply grows_refl|]. split; [intros x []|]. split; [intros x []|].
    split; [intros x []|]. auto.
  - destruct (show_one_grows st toSave f) as (st1 & s1 & t1 & -> & G1 & Hs1 & Ht1 & Hf & Hnd1).
    destruct (IH st1 (toSave ++ t1)) as (st2 & s2 & t2 & -> & G2 & Hs2 & Ht2 & Hall & Hnd2).
    exists st2, (s1 ++ s2), (t1 ++ t2). rewrite app_assoc.
    split; [reflexivity|].
    split; [apply (grows_trans _ _ _ [] [] _ _ G1 G2)|].
    split; [|split; [|split]].
    + intros x Hx. apply in_app_or in Hx as [Hx|Hx].
      * left. symmetry. apply Hs1, Hx.
      * right. apply Hs2, Hx.
    + intros x Hx. apply in_app_or in Hx as [Hx|Hx].
      * destruct (Ht1 x Hx) as [Hin Ha]. split; [apply in_or_app; left; exact Hin | exact Ha].
      * destruct (Ht2 x Hx) as [Hin Ha]. split; [apply in_or_app; right; exact Hin|].
        destruct G1 as (_ & _ & Halike).
        rewrite <- (alike_alwaysShown _ _ (Halike x)). exact Ha.
    + intros x [<-|Hx]; [|apply Hall, Hx].
      apply (has_twin_grows st1 st2 [] s2 f G2 Hf).
    + intros Hnd. apply Hnd2, Hnd1, Hnd.
Qed.

Lemma show_grows (st : Fluid.registry) (fluids : list Fluid.loc) :
  exists st' more_saved more_shown,
    Fluid.show fluids st = Ok st'
    /\ Fluid.saved st' = Fluid.saved st ++ more_saved
    /\ Fluid.shown st' = Fluid.shown st ++ more_shown
    /\ (forall x, In x more_shown -> In x fluids)
    /\ (forall x, In x more_saved ->
          In x more_shown /\ Fluid.alwaysShown (Fluid.heap st x) = true)
    /\ (forall x, alike (Fluid.heap st' x) (Fluid.heap st x))
    /\ (forall x, In x fluids ->
          exists t, In t (Fluid.shown st')
                    /\ Fluid.data (Fluid.heap st' t) = Fluid.data (Fluid.heap st' x))
    /\ (NoDup (records st (Fluid.shown st)) -> NoDup (records st' (Fluid.shown st'))).
Proof.
  unfold Fluid.show.
  destruct (show_loop_grows fluids st [])
    as (st1 & more_shown & toSave & -> & G1 & Hshown & HtoSave & Htwin & Hnd).
  cbn [app Fluid.save].
  destruct (save_loop_grows (Z.of_nat (length toSave)) toSave st1)
    as (more_saved & G2 & Hin & _ & _).
  set (st2 := fold_left (Fluid.save_one (Z.of_nat (length toSave))) toSave st1) in *.
  assert (G : grows st (Fluid.write_back st2) more_saved more_shown).
  { pose proof (grows_trans _ _ _ _ _ _ _ G1 G2) as G.
    rewrite app_nil_r in G. exact G. }
  exists (Fluid.write_back st2), more_saved, more_shown.
  destruct G as (Hsaved & Hshown' & Halike).
  split; [reflexivity|]. split; [exact Hsaved|]. split; [exact Hshown'|].
  split; [exact Hshown|]. split; [intros x Hx; apply HtoSave, Hin, Hx|].
  split; [exact Halike|]. split.
  - intros x Hx.
    apply (has_twin_grows st1 (Fluid.write_back st2) more_saved [] x G2 (Htwin x Hx)).
  - intros Hnd0. specialize (Hnd Hnd0).
    assert (Hrec : records (Fluid.write_back st2) (Fluid.shown (Fluid.write_back st2))
                   = records st1 (Fluid.shown st1)).
    { destruct G2 as (_ & Hsh & Hal). cbn [Fluid.write_back Fluid.setItem Fluid.shown].
      rewrite Hsh, app_nil_r. unfold records. apply map_ext.
      intros x. apply alike_data, Hal. }
    rewrite Hrec. exact Hnd.
Qed.

(** [show] only appends, and saves only what it newly shows and is marked
    as always shown.  Called on an array, it returns; [Fluid.shown] and
    [Fluid.saved] keep their elements in their places; the fluids added to
    [Fluid.shown] are fluids of the array; the fluids added to [Fluid.saved]
    are among those just added to [Fluid.shown] and are always shown; every
    object keeps all its fields but the index; afterwards every fluid of the
    array has a twin, a fluid with the same record, in [Fluid.shown]; and
    when no two shown fluids had the same record before, none have after. *)
Lemma show_only_appends (st : Fluid.registry) (fluids : list Fluid.loc) :
  exists st' more_saved more_shown,
    Fluid.show fluids st = Ok st'
    /\ Fluid.saved st' = Fluid.saved st ++ more_saved
    /\ Fluid.shown st' = Fluid.shown st ++ more_shown
    /\ (forall x, In x more_shown -> In x fluids)
    /\ (forall x, In x more_saved ->
          In x more_shown /\ Fluid.alwaysShown (Fluid.heap st x) = true)
    /\ (forall x, alike (Fluid.heap st' x) (Fluid.heap st x))
    /\ (forall x, In x fluids ->
          exists t, In t (Fluid.shown st')
                    /\ Fluid.data (Fluid.heap st' t) = Fluid.data (Fluid.heap st' x))
    /\ (NoDup (records st (Fluid.shown st)) -> NoDup (records st' (Fluid.shown st'))).
Proof. exact (show_grows st fluids). Qed.


(** ** Water *)

(** A fluid of the constructor is what [decode] makes of its record. *)
Lemma constructed_decode (f : Fluid.t) : constructed f -> Fluid.decode (Fluid.data f) = f.
Proof.
  intros (name & color & pct & a & Hp & ->).
  rewrite <- (app_nil_r (Fluid.data _)). apply decode_data_app. exact Hp.
Qed.

Lemma water_constructed : constructed Fluid.water.
Proof. exists (lit "Water"), (lit "#6CF"), 100, true. split; [lia | reflexivity]. Qed.

Lemma nth_numbered (fluids : list Fluid.t) :
  forall i l, (l < length fluids)%nat ->
  alike (nth l (numbered i fluids) Fluid.fields) (nth l fluids Fluid.fields).
Proof.
  induction fluids as [|f fluids IH]; intros i l Hl; cbn [length] in Hl; [lia|].
  cbn [numbered]. destruct l as [|l]; cbn [nth]; [apply alike_set_index|].
  apply IH. lia.
Qed.

Lemma length_numbered (fluids : list Fluid.t) :
  forall i, length (numbered i fluids) = length fluids.
Proof.
  induction fluids as [|f fluids IH]; intros i; cbn [numbered length]; [|rewrite IH];
    reflexivity.
Qed.

(** Whatever the store holds, after the class is evaluated Water can be
    selected: [Fluid.shown] has a fluid with the name, the colour, the
    hydration factor, the flag and the record of
    [new Fluid("Water", "#6CF", 100, true)]. *)
Lemma initialise_shows_water (item : option jsstring) :
  exists st t,
    Fluid.initialise item = Ok st
    /\ In t (Fluid.shown st)
    /\ alike (Fluid.heap st t) Fluid.water.
Proof.
  unfold Fluid.initialise.
  destruct (decodeCollection_total item) as [items Hitems]. rewrite Hitems.
  assert (Hfluids : exists fluids, Forall constructed fluids /\ items = numbered 0 fluids).
  { destruct item as [data|].
    - apply (decode_from_numbered data _ _ _ _ Hitems).
    - injection Hitems as <-. exists []. split; [constructor | reflexivity]. }
  destruct Hfluids as (fluids & Hall & ->). clear Hitems.
  cbn [bind Fluid.alloc Fluid.heap Fluid.next Fluid.saved Fluid.shown Fluid.stored].
  set (n := length (numbered 0 fluids)).
  match goal with
  | |- context [Fluid.show _ ?s] => set (st1 := s)
  end.
  destruct (show_grows st1 [n])
    as (st & more_saved & more_shown & Hshow & _ & Hshown & Hmore & _ & Halike & Htwin & _).
  destruct (Htwin n ltac:(left; reflexivity)) as (t & Hin & Hdata).
  exists st, t. split; [exact Hshow|]. split; [exact Hin|].
  rewrite (alike_data _ _ (Halike t)), (alike_data _ _ (Halike n)) in Hdata.
  apply (alike_trans _ _ _ (Halike t)).
  assert (Hn : Fluid.heap st1 n = Fluid.water).
  { unfold st1; cbn [Fluid.heap]. unfold Fluid.update. rewrite Nat.eqb_refl. reflexivity. }
  rewrite Hn in Hdata.
  assert (Hmade : constructed (Fluid.set_index (-1) (Fluid.heap st1 t))).
  { rewrite Hshown in Hin. apply in_app_or in Hin as [Hin|Hin].
    - unfold st1 in Hin; cbn [Fluid.shown] in Hin. apply filter_In in Hin as [Hin _].
      apply in_seq in Hin. unfold st1; cbn [Fluid.heap]. unfold Fluid.update.
      destruct (Nat.eqb_spec t n); [lia|]. unfold n in Hin. rewrite length_numbered in Hin.
      rewrite (nth_numbered fluids 0 t ltac:(lia) : Fluid.set_index (-1) _ = _).
      assert (Hc : constructed (nth t fluids Fluid.fields)).
      { apply (proj1 (List.Forall_forall _ _) Hall). apply nth_In. lia. }
      destruct Hc as (name & color & pct & a & Hp & ->).
      exists name, color, pct, a. split; [exact Hp | reflexivity].
    - destruct (Hmore t Hin) as [<-|[]]. rewrite Hn. exact water_constructed. }
  unfold alike.
  rewrite <- (constructed_decode _ Hmade), <- (constructed_decode _ water_constructed).
  change (Fluid.data (Fluid.set_index (-1) (Fluid.heap st1 t)))
    with (Fluid.data (Fluid.heap st1 t)).
  rewrite Hdata. reflexivity.
Qed.

(** ** The logs that [decode] returns *)

(** The hours and minutes that the bit fields of a record can hold, beyond
    the last hour and minute of a day as well: the constructor clamps. *)
Lemma clamp_all :
  all_from 64 0 (fun m =>
    PrimFloat.Leibniz.eqb (Math_max 0 (Math_min 59 (Math_round (or0 (of_Z m)))))
      (of_Z (Z.min 59 m))
    && PrimFloat.Leibniz.eqb (Math_max 0 (Math_min 23 (Math_round (or0 (of_Z m)))))
         (of_Z (Z.min 23 m))) = true.
Proof. vm_compute. reflexivity. Qed.

Lemma clamp_clock (m : Z) :
  0 <= m < 64 ->
  Math_max 0 (Math_min 59 (Math_round (or0 (of_Z m)))) = of_Z (Z.min 59 m)
  /\ Math_max 0 (Math_min 23 (Math_round (or0 (of_Z m)))) = of_Z (Z.min 23 m).
Proof.
  intros Hm. pose proof (all_from_spec _ _ _ clamp_all m ltac:(lia)) as H.
  checked H. auto.
Qed.

Lemma bitand_ones (a : Z) (n : Z) :
  0 <= n < 31 -> 0 <= bitand a (Z.ones n) < 2 ^ n.
Proof.
  intros Hn. unfold bitand. rewrite Z.land_ones by lia.
  pose proof (Z.mod_pos_bound a (2 ^ n) ltac:(lia)) as H.
  assert (2 ^ n < 2 ^ 31) by (apply Z.pow_lt_mono_r; lia).
  unfold int32. rewrite (Z.mod_small (a mod 2 ^ n)) by lia.
  destruct (Z.ltb_spec (a mod 2 ^ n) (2 ^ 31)); lia.
Qed.

(** The amount the constructors keep of a word of a record, present or not. *)
Lemma amount_of_unit (c : option Z) :
  (forall a, c = Some a -> 0 <= a < 65536) ->
  exists k, 0 <= k <= 65535
    /\ (Math_max 0 (Math_min 6553.5 (Math_round (or0 (of_unit c / 10) * 10) / 10))
        = tenths k)%float.
Proof.
  intros Hc. destruct c as [a|].
  - specialize (Hc a eq_refl). exists a. split; [lia|].
    apply (amount_roundtrip a). lia.
  - exists 0. split; [lia | vm_compute; reflexivity].
Qed.

Lemma code_units_lookup (s : jsstring) (i : nat) (a : Z) :
  code_units s -> charCodeAt s i = Some a -> 0 <= a < 65536.
Proof.
  unfold code_units, charCodeAt. intros Hs Ha.
  apply (proj1 (Forall_lookup _ s) Hs i a Ha).
Qed.

Lemma code_units_substring (s : jsstring) (i j : nat) :
  code_units s -> code_units (substring s i j).
Proof. unfold code_units, substring. intros H. apply Forall_take, Forall_drop, H. Qed.

(** In a registry numbered by position and not empty, the entry that
    [Entry.decode] makes of any code units is valid and its fluid is saved. *)
Lemma entry_decode_valid (st : Fluid.registry) (data : jsstring) :
  well_numbered st -> Fluid.saved st <> [] -> code_units data ->
  valid_entry (Entry.decode st data) /\ saved_fluid st (Entry.decode st data).
Proof.
  intros Hst Hne Hdata. unfold Entry.decode.
  set (w := int32 (default 0 (charCodeAt data 0))).
  pose proof (bitand_ones (sar w 6) 5 ltac:(lia)) as Hh.
  pose proof (bitand_ones w 6 ltac:(lia)) as Hm.
  change (Z.ones 5) with 31 in Hh. change (Z.ones 6) with 63 in Hm.
  destruct (clamp_clock (bitand (sar w 6) 31) ltac:(lia)) as [_ Hhour].
  destruct (clamp_clock (bitand w 63) ltac:(lia)) as [Hminute _].
  destruct (amount_of_unit (charCodeAt data 1)) as (k & Hk & Hamount);
    [intros a Ha; apply (code_units_lookup data 1 a Hdata Ha)|].
  unfold Entry.new. rewrite Hhour, Hminute, Hamount.
  split.
  - repeat split; cbn [Entry.amount Entry.hour Entry.minute].
    + exists k. split; [exact Hk | reflexivity].
    + exists (Z.min 23 (bitand (sar w 6) 31)). split; [lia | reflexivity].
    + exists (Z.min 59 (bitand w 63)). split; [lia | reflexivity].
  - unfold saved_fluid. cbn [Entry.fluid].
    assert (Hf : exists (i : nat) f,
               match Entry.saved_at st (charCodeAt data 2) with
               | Some f => Some f
               | None => Fluid.saved st !! 0%nat
               end = Some f /\ Fluid.saved st !! i = Some f).
    { unfold Entry.saved_at. destruct (charCodeAt data 2) as [c|].
      - destruct (Fluid.saved st !! Z.to_nat c) as [f|] eqn:E.
        + exists (Z.to_nat c), f. auto.
        + destruct (Fluid.saved st) as [|f saved]; [contradiction|].
          exists 0%nat, f. auto.
      - destruct (Fluid.saved st) as [|f saved]; [contradiction|].
        exists 0%nat, f. auto. }
    destruct Hf as (i & f & Hf & Hi). rewrite Hf.
    destruct (Hst i f Hi) as [Hindex Hbound].
    exists f. split; [reflexivity|]. rewrite Hindex, Nat2Z.id.
    split; [lia | exact Hi].
Qed.

Lemma decode_from_valid (st : Fluid.registry) (data : jsstring) :
  well_numbered st -> Fluid.saved st <> [] -> code_units data ->
  forall fuel i log,
    (length data - i <= fuel)%nat ->
    valid_log st log ->
    exists log', DailyLog.decode_from fuel st data i log = Ok log' /\ valid_log st log'.
Proof.
  intros Hst Hne Hdata. induction fuel as [|fuel IH]; intros i log Hfuel Hlog;
    cbn [DailyLog.decode_from].
  - destruct (Nat.ltb_spec i (length data)); [lia|]. exists log. auto.
  - destruct (Nat.ltb_spec i (length data)); [|exists log; auto].
    destruct (entry_decode_valid st (substring data i (i + 3)) Hst Hne
                (code_units_substring data i (i + 3) Hdata)) as [Hv Hs].
    destruct Hs as (f & Hf & Hs).
    rewrite (add_push st log _ f Hf). cbn [bind].
    apply IH; [lia|].
    destruct Hlog as (Hgoal & Hentries & Htotal).
    split; [exact Hgoal|]. cbn [push DailyLog.entries DailyLog.total DailyLog.isOZ].
    split.
    + apply Forall_app. split; [exact Hentries|].
      constructor; [|constructor]. split; [exact Hv | exists f; auto].
    + rewrite total_of_snoc, Htotal. reflexivity.
Qed.

(** In a registry numbered by position and not empty, [DailyLog.decode]
    makes a valid log of every string: the goal and the amounts have one
    decimal and are at most 6553.5, the hours and minutes are those of a
    day, every entry has a saved fluid and the total is the sum over the
    entries.  Such a log is written by [encode] without loss: the text of
    the decoded log is decoded to the same log. *)
Lemma decode_valid (st : Fluid.registry) (data : jsstring) :
  well_numbered st -> Fluid.saved st <> [] -> code_units data ->
  exists log text,
    DailyLog.decode st data = Ok log
    /\ valid_log st log
    /\ DailyLog.encode st log = Ok (text, st)
    /\ DailyLog.decode st text = Ok log.
Proof.
  intros Hst Hne Hdata.
  assert (Hdec : exists log, DailyLog.decode st data = Ok log /\ valid_log st log).
  { unfold DailyLog.decode.
    destruct (amount_of_unit (charCodeAt data 1)) as (g & Hg & Hgoal);
      [intros a Ha; apply (code_units_lookup data 1 a Hdata Ha)|].
    apply (decode_from_valid st data Hst Hne Hdata); [lia|].
    unfold DailyLog.new. rewrite Hgoal.
    split; [exists g; split; [exact Hg | reflexivity]|].
    split; [constructor | reflexivity]. }
  destruct Hdec as (log & Hdec & Hvalid).
  destruct (log_roundtrip st log Hvalid) as (text & log' & Henc & _ & Hdec' & _ & _ & -> & _).
  exists log, text. auto.
Qed.

Lemma later_run_well_numbered : well_numbered later_run.
Proof.
  intros i f H. change (Fluid.saved later_run) with [0%nat] in H.
  destruct i as [|i]; [|destruct i; discriminate].
  injection H as <-. split; [vm_compute; reflexivity | lia].
Qed.

Lemma decode_valid_example :
  exists log text,
    DailyLog.decode later_run ragged_buffer = Ok log
    /\ valid_log later_run log
    /\ DailyLog.encode later_run log = Ok (text, later_run)
    /\ DailyLog.decode later_run text = Ok log.
Proof.
  apply (decode_valid later_run ragged_buffer).
  - exact later_run_well_numbered.
  - vm_compute. discriminate.
  - unfold code_units, ragged_buffer. repeat constructor; lia.
Defined.

(** ** Decimal numerals *)

Lemma number_of_snoc (s : jsstring) (c : Z) :
  number_of (s ++ [c]) = 10 * number_of s + (c - 48).
Proof. unfold number_of. rewrite fold_left_app. reflexivity. Qed.

Lemma number_of_zeros (n : nat) (s : jsstring) :
  number_of (replicate n 48 ++ s) = number_of s.
Proof.
  unfold number_of. rewrite fold_left_app. f_equal.
  induction n as [|n IH]; [reflexivity|].
  replace (S n) with (n + 1)%nat by lia. rewrite replicate_add, fold_left_app, IH.
  reflexivity.
Qed.

Lemma digits_fuel_app (fuel : nat) :
  forall n acc, digits_fuel fuel 10 n acc = digits_fuel fuel 10 n [] ++ acc.
Proof.
  induction fuel as [|fuel IH]; intros n acc; cbn [digits_fuel]; [reflexivity|].
  destruct (n <? 10); [reflexivity|].
  rewrite (IH (n / 10) (_ :: acc)), (IH (n / 10) [_]), <- app_assoc. reflexivity.
Qed.

(** The numeral of [n]: its digits write [n], all are digits, and there
    are as many as [n] has decimal places. *)
Lemma digits_fuel_spec (fuel : nat) :
  forall n, 0 <= n < 2 ^ Z.of_nat (S fuel) ->
  number_of (digits_fuel (S fuel) 10 n []) = n
  /\ Forall digit (digits_fuel (S fuel) 10 n [])
  /\ forall k : nat, n < 10 ^ Z.of_nat (S k) -> (k = 0%nat \/ 10 ^ Z.of_nat k <= n) ->
     length (digits_fuel (S fuel) 10 n []) = S k.
Proof.
  induction fuel as [|fuel IH]; intros n Hn.
  - change (2 ^ Z.of_nat 1) with 2 in Hn. cbn [digits_fuel].
    destruct (Z.ltb_spec n 10); [|lia].
    assert (Hcases : n = 0 \/ n = 1) by lia.
    split; [destruct Hcases as [-> | ->]; reflexivity|].
    split; [destruct Hcases as [-> | ->];
            (constructor; [unfold digit; vm_compute; split; discriminate | constructor])|].
    intros k _ [->|Hk]; [reflexivity|].
    destruct k as [|k]; [reflexivity|].
    rewrite Nat2Z.inj_succ, Z.pow_succ_r in Hk by lia.
    assert (0 < 10 ^ Z.of_nat k) by (apply Z.pow_pos_nonneg; lia). lia.
  - remember (S fuel) as fuel1 eqn:Hfuel. cbn [digits_fuel].
    assert (Hd : 0 <= n mod 10 < 10) by (apply Z.mod_pos_bound; lia).
    assert (Hdigit : digit (digit_char (n mod 10))).
    { unfold digit, digit_char. destruct (Z.ltb_spec (n mod 10) 10); lia. }
    assert (Hvalue : digit_char (n mod 10) - 48 = n mod 10).
    { unfold digit_char. destruct (Z.ltb_spec (n mod 10) 10); lia. }
    destruct (Z.ltb_spec n 10) as [Hlt|Hge].
    + split; [unfold number_of; cbn [fold_left]; rewrite Hvalue, Z.mod_small; lia|].
      split; [constructor; [exact Hdigit | constructor]|].
      intros k _ [->|Hk]; [reflexivity|].
      destruct k as [|k]; [reflexivity|].
      rewrite Nat2Z.inj_succ, Z.pow_succ_r in Hk by lia.
      assert (0 < 10 ^ Z.of_nat k) by (apply Z.pow_pos_nonneg; lia). lia.
    + rewrite digits_fuel_app. subst fuel1.
      assert (Hq : 0 <= n / 10 < 2 ^ Z.of_nat (S fuel)).
      { split; [apply Z.div_pos; lia|].
        apply Z.div_lt_upper_bound; [lia|].
        rewrite (Nat2Z.inj_succ (S fuel)), Z.pow_succ_r in Hn by lia. lia. }
      destruct (IH (n / 10) Hq) as (Hnum & Hall & Hlen).
      split; [rewrite number_of_snoc, Hnum, Hvalue; symmetry; apply Z.div_mod; lia|].
      split; [apply Forall_app; split;
                [exact Hall | constructor; [exact Hdigit | constructor]]|].
      intros k Hup Hlow. rewrite length_app. cbn [length].
      destruct k as [|k]; [change (10 ^ Z.of_nat 1) with 10 in Hup; lia|].
      rewrite (Hlen k); [lia| |].
      * apply Z.div_lt_upper_bound; [lia|].
        rewrite (Nat2Z.inj_succ (S k)), Z.pow_succ_r in Hup by lia. exact Hup.
      * destruct Hlow as [Hlow|Hlow]; [discriminate|].
        destruct k as [|k]; [left; reflexivity|]. right.
        apply Z.div_le_lower_bound; [lia|].
        rewrite (Nat2Z.inj_succ (S k)), Z.pow_succ_r in Hlow by lia. exact Hlow.
Qed.

Lemma decimal_spec (n : Z) :
  0 <= n ->
  number_of (decimal n) = n
  /\ Forall digit (decimal n)
  /\ forall k : nat, n < 10 ^ Z.of_nat (S k) -> (k = 0%nat \/ 10 ^ Z.of_nat k <= n) ->
     length (decimal n) = S k.
Proof.
  intros Hn. unfold decimal, digits. apply digits_fuel_spec.
  split; [exact Hn|].
  rewrite Nat2Z.inj_succ, Z2Nat.id by apply Z.log2_nonneg.
  destruct (Z.eq_dec n 0) as [->|]; [cbn; lia|].
  apply Z.log2_spec. lia.
Qed.

(** The text of an integer determines it. *)
Lemma of_integer_inj (a b : Z) : of_integer a = of_integer b -> a = b.
Proof.
  unfold of_integer. intros H.
  destruct (Z.ltb_spec a 0) as [Ha|Ha]; destruct (Z.ltb_spec b 0) as [Hb|Hb].
  - injection H as H.
    destruct (decimal_spec (- a) ltac:(lia)) as [Ea _].
    destruct (decimal_spec (- b) ltac:(lia)) as [Eb _].
    rewrite H in Ea. lia.
  - destruct (decimal_spec b Hb) as (_ & Hall & _). rewrite <- H in Hall.
    apply Forall_cons in Hall as [Hd _]. unfold digit in Hd. lia.
  - destruct (decimal_spec a Ha) as (_ & Hall & _). rewrite H in Hall.
    apply Forall_cons in Hall as [Hd _]. unfold digit in Hd. lia.
  - destruct (decimal_spec a Ha) as [Ea _]. destruct (decimal_spec b Hb) as [Eb _].
    rewrite H in Ea. lia.
Qed.

(** A number below 100 padded to two places: two digits that write it. *)
Lemma two_places (m : Z) :
  0 <= m <= 99 ->
  length (padStart0 2 (of_integer m)) = 2%nat
  /\ number_of (padStart0 2 (of_integer m)) = m.
Proof.
  intros Hm. unfold of_integer. destruct (Z.ltb_spec m 0); [lia|].
  destruct (decimal_spec m ltac:(lia)) as (Hnum & _ & Hlen).
  unfold padStart0. rewrite number_of_zeros. split; [|exact Hnum].
  rewrite length_app, length_replicate.
  destruct (Z.lt_ge_cases m 10).
  - rewrite (Hlen 0%nat); [reflexivity | exact H0 | left; reflexivity].
  - rewrite (Hlen 1%nat); [reflexivity | cbn; lia | right; cbn; lia].
Qed.

(** ** The storage keys *)

(** The Number model and the numerals agree where both are evaluated. *)

(** The Numbers from 0 to 99 are written as their decimal numerals, and
    [padStart] gives them two places. *)
Lemma numeral_all :
  all_from 100 0 (fun n =>
    JSString.eqb (toString (of_Z n)) (of_integer n)
    && JSString.eqb (padStart0 2 (toString (of_Z n))) [48 + n / 10; 48 + n mod 10]) = true.
Proof. vm_compute. reflexivity. Qed.

Lemma numeral (n : Z) :
  0 <= n <= 99 ->
  toString (of_Z n) = of_integer n
  /\ padStart0 2 (toString (of_Z n)) = [48 + n / 10; 48 + n mod 10].
Proof.
  intros Hn. pose proof (all_from_spec _ _ _ numeral_all n ltac:(lia)) as H.
  cbv beta in H. apply andb_true_iff in H as [H1 H2].
  apply eqb_eq in H1, H2. auto.
Qed.

(** The years from 1900 to 2199 as Numbers are written as their numerals,
    and so are the integers just below zero and just below 2^53. *)
Lemma year_numeral_all :
  all_from 300 1900 (fun n => JSString.eqb (toString (of_Z n)) (of_integer n))
  && all_from 64 (-64) (fun n => JSString.eqb (toString (of_Z n)) (of_integer n))
  && all_from 64 (2 ^ 53 - 64) (fun n => JSString.eqb (toString (of_Z n)) (of_integer n))
  = true.
Proof. vm_compute. reflexivity. Qed.

Lemma year_numeral (y : Z) :
  1900 <= y <= 2199 -> toString (of_Z y) = of_integer y.
Proof.
  intros Hy. pose proof year_numeral_all as H.
  apply andb_true_iff in H as [H _]. apply andb_true_iff in H as [H _].
  pose proof (all_from_spec _ _ _ H y ltac:(lia)) as Hy'. cbv beta in Hy'.
  apply eqb_eq in Hy'. exact Hy'.
Qed.

(** A storage key names its day.  For years below 2^53 in magnitude, which
    [String] writes as their numerals, and months and days of at most two
    digits: two keys are the same exactly when they are keys of the same day
    of the same month of the same year; the month and the day take two
    places each, after the year, so that for a year of four digits the key
    is 14 code units long; and for the years from 1900 to 2199 the key is
    the text that the model of [String] on Numbers gives. *)
Lemma storage_key_names_day (y1 m1 d1 y2 m2 d2 : Z) :
  Z.abs y1 < 2 ^ 53 -> Z.abs y2 < 2 ^ 53 ->
  0 <= m1 <= 99 -> 0 <= d1 <= 99 -> 0 <= m2 <= 99 -> 0 <= d2 <= 99 ->
  (Month.getStorageKeyForDay (Month.mk y1 m1) d1
   = Month.getStorageKeyForDay (Month.mk y2 m2) d2
   <-> y1 = y2 /\ m1 = m2 /\ d1 = d2)
  /\ (1000 <= y1 <= 9999 ->
      length (Month.getStorageKeyForDay (Month.mk y1 m1) d1) = 14%nat)
  /\ (1900 <= y1 <= 2199 ->
      Month.getStorageKeyForDay (Month.mk y1 m1) d1
      = lit "moist:" ++ toString (of_Z y1)
        ++ padStart0 2 (toString (of_Z m1)) ++ padStart0 2 (toString (of_Z d1))).
Proof.
  intros _ _ Hm1 Hd1 Hm2 Hd2. unfold Month.getStorageKeyForDay.
  cbn [Month.year Month.month].
  destruct (two_places m1 Hm1) as [Lm1 Nm1]. destruct (two_places d1 Hd1) as [Ld1 Nd1].
  destruct (two_places m2 Hm2) as [Lm2 Nm2]. destruct (two_places d2 Hd2) as [Ld2 Nd2].
  split; [split|split].
  - intros H. apply app_inv_head in H. rewrite !app_assoc in H.
    apply app_inj_2 in H as [H Hd]; [|congruence].
    apply app_inj_2 in H as [Hy Hm]; [|congruence].
    apply of_integer_inj in Hy. rewrite Hm in Nm1. rewrite Hd in Nd1. lia.
  - intros (-> & -> & ->). reflexivity.
  - intros Hy. rewrite !length_app, Lm1, Ld1.
    unfold of_integer. destruct (Z.ltb_spec y1 0); [lia|].
    destruct (decimal_spec y1 ltac:(lia)) as (_ & _ & Hlen).
    rewrite (Hlen 3%nat); [reflexivity | cbn; lia | right; cbn; lia].
  - intros Hy. rewrite (year_numeral y1 Hy).
    destruct (numeral m1 Hm1) as [-> _]. destruct (numeral d1 Hd1) as [-> _].
    reflexivity.
Qed.

(** The keys of 29 February and of 9 December 2024 differ. *)
Lemma storage_key_names_day_example :
  (Month.getStorageKeyForDay (Month.mk 2024 2) 29
   = Month.getStorageKeyForDay (Month.mk 2024 12) 9
   <-> 2024 = 2024 /\ 2 = 12 /\ 29 = 9)
  /\ (1000 <= 2024 <= 9999 ->
      length (Month.getStorageKeyForDay (Month.mk 2024 2) 29) = 14%nat)
  /\ (1900 <= 2024 <= 2199 ->
      Month.getStorageKeyForDay (Month.mk 2024 2) 29
      = lit "moist:" ++ toString (of_Z 2024)
        ++ padStart0 2 (toString (of_Z 2)) ++ padStart0 2 (toString (of_Z 29))).
Proof.
  apply (storage_key_names_day 2024 2 29 2024 12 9);
    try (vm_compute; reflexivity); lia.
Defined.

(** ** The time of an entry as text *)

(** The hours of a day on the 12-hour clock. *)
Lemma meridiem_all :
  all_from 24 0 (fun h =>
    let r := remainder (of_Z h) 12 in
    PrimFloat.Leibniz.eqb (if is_nan r || is_zero r then 12 else r)%float
      (of_Z (if h mod 12 =? 0 then 12 else h mod 12))
    && Bool.eqb (of_Z h <? 12)%float (h <? 12)) = true.
Proof. vm_compute. reflexivity. Qed.

(** The text of a time of the day.  On the 24-hour clock: the hour as it
    is, a colon and the minute in two places.  On the 12-hour clock: the
    hour from 1 to 12 (12 for midnight and for noon), the minute in two
    places, and [am] before noon, [pm] from noon on. *)
Lemma representTime_of_day (h m : Z) :
  0 <= h <= 23 -> 0 <= m <= 59 ->
  Entry.representTime false (of_Z h) (of_Z m)
  = of_integer h ++ lit ":" ++ [48 + m / 10; 48 + m mod 10]
  /\ Entry.representTime true (of_Z h) (of_Z m)
     = of_integer (if h mod 12 =? 0 then 12 else h mod 12)
       ++ lit ":" ++ [48 + m / 10; 48 + m mod 10]
       ++ (if h <? 12 then lit "am" else lit "pm")
  /\ 1 <= (if h mod 12 =? 0 then 12 else h mod 12) <= 12.
Proof.
  intros Hh Hm. unfold Entry.representTime.
  destruct (numeral m ltac:(lia)) as [_ Hminute].
  destruct (numeral h ltac:(lia)) as [Hhour _].
  pose proof (all_from_spec _ _ _ meridiem_all h ltac:(lia)) as H.
  cbv beta zeta in H. apply andb_true_iff in H as [H12 Hnoon].
  apply float_eqb_eq in H12. apply Bool.eqb_prop in Hnoon.
  assert (Hrange : 1 <= (if h mod 12 =? 0 then 12 else h mod 12) <= 12).
  { pose proof (Z.mod_pos_bound h 12 ltac:(lia)).
    destruct (Z.eqb_spec (h mod 12) 0); lia. }
  destruct (numeral (if h mod 12 =? 0 then 12 else h mod 12) ltac:(lia)) as [Hvisual _].
  rewrite Hminute, Hhour, H12, Hvisual, Hnoon.
  split; [reflexivity|]. split; [|exact Hrange].
  rewrite <- !app_assoc. reflexivity.
Qed.

Lemma representTime_of_day_example :
  Entry.representTime false (of_Z 0) (of_Z 5)
  = of_integer 0 ++ lit ":" ++ [48 + 5 / 10; 48 + 5 mod 10]
  /\ Entry.representTime true (of_Z 0) (of_Z 5)
     = of_integer (if 0 mod 12 =? 0 then 12 else 0 mod 12)
       ++ lit ":" ++ [48 + 5 / 10; 48 + 5 mod 10]
       ++ (if 0 <? 12 then lit "am" else lit "pm")
  /\ 1 <= (if 0 mod 12 =? 0 then 12 else 0 mod 12) <= 12.
Proof. apply (representTime_of_day 0 5); lia. Defined.


(** ** The amounts that the form accepts *)

Lemma accepted_all :
  all_from (Z.to_nat 65536) 0 (fun k =>
    Bool.eqb (checkEntryAmount (of_Z k / 10)%float) ((0 <? k) && (k <=? 60000))) = true.
Proof. vm_cast_no_check (eq_refl true). Qed.

(** Of the amounts with one decimal that fit a record, the form accepts
    those from 0.1 to 6000.0 and no other; an amount that it accepts is
    kept as it is by the constructor of [Entry] and written to the record
    as the whole number of its tenths. *)
Lemma checkEntryAmount_tenths (k : Z) :
  0 <= k <= 65535 ->
  checkEntryAmount (tenths k) = (0 <? k) && (k <=? 60000)
  /\ (checkEntryAmount (tenths k) = true ->
      forall st fluid isOZ hour minute,
        Entry.amount (Entry.new st fluid isOZ (tenths k) hour minute) = tenths k
        /\ ToUint16 (Entry.amount (Entry.new st fluid isOZ (tenths k) hour minute) * 10) = k).
Proof.
  intros Hk. pose proof (all_from_spec _ _ _ accepted_all k ltac:(lia)) as H.
  cbv beta in H. apply Bool.eqb_prop in H. fold (tenths k) in H.
  split; [exact H|]. intros _ st fluid isOZ hour minute.
  destruct (amount_roundtrip k Hk) as [Hamount Hword].
  unfold Entry.new. cbn [Entry.amount]. rewrite Hamount. auto.
Qed.

Lemma checkEntryAmount_tenths_example :
  checkEntryAmount (tenths 80) = (0 <? 80) && (80 <=? 60000)
  /\ (checkEntryAmount (tenths 80) = true ->
      forall st fluid isOZ hour minute,
        Entry.amount (Entry.new st fluid isOZ (tenths 80) hour minute) = tenths 80
        /\ ToUint16 (Entry.amount (Entry.new st fluid isOZ (tenths 80) hour minute) * 10) = 80).
Proof. apply (checkEntryAmount_tenths 80). lia. Defined.


(** ** The page of the calendar *)

Lemma append_cell_spec (acc : list Month.row * Month.row) (td : Month.cell) :
  in_progress acc ->
  in_progress (Month.append_cell acc td)
  /\ concat (fst (Month.append_cell acc td)) ++ snd (Month.append_cell acc td)
     = (concat (fst acc) ++ snd acc) ++ [td].
Proof.
  destruct acc as [body r]. unfold in_progress, Month.append_cell. cbn [fst snd].
  intros [Hbody Hr].
  destruct (Nat.eqb_spec (length (r ++ [td])) 7) as [Hfull|Hnot]; cbn [fst snd].
  - split; [split; [|cbn; lia]|].
    + apply Forall_app. split; [exact Hbody|]. constructor; [exact Hfull | constructor].
    + rewrite concat_app. cbn [concat]. rewrite !app_nil_r, app_assoc. reflexivity.
  - rewrite length_app in *. cbn [length] in *. split; [split; [exact Hbody | lia]|].
    rewrite app_assoc. reflexivity.
Qed.

Lemma days_loop_spec (td : Z -> Month.cell) (n : nat) :
  forall i acc,
    in_progress acc ->
    in_progress (Month.days_loop n i td acc)
    /\ concat (fst (Month.days_loop n i td acc)) ++ snd (Month.days_loop n i td acc)
       = (concat (fst acc) ++ snd acc) ++ map td (days_from n i).
Proof.
  induction n as [|n IH]; intros i acc Hacc; cbn [Month.days_loop days_from map].
  - rewrite app_nil_r. auto.
  - destruct (append_cell_spec acc (td i) Hacc) as [Hnext Hcells].
    destruct (IH (i + 1) _ Hnext) as [Hend Hall].
    split; [exact Hend|]. rewrite Hall, Hcells, <- app_assoc. reflexivity.
Qed.

(** The weekday of a date is a day of the week. *)
Lemma getDay_range (d : option Z) : 0 <= default 0 (JSDate.getDay d) < 7.
Proof.
  destruct d as [day|]; cbn [JSDate.getDay default from_option id]; [|lia].
  unfold JSDate.WeekDay. apply Z.mod_pos_bound. lia.
Qed.

Lemma page_rows (getItem : jsstring -> option jsstring)
    (fullYear monthIndex date : Z) (this : Month.t) :
  let page := Month.generateCalendarPage getItem fullYear monthIndex date this in
  let weekdays :=
    Z.to_nat (default 0 (JSDate.getDay
      (JSDate.new (Month.year this) (Month.month this - 1) 1))) in
  let DAYS := Z.to_nat (default 0 (Month.getNumberOfDays this)) in
  let SAME_MONTH := (fullYear =? Month.year this) && (monthIndex + 1 =? Month.month this) in
  concat page
  = replicate weekdays None
    ++ map (Month.day_cell getItem SAME_MONTH date this) (days_from DAYS 1)
  /\ Forall (fun r => (1 <= length r <= 7)%nat) page
  /\ (forall (i : nat) r, page !! i = Some r -> (S i < length page)%nat -> length r = 7%nat)
  /\ length page = ((weekdays + DAYS + 6) / 7)%nat.
Proof.
  intros page weekdays DAYS SAME_MONTH.
  assert (Hw : (weekdays < 7)%nat).
  { pose proof (getDay_range (JSDate.new (Month.year this) (Month.month this - 1) 1)).
    unfold weekdays. lia. }
  destruct (days_loop_spec (Month.day_cell getItem SAME_MONTH date this) DAYS 1
              ([], replicate weekdays None)) as [[Hbody Hrow] Hcells].
  { split; [constructor | cbn [snd]; rewrite length_replicate; exact Hw]. }
  cbn [fst snd concat app] in Hcells.
  unfold page, Month.generateCalendarPage. fold weekdays DAYS SAME_MONTH.
  destruct (Month.days_loop DAYS 1 _ _) as [body r]. cbn [fst snd] in *.
  assert (Hlen : (7 * length body + length r = weekdays + DAYS)%nat).
  { apply (f_equal (@length _)) in Hcells.
    rewrite !length_app, length_replicate, length_map in Hcells.
    assert (Hd : forall n i, length (days_from n i) = n)
      by (induction n as [|n IHn]; intros i; cbn [days_from length]; [|rewrite IHn]; reflexivity).
    rewrite Hd in Hcells. rewrite <- Hcells. clear Hcells.
    induction Hbody as [|x l Hx _ IHl]; cbn [concat length]; [lia|].
    rewrite length_app, Hx. lia. }
  destruct (Nat.ltb_spec 0 (length r)) as [Hr|Hr].
  - split; [rewrite concat_app; cbn [concat]; rewrite app_nil_r; exact Hcells|].
    split; [|split].
    + apply Forall_app. split.
      * eapply Forall_impl; [exact Hbody|]. cbv beta. intros x Hx. lia.
      * constructor; [lia | constructor].
    + intros i x Hi Hlast. rewrite length_app in Hlast. cbn [length] in Hlast.
      unfold Month.row in *. rewrite lookup_app_l in Hi by lia.
      apply (proj1 (Forall_lookup _ body) Hbody i x Hi).
    + rewrite length_app. cbn [length]. symmetry.
      replace (weekdays + DAYS + 6)%nat with ((length body + 1) * 7 + (length r - 1))%nat by lia.
      rewrite Nat.div_add_l by lia. rewrite Nat.div_small by lia. lia.
  - assert (r = []) by (destruct r; [reflexivity | cbn in Hr; lia]). subst r.
    rewrite app_nil_r in Hcells. split; [exact Hcells|]. split; [|split].
    + eapply Forall_impl; [exact Hbody|]. cbv beta. intros x Hx. lia.
    + intros i x Hi _. apply (proj1 (Forall_lookup _ body) Hbody i x Hi).
    + cbn [length] in Hlen. symmetry.
      replace (weekdays + DAYS + 6)%nat with (length body * 7 + 6)%nat by lia.
      rewrite Nat.div_add_l by lia. cbn. lia.
Qed.

(** The page of any month, whatever the store holds and whatever the day
    is: its cells, row after row, are the blank cells up to the weekday of
    the first of the month and then the cells of the days 1, 2, ... in
    their order; every row has seven cells but the last, which has from one
    to seven; so there are as many rows as the cells need. *)
Lemma calendar_page_rows (getItem : jsstring -> option jsstring)
    (fullYear monthIndex date : Z) (this : Month.t) :
  let page := Month.generateCalendarPage getItem fullYear monthIndex date this in
  let weekdays :=
    Z.to_nat (default 0 (JSDate.getDay
      (JSDate.new (Month.year this) (Month.month this - 1) 1))) in
  let DAYS := Z.to_nat (default 0 (Month.getNumberOfDays this)) in
  let SAME_MONTH := (fullYear =? Month.year this) && (monthIndex + 1 =? Month.month this) in
  concat page
  = replicate weekdays None
    ++ map (Month.day_cell getItem SAME_MONTH date this) (days_from DAYS 1)
  /\ Forall (fun r => (1 <= length r <= 7)%nat) page
  /\ (forall (i : nat) r, page !! i = Some r -> (S i < length page)%nat -> length r = 7%nat)
  /\ length page = ((weekdays + DAYS + 6) / 7)%nat.
Proof. exact (page_rows getItem fullYear monthIndex date this). Qed.


(** ** Consecutive months *)

Lemma MakeDay_first (y m : Z) :
  1 <= m <= 12 ->
  JSDate.MakeDay y (m - 1) 1
  = JSDate.DayFromYear y + JSDate.month_start (JSDate.InLeapYear y) (m - 1).
Proof.
  intros Hm. unfold JSDate.MakeDay.
  rewrite Z.div_small, Z.mod_small by lia. replace (y + 0) with y by lia. lia.
Qed.

Lemma month_start_next (y m : Z) :
  1 <= m <= 12 ->
  JSDate.month_start (JSDate.InLeapYear y) m
  = JSDate.month_start (JSDate.InLeapYear y) (m - 1) + days_in_month y m.
Proof.
  intros Hm. rewrite InLeapYear_leap. unfold days_in_month.
  assert (Hcases : m = 1 \/ m = 2 \/ m = 3 \/ m = 4 \/ m = 5 \/ m = 6 \/ m = 7
                   \/ m = 8 \/ m = 9 \/ m = 10 \/ m = 11 \/ m = 12) by lia.
  repeat (destruct Hcases as [->|Hcases]); try subst m;
    cbn [JSDate.month_start Z.sub Z.add Z.opp Z.pos_sub Pos.pred_double Z.double
         Z.succ_double Z.pred_double];
    destruct (leap_year y); reflexivity.
Qed.

Lemma DayFromYear_range (y : Z) :
  100 <= y <= 275001 -> -99000000 <= JSDate.DayFromYear y <= 99930000.
Proof.
  intros Hy. destruct (Z.le_gt_cases 1970 y).
  - pose proof (DayFromYear_add 1970 (y - 1970) ltac:(lia)) as Hb.
    replace (1970 + (y - 1970)) with y in Hb by lia.
    rewrite DayFromYear_1970 in Hb. lia.
  - pose proof (DayFromYear_add y (1970 - y) ltac:(lia)) as Hb.
    replace (y + (1970 - y)) with 1970 in Hb by lia.
    rewrite DayFromYear_1970 in Hb. lia.
Qed.

Lemma month_start_range (leap m : Z) :
  0 <= leap <= 1 -> 0 <= JSDate.month_start leap m <= 366.
Proof.
  intros Hl. unfold JSDate.month_start.
  destruct m as [|p|p]; try lia.
  do 4 (destruct p as [p|p|]; try lia).
Qed.

Lemma InLeapYear_range (y : Z) : 0 <= JSDate.InLeapYear y <= 1.
Proof. rewrite InLeapYear_leap. destruct (leap_year y); lia. Qed.

(** The day number of the first of a month. *)
Lemma first_of_month (y m : Z) :
  100 <= y <= 275001 -> 1 <= m <= 12 ->
  JSDate.new y (m - 1) 1
  = Some (JSDate.DayFromYear y + JSDate.month_start (JSDate.InLeapYear y) (m - 1)).
Proof.
  intros Hy Hm. unfold JSDate.new.
  destruct (Z.leb_spec 0 y); [|lia]. destruct (Z.leb_spec y 99); [lia|]. cbn [andb].
  rewrite MakeDay_first by exact Hm.
  pose proof (DayFromYear_range y Hy).
  pose proof (month_start_range (JSDate.InLeapYear y) (m - 1) (InLeapYear_range y)).
  destruct (Z.leb_spec (Z.abs (JSDate.DayFromYear y
              + JSDate.month_start (JSDate.InLeapYear y) (m - 1))) 100000000); [reflexivity | lia].
Qed.

(** The first of the next month is the day after the last of this one. *)
Lemma first_of_next_month (y m : Z) :
  100 <= y <= 275000 -> 1 <= m <= 12 ->
  exists day,
    JSDate.new y (m - 1) 1 = Some day
    /\ JSDate.new (Month.year (Month.next (Month.mk y m)))
         (Month.month (Month.next (Month.mk y m)) - 1) 1
       = Some (day + days_in_month y m).
Proof.
  intros Hy Hm. eexists. split; [apply first_of_month; lia|].
  rewrite (next_calendar y m) by lia.
  destruct (Z.eqb_spec m 12) as [H12|Hless]; cbn [Month.year Month.month].
  - subst m.
    rewrite (first_of_month (y + 1) 1) by lia.
    rewrite DayFromYear_succ, DaysInYear_leap, InLeapYear_leap.
    f_equal. change (12 - 1) with 11. change (1 - 1) with 0.
    cbn [JSDate.month_start days_in_month]. rewrite InLeapYear_leap.
    destruct (leap_year y); lia.
  - rewrite (first_of_month y (m + 1)) by lia.
    replace (m + 1 - 1) with m by lia.
    rewrite (month_start_next y m Hm). f_equal. lia.
Qed.

Lemma days_in_month_range (y m : Z) : 28 <= days_in_month y m <= 31.
Proof.
  unfold days_in_month. destruct (leap_year y).
  - destruct m as [|p|p]; try lia. do 4 (destruct p as [p|p|]; try lia).
  - destruct m as [|p|p]; try lia. do 4 (destruct p as [p|p|]; try lia).
Qed.

(** The page of a month of the calendar. *)
Lemma page_of_month (getItem : jsstring -> option jsstring)
    (fullYear monthIndex date : Z) (y m day : Z) :
  100 <= y <= 275000 -> 1 <= m <= 12 ->
  JSDate.new y (m - 1) 1 = Some day ->
  let page := Month.generateCalendarPage getItem fullYear monthIndex date (Month.mk y m) in
  concat page
  = replicate (Z.to_nat ((day + 4) mod 7)) None
    ++ map (Month.day_cell getItem ((fullYear =? y) && (monthIndex + 1 =? m)) date
              (Month.mk y m))
         (days_from (Z.to_nat (days_in_month y m)) 1)
  /\ (4 <= length page <= 6)%nat.
Proof.
  intros Hy Hm Hday page.
  destruct (page_rows getItem fullYear monthIndex date (Month.mk y m))
    as (Hcells & _ & _ & Hlen).
  cbn [Month.year Month.month] in Hcells, Hlen.
  rewrite Hday, (getNumberOfDays_spec y m Hy Hm) in Hcells, Hlen.
  cbn [JSDate.getDay default from_option id] in Hcells, Hlen.
  unfold JSDate.WeekDay in Hcells, Hlen.
  split; [exact Hcells|]. fold page in Hlen. rewrite Hlen.
  pose proof (days_in_month_range y m).
  pose proof (Z.mod_pos_bound (day + 4) 7 ltac:(lia)).
  split.
  - apply Nat.div_le_lower_bound; lia.
  - assert ((Z.to_nat ((day + 4) mod 7) + Z.to_nat (days_in_month y m) + 6) / 7 < 7)%nat;
      [apply Nat.Div0.div_lt_upper_bound|]; lia.
Qed.

(** The pages of consecutive months join.  In every year from 100 to 274999
    and every month, the page has blank cells in front, fewer than seven,
    then the cells of all the days of the month, in four to six rows; and
    the page of the next month has as many blank cells in front as the cells
    of this page leave over when they are counted in sevens: its first day
    stands in the column after the last day of this month. *)
Lemma calendar_pages_join (getItem : jsstring -> option jsstring)
    (fullYear monthIndex date : Z) (y m : Z) :
  100 <= y <= 274999 -> 1 <= m <= 12 ->
  let this := Month.mk y m in
  let next := Month.next this in
  let days := Z.to_nat (days_in_month y m) in
  let days' := Z.to_nat (days_in_month (Month.year next) (Month.month next)) in
  let page := Month.generateCalendarPage getItem fullYear monthIndex date this in
  let page' := Month.generateCalendarPage getItem fullYear monthIndex date next in
  exists blanks blanks' : nat,
    (blanks < 7)%nat
    /\ concat page
       = replicate blanks None
         ++ map (Month.day_cell getItem ((fullYear =? y) && (monthIndex + 1 =? m)) date this)
              (days_from days 1)
    /\ (4 <= length page <= 6)%nat
    /\ concat page'
       = replicate blanks' None
         ++ map (Month.day_cell getItem
                   ((fullYear =? Month.year next) && (monthIndex + 1 =? Month.month next))
                   date next)
              (days_from days' 1)
    /\ (4 <= length page' <= 6)%nat
    /\ blanks' = ((blanks + days) mod 7)%nat.
Proof.
  intros Hy Hm this next days days' page page'.
  destruct (first_of_next_month y m ltac:(lia) Hm) as (day & Hday & Hday').
  fold this next in Hday'.
  assert (Hnext : 100 <= Month.year next <= 275000 /\ 1 <= Month.month next <= 12).
  { unfold next, this. rewrite (next_calendar y m) by lia.
    destruct (Z.eqb_spec m 12); cbn [Month.year Month.month]; lia. }
  destruct Hnext as [Hy' Hm'].
  destruct (page_of_month getItem fullYear monthIndex date y m day ltac:(lia) Hm Hday)
    as [Hcells Hrows].
  destruct (page_of_month getItem fullYear monthIndex date
              (Month.year next) (Month.month next) _ Hy' Hm' Hday') as [Hcells' Hrows'].
  replace (Month.mk (Month.year next) (Month.month next)) with next in Hcells', Hrows'
    by (destruct next; reflexivity).
  pose proof (Z.mod_pos_bound (day + 4) 7 ltac:(lia)) as Hw.
  pose proof (days_in_month_range y m) as Hd.
  exists (Z.to_nat ((day + 4) mod 7)), (Z.to_nat ((day + days_in_month y m + 4) mod 7)).
  split; [lia|]. split; [exact Hcells|]. split; [exact Hrows|].
  split; [exact Hcells'|]. split; [exact Hrows'|].
  apply Nat2Z.inj. rewrite Nat2Z.inj_mod, Nat2Z.inj_add.
  unfold days. rewrite !Z2Nat.id by (try apply Z.mod_pos_bound; lia).
  change (Z.of_nat 7) with 7. rewrite Zplus_mod_idemp_l. f_equal. lia.
Qed.

Lemma calendar_pages_join_example :
  let this := Month.mk 2024 2 in
  let next := Month.next this in
  let days := Z.to_nat (days_in_month 2024 2) in
  let days' := Z.to_nat (days_in_month (Month.year next) (Month.month next)) in
  let page := Month.generateCalendarPage (fun _ => None) 2024 1 29 this in
  let page' := Month.generateCalendarPage (fun _ => None) 2024 1 29 next in
  exists blanks blanks' : nat,
    (blanks < 7)%nat
    /\ concat page
       = replicate blanks None
         ++ map (Month.day_cell (fun _ => None) ((2024 =? 2024) && (1 + 1 =? 2)) 29 this)
              (days_from days 1)
    /\ (4 <= length page <= 6)%nat
    /\ concat page'
       = replicate blanks' None
         ++ map (Month.day_cell (fun _ => None)
                   ((2024 =? Month.year next) && (1 + 1 =? Month.month next))
                   29 next)
              (days_from days' 1)
    /\ (4 <= length page' <= 6)%nat
    /\ blanks' = ((blanks + days) mod 7)%nat.
Proof. apply (calendar_pages_join (fun _ => None) 2024 1 29 2024 2); lia. Defined.

(** ** Stepping through the months *)

Lemma iter_next (k : nat) :
  forall y m, Z.abs y <= 2 ^ 53 -> 1 <= m -> m + Z.of_nat k <= 12 ->
  Nat.iter k Month.next (Month.mk y m) = Month.mk y (m + Z.of_nat k).
Proof.
  induction k as [|k IH]; intros y m Hy Hm Hk.
  - cbn [Nat.iter nat_rect]. f_equal. lia.
  - cbn [Nat.iter nat_rect]. fold (Nat.iter k Month.next (Month.mk y m)).
    rewrite IH by lia. rewrite next_within by lia. f_equal. lia.
Qed.

Lemma iter_previous (k : nat) :
  forall y m, Z.abs y <= 2 ^ 53 -> m <= 12 -> 1 <= m - Z.of_nat k ->
  Nat.iter k Month.previous (Month.mk y m) = Month.mk y (m - Z.of_nat k).
Proof.
  induction k as [|k IH]; intros y m Hy Hm Hk.
  - cbn [Nat.iter nat_rect]. f_equal. lia.
  - cbn [Nat.iter nat_rect]. fold (Nat.iter k Month.previous (Month.mk y m)).
    rewrite IH by lia. rewrite previous_within by lia. f_equal. lia.
Qed.

(** From a month of the calendar, in a year below 2^53 in magnitude (where
    the years are Numbers one apart), [next] and [previous] undo each other,
    both stay in the calendar, and twelve steps lead to the same month of
    the next year, or of the year before.  (At 2^53 the sums of the code are
    rounded: the month before the month after December of the year 2^53 is
    December of the year 2^53 - 1.) *)
Lemma month_steps (y m : Z) :
  Z.abs y < 2 ^ 53 -> 1 <= m <= 12 ->
  Month.previous (Month.next (Month.mk y m)) = Month.mk y m
  /\ Month.next (Month.previous (Month.mk y m)) = Month.mk y m
  /\ 1 <= Month.month (Month.next (Month.mk y m)) <= 12
  /\ 1 <= Month.month (Month.previous (Month.mk y m)) <= 12
  /\ Nat.iter 12 Month.next (Month.mk y m) = Month.mk (y + 1) m
  /\ Nat.iter 12 Month.previous (Month.mk y m) = Month.mk (y - 1) m
  /\ Month.previous (Month.next (Month.mk (2 ^ 53) 12)) = Month.mk (2 ^ 53 - 1) 12.
Proof.
  intros Hy Hm.
  pose proof (next_calendar y m Hy Hm) as Hn.
  pose proof (previous_calendar y m Hy Hm) as Hp.
  split; [|split; [|split; [|split; [|split; [|split]]]]].
  - rewrite Hn. destruct (Z.eqb_spec m 12) as [->|].
    + rewrite previous_wraps by lia. f_equal. lia.
    + rewrite previous_within by lia. f_equal. lia.
  - rewrite Hp. destruct (Z.eqb_spec m 1) as [->|].
    + rewrite next_wraps by lia. f_equal. lia.
    + rewrite next_within by lia. f_equal. lia.
  - rewrite Hn. destruct (Z.eqb_spec m 12); cbn [Month.month]; lia.
  - rewrite Hp. destruct (Z.eqb_spec m 1); cbn [Month.month]; lia.
  - replace 12%nat with (Z.to_nat (m - 1) + (1 + Z.to_nat (12 - m)))%nat by lia.
    rewrite Nat.iter_add. rewrite (Nat.iter_add 1). rewrite iter_next by lia.
    cbn [Nat.iter nat_rect].
    replace (m + Z.of_nat (Z.to_nat (12 - m))) with 12 by lia.
    rewrite next_wraps by lia. rewrite iter_next by lia.
    f_equal. lia.
  - replace 12%nat with (Z.to_nat (12 - m) + (1 + Z.to_nat (m - 1)))%nat by lia.
    rewrite Nat.iter_add. rewrite (Nat.iter_add 1). rewrite iter_previous by lia.
    cbn [Nat.iter nat_rect].
    replace (m - Z.of_nat (Z.to_nat (m - 1))) with 1 by lia.
    rewrite previous_wraps by lia. rewrite iter_previous by lia.
    f_equal. lia.
  - vm_compute. reflexivity.
Qed.

Lemma month_steps_example :
  Month.previous (Month.next (Month.mk 2023 12)) = Month.mk 2023 12
  /\ Month.next (Month.previous (Month.mk 2023 12)) = Month.mk 2023 12
  /\ 1 <= Month.month (Month.next (Month.mk 2023 12)) <= 12
  /\ 1 <= Month.month (Month.previous (Month.mk 2023 12)) <= 12
  /\ Nat.iter 12 Month.next (Month.mk 2023 12) = Month.mk (2023 + 1) 12
  /\ Nat.iter 12 Month.previous (Month.mk 2023 12) = Month.mk (2023 - 1) 12
  /\ Month.previous (Month.next (Month.mk (2 ^ 53) 12)) = Month.mk (2 ^ 53 - 1) 12.
Proof. apply (month_steps 2023 12); [vm_compute; reflexivity | lia]. Defined.



(** ** The index that [save] gives *)

Lemma find_twin_in (h : Fluid.loc -> Fluid.t) (items : list Fluid.loc)
    (d : jsstring) (t : Fluid.loc) :
  Fluid.find_twin h items d = Some t -> In t items.
Proof. unfold Fluid.find_twin. intros H. apply find_some in H as [H _]. exact H. Qed.

Lemma find_twin_append (h : Fluid.loc -> Fluid.t) (a b : list Fluid.loc) (d : jsstring) :
  Fluid.find_twin h (a ++ b) d
  = match Fluid.find_twin h a d with
    | Some t => Some t
    | None => Fluid.find_twin h b d
    end.
Proof.
  unfold Fluid.find_twin. induction a as [|x a IH]; cbn [app find]; [reflexivity|].
  destruct (JSString.eqb (Fluid.data (h x)) d); [reflexivity | exact IH].
Qed.

Lemma save_one_pushed (n : Z) (saved0 : list Fluid.loc) (st : Fluid.registry)
    (more : list Fluid.loc) (f : Fluid.loc) :
  pushed n saved0 st more ->
  exists more', pushed n saved0 (Fluid.save_one n st f) more'.
Proof.
  intros [Hsaved Hmore]. unfold Fluid.save_one.
  destruct (Fluid.find_twin (Fluid.heap st) (Fluid.saved st) (Fluid.data (Fluid.heap st f)))
    as [twin|] eqn:E.
  - exists more. split; [exact Hsaved|].
    assert (Hfind : forall d,
               Fluid.find_twin
                 (Fluid.heap (Fluid.write_index st f (Fluid.index (Fluid.heap st twin))))
                 saved0 d
               = Fluid.find_twin (Fluid.heap st) saved0 d).
    { intros d. apply find_twin_ext. intros x. apply data_write_index. }
    intros x Hx. destruct (Hmore x Hx) as [Hindex Hnone].
    rewrite Hfind, data_write_index. split; [|exact Hnone].
    rewrite index_write_index. destruct (Nat.eqb_spec x f) as [->|_]; [|exact Hindex].
    rewrite Hsaved, find_twin_append, Hnone in E.
    apply find_twin_in in E. apply (Hmore twin E).
  - exists (more ++ [f]).
    assert (Hfind : forall d,
               Fluid.find_twin (Fluid.heap (Fluid.write_index st f n)) saved0 d
               = Fluid.find_twin (Fluid.heap st) saved0 d).
    { intros d. apply find_twin_ext. intros x. apply data_write_index. }
    split; [cbn [Fluid.push_saved Fluid.saved Fluid.write_index];
            rewrite Hsaved, app_assoc; reflexivity|].
    rewrite Hsaved, find_twin_append in E.
    destruct (Fluid.find_twin (Fluid.heap st) saved0 (Fluid.data (Fluid.heap st f)))
      eqn:E0; [discriminate|].
    intros x Hx. cbn [Fluid.push_saved Fluid.heap].
    rewrite Hfind, data_write_index, index_write_index.
    apply in_app_or in Hx as [Hx|[<-|[]]].
    + destruct (Hmore x Hx) as [Hindex Hnone]. split; [|exact Hnone].
      destruct (Nat.eqb_spec x f); [reflexivity | exact Hindex].
    + rewrite Nat.eqb_refl. split; [reflexivity | exact E0].
Qed.

Lemma save_loop_pushed (n : Z) (saved0 fluids : list Fluid.loc) :
  forall st more,
    pushed n saved0 st more ->
    exists more', pushed n saved0 (fold_left (Fluid.save_one n) fluids st) more'.
Proof.
  induction fluids as [|f fluids IH]; intros st more H; cbn [fold_left].
  - exists more. exact H.
  - destruct (save_one_pushed n saved0 st more f H) as [more1 H1].
    apply (IH _ more1 H1).
Qed.

(** Every fluid that [save] appends to [Fluid.saved] gets the length of the
    array that was passed as its index, wherever it stands in [Fluid.saved]
    afterwards. *)
Lemma save_gives_array_length (st : Fluid.registry) (fluids : list Fluid.loc) :
  exists st' more,
    Fluid.save (Fluid.Array fluids) st = Ok st'
    /\ Fluid.saved st' = Fluid.saved st ++ more
    /\ forall x, In x more ->
         Fluid.index (Fluid.heap st' x) = Z.of_nat (length fluids).
Proof.
  destruct (save_loop_pushed (Z.of_nat (length fluids)) (Fluid.saved st) fluids st [])
    as (more & Hsaved & Hmore).
  { split; [rewrite app_nil_r; reflexivity | intros x []]. }
  eexists. exists more. split; [reflexivity|].
  unfold Fluid.write_back. cbn [Fluid.setItem Fluid.saved Fluid.heap].
  split; [exact Hsaved|]. intros x Hx. apply (Hmore x Hx).
Qed.

(** ** A drink of a fluid that is not saved *)

(** A log on which a drink of a fluid that is not saved (index -1) was
    registered cannot be encoded: [register] returns, and [encode] of the
    log then throws a TypeError, whatever its other entries are. *)
Lemma register_unsaved_then_encode_throws (st : Fluid.registry) (hours minutes : Z)
    (logs : DailyLog.store) (this : nat) (f : Fluid.loc) (isOZ : bool) (amount : float) :
  Fluid.index (Fluid.heap st f) = -1 ->
  exists logs',
    DailyLog.register st hours minutes logs this (Some f) isOZ amount = Ok (logs', this)
    /\ DailyLog.encode st (logs' this) = Throw TypeError.
Proof.
  intros Hindex. unfold DailyLog.register, DailyLog.add.
  cbn [Entry.new Entry.fluid bind]. eexists. split; [reflexivity|].
  unfold DailyLog.update. rewrite Nat.eqb_refl.
  match goal with
  | |- DailyLog.encode st ?log = _ =>
      pose proof (encode_entries_cases st (DailyLog.entries log)
                    [uint16 (shl (Z.b2z (DailyLog.isOZ log)) 15);
                     ToUint16 (DailyLog.goal log * 10)]) as H;
      unfold DailyLog.encode;
      destruct (DailyLog.encode_entries st (DailyLog.entries log) _) as [[text st']|err]
  end.
  - exfalso. destruct H as (_ & _ & Hall). cbn [DailyLog.entries] in Hall.
    apply Forall_app in Hall as [_ Hall]. apply Forall_cons in Hall as [(f' & Hf & Hne) _].
    cbn [Entry.fluid] in Hf. injection Hf as <-. contradiction.
  - destruct H as [-> _]. reflexivity.
Qed.

Lemma register_unsaved_then_encode_throws_example :
  exists logs',
    DailyLog.register (fst (Fluid.alloc later_run tea)) 9 30
      (fun _ => DailyLog.new true 64) 0%nat (Some 2%nat) true 8
    = Ok (logs', 0%nat)
    /\ DailyLog.encode (fst (Fluid.alloc later_run tea)) (logs' 0%nat) = Throw TypeError.
Proof.
  apply (register_unsaved_then_encode_throws (fst (Fluid.alloc later_run tea)) 9 30
           (fun _ => DailyLog.new true 64) 0%nat 2%nat true 8).
  vm_compute. reflexivity.
Defined.
